(** * Sustainable Electricity prototype (app.py): the energy pipeline

    The dashboard script computes seven numbers and one status string from
    six slider values.  The script is Python: the sliders deliver [int]s,
    the literals [0.5], [0.7], [0.6], [0.8], [1.0], [0.75] are binary64
    floats, and every arithmetic operation is Python's ([int] exact,
    [float] IEEE 754 binary64 with round to nearest even, mixed operands
    converted to [float]).  The development below embeds exactly that:

    - [B64]: binary64 arithmetic, taken from the reference specification of
      the Standard Library ([SpecFloat], precision 53, emax 1024);
    - [Py]: Python numbers ([int] or [float]), the exceptions arithmetic can
      raise, and the operators [*], [+], [/], [<], [min] and ["{:.2f}"];
    - the four functions of app.py and the script itself, run statement by
      statement over the module's global variables;
    - [Ideal]: the same formulas read over the real numbers, as the
      specification words them;
    - [Exact]: rounding by value, from which the order and the bounds of
      the outputs follow. *)

From Stdlib Require Import ZArith Bool List String Ascii Lia.
From Stdlib Require Import DecimalString.
From Stdlib Require Import Floats.SpecFloat.
From Stdlib Require Import Reals Lra.
Import ListNotations.

Local Open Scope Z_scope.

(* ================================================================== *)
(** ** Binary64 arithmetic *)
(* ================================================================== *)

Module B64.

Definition prec : Z := 53.
Definition emax : Z := 1024.

(** A Python [float]: sign, 53-bit mantissa and exponent, or a zero, an
    infinity, or NaN. *)
Definition float : Type := spec_float.

Definition mul : float -> float -> float := SFmul prec emax.
Definition add : float -> float -> float := SFadd prec emax.
Definition div : float -> float -> float := SFdiv prec emax.
Definition compare : float -> float -> option comparison := SFcompare.
Definition leb : float -> float -> bool := SFleb.
Definition eqb : float -> float -> bool := SFeqb.
Definition valid : float -> bool := valid_binary prec emax.

(** Rounding of the integer [n] to the nearest binary64 value (ties to
    even); integers beyond the finite range round to an infinity. *)
Definition of_Z (n : Z) : float := binary_normalize prec emax n 0 false.

(** The integer [n] as an exact (not normalised) operand, used for the
    true division of two [int]s. *)
Definition exact_Z (n : Z) : float :=
  match n with
  | Z0 => S754_zero false
  | Zpos p => S754_finite false p 0
  | Zneg p => S754_finite true p 0
  end.

(** A decimal literal [num/den] is read as the binary64 value nearest to
    it: the correctly rounded quotient of two exactly representable
    integers. *)
Definition literal (num den : Z) : float := div (of_Z num) (of_Z den).

Definition zero : float := S754_zero false.
Definition one : float := Eval vm_compute in literal 1 1.

Definition is_zero (x : float) : bool :=
  match x with S754_zero _ => true | _ => false end.

Definition is_finite (x : float) : bool :=
  match x with S754_zero _ | S754_finite _ _ _ => true | _ => false end.

Definition sign (x : float) : bool :=
  match x with
  | S754_zero s | S754_infinity s | S754_finite s _ _ => s
  | S754_nan => false
  end.

(** [fin K x]: [x] is a zero or a well-formed finite float of magnitude
    below [2^K]. *)
Definition fin (K : Z) (x : float) : Prop :=
  match x with
  | S754_zero _ => True
  | S754_finite _ m e =>
      SpecFloat.bounded prec emax m e = true /\ Zdigits2 (Zpos m) + e <= K
  | _ => False
  end.

(** [above L x]: [x] is finite, not zero, and of magnitude at least
    [2^(L-1)]. *)
Definition above (L : Z) (x : float) : Prop :=
  match x with
  | S754_finite _ m e => L <= Zdigits2 (Zpos m) + e
  | _ => False
  end.

(** [nonneg K x]: moreover the sign bit of [x] is clear. *)
Definition nonneg (K : Z) (x : float) : Prop := fin K x /\ sign x = false.

(** [nonneg0 K x]: as [nonneg], but a zero may carry either sign. *)
Definition nonneg0 (K : Z) (x : float) : Prop :=
  fin K x /\ (sign x = false \/ is_zero x = true).

(** The least positive float, [2^-1074], and its opposite. *)
Definition least (s : bool) : float := S754_finite s 1 (-1074).

End B64.

(* ================================================================== *)
(** ** Python numbers and operators *)
(* ================================================================== *)

Module Py.

Import B64.

Inductive exc : Type :=
| OverflowError
| ZeroDivisionError
| NameError
| TypeError.

Inductive result (A : Type) : Type :=
| Ok (a : A)
| Raise (e : exc).
Arguments Ok {A} a.
Arguments Raise {A} e.

Definition bind {A B} (r : result A) (k : A -> result B) : result B :=
  match r with
  | Ok a => k a
  | Raise e => Raise e
  end.

Inductive num : Type :=
| PyInt (n : Z)
| PyFloat (x : float).

(** [float(n)] as the arithmetic operators apply it to an [int] operand:
    correctly rounded, [OverflowError] when the result is not finite
    ("int too large to convert to float"). *)
Definition float_of_int (n : Z) : result float :=
  match of_Z n with
  | S754_infinity _ => Raise OverflowError
  | x => Ok x
  end.

Definition to_float (a : num) : result float :=
  match a with
  | PyInt n => float_of_int n
  | PyFloat x => Ok x
  end.

(** [a * b] *)
Definition mul (a b : num) : result num :=
  match a, b with
  | PyInt x, PyInt y => Ok (PyInt (x * y))
  | _, _ =>
      bind (to_float a) (fun x =>
      bind (to_float b) (fun y =>
      Ok (PyFloat (B64.mul x y))))
  end.

(** [a + b] *)
Definition add (a b : num) : result num :=
  match a, b with
  | PyInt x, PyInt y => Ok (PyInt (x + y))
  | _, _ =>
      bind (to_float a) (fun x =>
      bind (to_float b) (fun y =>
      Ok (PyFloat (B64.add x y))))
  end.

(** [a / b]: true division.  Two [int]s give the correctly rounded
    quotient, and overflow of that quotient raises. *)
Definition truediv (a b : num) : result num :=
  match a, b with
  | PyInt x, PyInt y =>
      if Z.eqb y 0 then Raise ZeroDivisionError
      else match B64.div (exact_Z x) (exact_Z y) with
           | S754_infinity _ => Raise OverflowError
           | q => Ok (PyFloat q)
           end
  | _, _ =>
      bind (to_float a) (fun x =>
      bind (to_float b) (fun y =>
      if is_zero y then Raise ZeroDivisionError
      else Ok (PyFloat (B64.div x y))))
  end.

(** Comparison of a [float] with an [int] is exact in Python: the
    [int] is not rounded first. *)
Definition compare_float_int (x : float) (n : Z) : option comparison :=
  match x with
  | S754_nan => None
  | S754_infinity s => Some (if s then Lt else Gt)
  | S754_zero _ => Some (0 ?= n)
  | S754_finite s m e =>
      let sm := if s then Zneg m else Zpos m in
      Some (if 0 <=? e then sm * 2 ^ e ?= n else sm ?= n * 2 ^ (- e))
  end.

Definition compare (a b : num) : option comparison :=
  match a, b with
  | PyInt x, PyInt y => Some (x ?= y)
  | PyFloat x, PyFloat y => B64.compare x y
  | PyFloat x, PyInt y => compare_float_int x y
  | PyInt x, PyFloat y => option_map CompOpp (compare_float_int y x)
  end.

(** [a < b], [a <= b], [a >= b], [a == b]: all false when unordered. *)
Definition lt (a b : num) : bool :=
  match compare a b with Some Lt => true | _ => false end.
Definition le (a b : num) : bool :=
  match compare a b with Some (Lt | Eq) => true | _ => false end.
Definition ge (a b : num) : bool :=
  match compare a b with Some (Gt | Eq) => true | _ => false end.
Definition eq (a b : num) : bool :=
  match compare a b with Some Eq => true | _ => false end.

(** [min(a, b)]: the first argument unless the second is smaller. *)
Definition min (a b : num) : num := if lt b a then b else a.

End Py.

Export Py(exc(..), result(..), num(..)).

Declare Scope py_scope.
Delimit Scope py_scope with py.
Notation "x <- e ;; k" := (Py.bind e (fun x => k))
  (at level 61, e at next level, right associativity) : py_scope.
Local Open Scope py_scope.

(* ================================================================== *)
(** ** The literals of app.py *)
(* ================================================================== *)

Definition f0_5 : B64.float := Eval vm_compute in B64.literal 5 10.
Definition f0_7 : B64.float := Eval vm_compute in B64.literal 7 10.
Definition f0_6 : B64.float := Eval vm_compute in B64.literal 6 10.
Definition f0_8 : B64.float := Eval vm_compute in B64.literal 8 10.
Definition f1_0 : B64.float := Eval vm_compute in B64.literal 10 10.
Definition f0_75 : B64.float := Eval vm_compute in B64.literal 75 100.

Definition msg_warning : string := "⚠️ Warning: Pipe needs replacement!".
Definition msg_moderate : string := "🔶 Pipe condition moderate. Monitoring closely.".
Definition msg_optimal : string := "✅ Pipe health optimal.".

(* ================================================================== *)
(** ** Energy generation functions (app.py, lines 21-36) *)
(* ================================================================== *)

(** [def geothermal_energy(temp): return 0.5 * temp] *)
Definition geothermal_energy (temp : num) : result num :=
  Py.mul (PyFloat f0_5) temp.

(** [def wasted_energy_recovery(wasted): return 0.7 * wasted] *)
Definition wasted_energy_recovery (wasted : num) : result num :=
  Py.mul (PyFloat f0_7) wasted.

(** [def calculate_teg_recovery(usage, device_pct, system_pct):
       return usage * (device_pct + system_pct) / 100] *)
Definition calculate_teg_recovery (usage device_pct system_pct : num)
  : result num :=
  pct <- Py.add device_pct system_pct ;;
  prod <- Py.mul usage pct ;;
  Py.truediv prod (PyInt 100).

(** [def monitor_pipe(health)]: two comparisons against [int] literals,
    which cannot raise. *)
Definition monitor_pipe (health : num) : string * num :=
  if Py.lt health (PyInt 40) then (msg_warning, PyFloat f0_6)
  else if Py.lt health (PyInt 70) then (msg_moderate, PyFloat f0_8)
  else (msg_optimal, PyFloat f1_0).

(* ================================================================== *)
(** ** The script (app.py, lines 13-18 and 39-49)

    The script is a sequence of assignments to module-level variables.
    Streamlit runs it from the top on every interaction; the run below
    starts from whatever bindings [g0] a previous run may have left
    behind, so that carry-over between runs is something to be proved
    absent rather than assumed. *)
(* ================================================================== *)

Inductive value : Type :=
| VNum (n : num)
| VStr (s : string).

Definition globals : Type := list (string * value).

Fixpoint lookup (x : string) (g : globals) : option value :=
  match g with
  | [] => None
  | (y, v) :: g' => if String.eqb x y then Some v else lookup x g'
  end.

Definition bindvar (x : string) (v : value) (g : globals) : globals :=
  (x, v) :: g.

(** An expression reads the globals and yields a number or raises; a
    statement updates the globals or raises. *)
Definition expr : Type := globals -> result num.
Definition stmt : Type := globals -> result globals.

Definition const (n : num) : expr := fun _ => Ok n.

Definition var (x : string) : expr :=
  fun g =>
    match lookup x g with
    | Some (VNum n) => Ok n
    | Some (VStr _) => Raise TypeError
    | None => Raise NameError
    end.

Definition call1 (f : num -> result num) (a : expr) : expr :=
  fun g => x <- a g ;; f x.

Definition call3 (f : num -> num -> num -> result num) (a b c : expr) : expr :=
  fun g => x <- a g ;; y <- b g ;; z <- c g ;; f x y z.

Definition binop (op : num -> num -> result num) (a b : expr) : expr :=
  fun g => x <- a g ;; y <- b g ;; op x y.

(** [f(a, b)] for a builtin [f] of two numbers.  The name is resolved as
    the builtin: a fresh module namespace does not bind it, and the
    script never assigns to it. *)
Definition builtin2 (f : num -> num -> num) (a b : expr) : expr :=
  fun g => x <- a g ;; y <- b g ;; Ok (f x y).

(** [x = e] *)
Definition assign (x : string) (e : expr) : stmt :=
  fun g => n <- e g ;; Ok (bindvar x (VNum n) g).

(** [x, y = f(a)] for a function returning a (string, number) pair. *)
Definition assign_pair (x y : string) (f : num -> string * num) (a : expr)
  : stmt :=
  fun g =>
    n <- a g ;;
    let '(s, k) := f n in
    Ok (bindvar y (VNum k) (bindvar x (VStr s) g)).

Fixpoint run (body : list stmt) (g : globals) : result globals :=
  match body with
  | [] => Ok g
  | s :: rest => g' <- s g ;; run rest g'
  end.

Notation "x ::= e" := (assign x e) (at level 60, no associativity).

(** The six slider values of one interaction.  [st.sidebar.slider] called
    with [int] bounds returns an [int] between them. *)
Record Inputs : Type := {
  geothermal_temp : num;
  wasted_energy_input : num;
  teg_device_level : num;
  teg_system_level : num;
  pipe_health : num;
  storage_capacity : num
}.

Definition slider_inputs (temp wasted device system health storage : Z)
  : Inputs :=
  {| geothermal_temp := PyInt temp;
     wasted_energy_input := PyInt wasted;
     teg_device_level := PyInt device;
     teg_system_level := PyInt system;
     pipe_health := PyInt health;
     storage_capacity := PyInt storage |}.

(** The ranges the six sliders are created with. *)
Definition in_slider_range (temp wasted device system health storage : Z)
  : Prop :=
  300 <= temp <= 900 /\ 10 <= wasted <= 200 /\
  0 <= device <= 50 /\ 0 <= system <= 50 /\
  0 <= health <= 100 /\ 100 <= storage <= 1000.

Definition script (w : Inputs) : list stmt :=
  [ "geothermal_temp" ::= const (geothermal_temp w);
    "wasted_energy_input" ::= const (wasted_energy_input w);
    "teg_device_level" ::= const (teg_device_level w);
    "teg_system_level" ::= const (teg_system_level w);
    "pipe_health" ::= const (pipe_health w);
    "storage_capacity" ::= const (storage_capacity w);
    "geo_output" ::= call1 geothermal_energy (var "geothermal_temp");
    "waste_output" ::= call1 wasted_energy_recovery (var "wasted_energy_input");
    "teg_recovery" ::=
      call3 calculate_teg_recovery
        (binop Py.add (var "waste_output") (var "geo_output"))
        (var "teg_device_level") (var "teg_system_level");
    assign_pair "pipe_status_msg" "pipe_efficiency"
      monitor_pipe (var "pipe_health");
    "total_output" ::=
      binop Py.mul
        (binop Py.add
           (binop Py.add (var "geo_output") (var "waste_output"))
           (var "teg_recovery"))
        (var "pipe_efficiency");
    "charge" ::=
      builtin2 Py.min (var "total_output") (var "storage_capacity");
    "discharge" ::= binop Py.mul (var "charge") (const (PyFloat f0_75)) ].

(** What the presentation layer reads after the run. *)
Record Outputs : Type := {
  geo_output : num;
  waste_output : num;
  teg_recovery : num;
  pipe_status_msg : string;
  pipe_efficiency : num;
  total_output : num;
  charge : num;
  discharge : num
}.

Definition var_str (x : string) (g : globals) : result string :=
  match lookup x g with
  | Some (VStr s) => Ok s
  | Some (VNum _) => Raise TypeError
  | None => Raise NameError
  end.

Definition read_outputs (g : globals) : result Outputs :=
  geo <- var "geo_output" g ;;
  waste <- var "waste_output" g ;;
  teg <- var "teg_recovery" g ;;
  msg <- var_str "pipe_status_msg" g ;;
  eff <- var "pipe_efficiency" g ;;
  total <- var "total_output" g ;;
  chg <- var "charge" g ;;
  dis <- var "discharge" g ;;
  Ok {| geo_output := geo; waste_output := waste; teg_recovery := teg;
        pipe_status_msg := msg; pipe_efficiency := eff;
        total_output := total; charge := chg; discharge := dis |}.

(** One run of the script over the globals [g0]. *)
Definition rerun (g0 : globals) (w : Inputs) : result Outputs :=
  g <- run (script w) g0 ;; read_outputs g.

(** A run in a fresh module namespace. *)
Definition evaluate (w : Inputs) : result Outputs := rerun [] w.

(** A session: one run per interaction, each starting from the globals the
    previous run left (a run that raises leaves them as they were). *)
Fixpoint session (g : globals) (ws : list Inputs) : list (result Outputs) :=
  match ws with
  | [] => []
  | w :: rest =>
      match run (script w) g with
      | Ok g' => read_outputs g' :: session g' rest
      | Raise e => Raise e :: session g rest
      end
  end.

(* ================================================================== *)
(** ** Presentation: metrics (lines 56-63) and chart series (67-68) *)
(* ================================================================== *)

(** Nearest integer to [n / d] for [d > 0], ties to the even one. *)
Definition round_half_even (n d : Z) : Z :=
  let q := n / d in
  match 2 * (n mod d) ?= d with
  | Lt => q
  | Gt => q + 1
  | Eq => if Z.even q then q else q + 1
  end.

Definition decimal (n : Z) : string :=
  NilZero.string_of_uint (N.to_uint (Z.to_N n)).

Definition two_digits (n : Z) : string :=
  if n <? 10 then "0" ++ decimal n else decimal n.

(** ["{:.2f}"] of a float: the exact binary value, correctly rounded to
    two decimals. *)
Definition format_2f_float (x : B64.float) : string :=
  match x with
  | S754_nan => "nan"
  | S754_infinity s => if s then "-inf" else "inf"
  | S754_zero s => if s then "-0.00" else "0.00"
  | S754_finite s m e =>
      let q := if 0 <=? e then Zpos m * 2 ^ e * 100
               else round_half_even (Zpos m * 100) (2 ^ (- e)) in
      (if s then "-" else "") ++ decimal (q / 100) ++ "." ++ two_digits (q mod 100)
  end.

(** [f"{a:.2f}"]: an [int] is converted to [float] first. *)
Definition format_2f (a : num) : result string :=
  x <- Py.to_float a ;; Ok (format_2f_float x).

(** The seven [st.metric] values of the summary tab, in display order. *)
Definition metrics (o : Outputs) : result (list string) :=
  m1 <- format_2f (geo_output o) ;;
  m2 <- format_2f (waste_output o) ;;
  m3 <- format_2f (teg_recovery o) ;;
  m4 <- format_2f (pipe_efficiency o) ;;
  m5 <- format_2f (total_output o) ;;
  m6 <- format_2f (charge o) ;;
  m7 <- format_2f (discharge o) ;;
  Ok [m1; m2; m3; m4; m5; m6; m7].

(** [np.pi], the binary64 value [0x1.921fb54442d18p+1]. *)
Definition np_pi : B64.float := S754_finite false 7074237752028440 (-51).

(** [hours = np.arange(0, 24, 1)] *)
Definition hours : list Z := map Z.of_nat (seq 0 24).

(** The argument of the sine at hour [h]: [np.pi * h / 24]. *)
Definition phase (h : Z) : B64.float :=
  B64.div (B64.mul np_pi (B64.of_Z h)) (B64.of_Z 24).

Section Chart.

(** [np.sin] is the platform's double-precision sine.  The source does not
    fix its values, so the series is stated for any such function. *)
Variable np_sin : B64.float -> B64.float.

(** [generation = total_output * np.sin(np.pi * hours / 24)**2]; numpy
    evaluates [**2] as a product of the element with itself. *)
Definition generation_at (total : B64.float) (h : Z) : B64.float :=
  let s := np_sin (phase h) in B64.mul total (B64.mul s s).

Definition generation (total : num) : result (list B64.float) :=
  t <- Py.to_float total ;; Ok (map (generation_at t) hours).

End Chart.

(* ================================================================== *)
(** ** The data flow of the script *)
(* ================================================================== *)

(** The script with every variable replaced by the expression last
    assigned to it.  [rerun_pipeline] below shows that a run of the script
    computes exactly this, from any starting globals. *)
Definition pipeline (w : Inputs) : result Outputs :=
  geo <- geothermal_energy (geothermal_temp w) ;;
  waste <- wasted_energy_recovery (wasted_energy_input w) ;;
  usage <- Py.add waste geo ;;
  teg <- calculate_teg_recovery usage (teg_device_level w) (teg_system_level w) ;;
  s1 <- Py.add geo waste ;;
  s2 <- Py.add s1 teg ;;
  total <- Py.mul s2 (snd (monitor_pipe (pipe_health w))) ;;
  dis <- Py.mul (Py.min total (storage_capacity w)) (PyFloat f0_75) ;;
  Ok {| geo_output := geo; waste_output := waste; teg_recovery := teg;
        pipe_status_msg := fst (monitor_pipe (pipe_health w));
        pipe_efficiency := snd (monitor_pipe (pipe_health w));
        total_output := total;
        charge := Py.min total (storage_capacity w);
        discharge := dis |}.

(* ================================================================== *)
(** ** Auxiliary definitions for the statements *)
(* ================================================================== *)

(** A number a caller can pass: any [int], or a well-formed [float]. *)
Definition wf (a : num) : Prop :=
  match a with
  | PyInt _ => True
  | PyFloat x => B64.valid x = true
  end.

(** [lo <= a <= hi], for a number a caller can pass. *)
Definition in_range (lo hi : Z) (a : num) : Prop :=
  wf a /\ Py.le (PyInt lo) a = true /\ Py.le a (PyInt hi) = true.

(** The ranges of the specification's data model, for inputs of either
    numeric type. *)
Definition inputs_in_range (w : Inputs) : Prop :=
  in_range 300 900 (geothermal_temp w) /\
  in_range 10 200 (wasted_energy_input w) /\
  in_range 0 50 (teg_device_level w) /\
  in_range 0 50 (teg_system_level w) /\
  in_range 0 100 (pipe_health w) /\
  in_range 100 1000 (storage_capacity w).

(** The exact value of a finite float, in units of 2^-1074 (the spacing
    of the subnormals, which every finite binary64 is a multiple of), and
    that of a number. *)
Definition scaled (x : B64.float) : Z :=
  match x with
  | S754_finite s m e => (if s then Zneg m else Zpos m) * 2 ^ (e + 1074)
  | _ => 0
  end.

Definition scaled_num (a : num) : Z :=
  match a with PyInt n => n * 2 ^ 1074 | PyFloat x => scaled x end.

(** [q] is the integer nearest to [n / p], the even one at a tie. *)
Definition near (q n p : Z) : Prop :=
  2 * q * p - p <= 2 * n <= 2 * q * p + p /\
  (2 * n = 2 * q * p - p \/ 2 * n = 2 * q * p + p -> Z.even q = true).

(** [r] is the rounding of [num / den] (in units of 2^-1074) to binary64,
    away from overflow: a multiple [m * 2^g] of the spacing at the
    magnitude of [num / den], with [m] nearest. *)
Definition fmt_round (num den r : Z) : Prop :=
  exists g m, 0 <= g /\ r = m * 2 ^ g /\ near m num (den * 2 ^ g) /\
              (g = 0 -> num < den * 2 ^ 53) /\
              (0 < g -> den * 2 ^ (g + 52) <= num < den * 2 ^ (g + 53)).

(** The exact values of the finite binary64 numbers that are not negative. *)
Definition representable (b : Z) : Prop :=
  exists g m, 0 <= g /\ b = m * 2 ^ g /\ 0 <= m < 2 ^ 53.

(** [located p n r]: the shift record [r] holds the quotient of [n] by
    [p], with the round bit and the sticky bit of the remainder. *)
Definition located (p n : Z) (r : shr_record) : Prop :=
  0 <= shr_m r /\
  0 <= n - shr_m r * p < p /\
  (shr_r r = true <-> p <= 2 * (n - shr_m r * p)) /\
  (shr_s r = true <-> 2 * (n - shr_m r * p) <> 0 /\ 2 * (n - shr_m r * p) <> p).

(** A number with an exact finite value: any [int], or a well-formed
    float that is a zero or finite. *)
Definition finite_num (a : num) : Prop :=
  match a with
  | PyInt _ => True
  | PyFloat x => B64.valid x = true /\ B64.is_finite x = true
  end.

(** [ordered K x y]: two finite floats that are not negative, of
    magnitude below [2^K], with [x <= y]. *)
Definition ordered (K : Z) (x y : B64.float) : Prop :=
  B64.nonneg0 K x /\ B64.nonneg0 K y /\ scaled x <= scaled y.

(** [le_num a b]: two numbers with exact finite values, [a <= b]. *)
Definition le_num (a b : num) : Prop :=
  finite_num a /\ finite_num b /\ scaled_num a <= scaled_num b.

(** Every input of [w1] is at most the corresponding input of [w2]. *)
Definition le_inputs (w1 w2 : Inputs) : Prop :=
  Py.le (geothermal_temp w1) (geothermal_temp w2) = true /\
  Py.le (wasted_energy_input w1) (wasted_energy_input w2) = true /\
  Py.le (teg_device_level w1) (teg_device_level w2) = true /\
  Py.le (teg_system_level w1) (teg_system_level w2) = true /\
  Py.le (pipe_health w1) (pipe_health w2) = true /\
  Py.le (storage_capacity w1) (storage_capacity w2) = true.

(** A float, or an [int] below [2^1000] in magnitude. *)
Definition small_int (a : num) : Prop :=
  match a with
  | PyInt n => Z.abs n < 2 ^ 1000
  | PyFloat _ => True
  end.




(** The real number a finite float stands for. *)
Definition B2R (x : B64.float) : R := (IZR (scaled x) / IZR (2 ^ 1074))%R.

(** The two ways a run can end: with the eight outputs, or raising
    OverflowError. *)
Definition returns_or_overflows (r : result Outputs) : Prop :=
  (exists o, r = Ok o) \/ r = Raise OverflowError.

(** The sine of one platform at the 24 arguments the chart uses: pairs of
    [np.pi * h / 24] and its double-precision sine, for [h = 0..23]. *)
Definition sin_table : list (B64.float * B64.float) :=
  [
    (S754_zero false,
     S754_zero false);
    (S754_finite false 4716158501352293 (-55),
     S754_finite false 4702701685154512 (-55));
    (S754_finite false 4716158501352293 (-54),
     S754_finite false 4662469420320400 (-54));
    (S754_finite false 7074237752028440 (-54),
     S754_finite false 6893811853601123 (-54));
    (S754_finite false 4716158501352293 (-53),
     S754_finite false 9007199254740991 (-54));
    (S754_finite false 5895198126690367 (-53),
     S754_finite false 5483235489682410 (-53));
    (S754_finite false 7074237752028440 (-53),
     S754_finite false 6369051672525772 (-53));
    (S754_finite false 8253277377366513 (-53),
     S754_finite false 7145891615417490 (-53));
    (S754_finite false 4716158501352293 (-52),
     S754_finite false 7800463371553962 (-53));
    (S754_finite false 5305678314021330 (-52),
     S754_finite false 8321567036706118 (-53));
    (S754_finite false 5895198126690367 (-52),
     S754_finite false 8700286382685973 (-53));
    (S754_finite false 6484717939359403 (-52),
     S754_finite false 8930141416482971 (-53));
    (S754_finite false 7074237752028440 (-52),
     S754_finite false 4503599627370496 (-52));
    (S754_finite false 7663757564697477 (-52),
     S754_finite false 8930141416482971 (-53));
    (S754_finite false 8253277377366513 (-52),
     S754_finite false 8700286382685973 (-53));
    (S754_finite false 8842797190035549 (-52),
     S754_finite false 8321567036706119 (-53));
    (S754_finite false 4716158501352293 (-51),
     S754_finite false 7800463371553963 (-53));
    (S754_finite false 5010918407686812 (-51),
     S754_finite false 7145891615417490 (-53));
    (S754_finite false 5305678314021330 (-51),
     S754_finite false 6369051672525773 (-53));
    (S754_finite false 5600438220355848 (-51),
     S754_finite false 5483235489682412 (-53));
    (S754_finite false 5895198126690367 (-51),
     S754_finite false 9007199254740991 (-54));
    (S754_finite false 6189958033024885 (-51),
     S754_finite false 6893811853601125 (-54));
    (S754_finite false 6484717939359403 (-51),
     S754_finite false 4662469420320405 (-54));
    (S754_finite false 6779477845693921 (-51),
     S754_finite false 4702701685154527 (-55))
  ].

Definition table_sin (x : B64.float) : B64.float :=
  match find (fun p => B64.eqb (fst p) x) sin_table with
  | Some p => snd p
  | None => S754_nan
  end.

(** The inputs of the specification's end-to-end example. *)
Definition example_inputs : Inputs := slider_inputs 600 80 15 20 100 500.

(** The run of the specification's example, as [example_run] below computes it. *)
Definition example_outputs : Outputs :=
  {| geo_output := PyFloat (S754_finite false 5277655813324800 (-44));
     waste_output := PyFloat (S754_finite false 7881299347898368 (-47));
     teg_recovery := PyFloat (S754_finite false 8767945524536934 (-46));
     pipe_status_msg := msg_optimal;
     pipe_efficiency := PyFloat f1_0;
     total_output := PyFloat (S754_finite false 8454804612946330 (-44));
     charge := PyFloat (S754_finite false 8454804612946330 (-44));
     discharge := PyFloat (S754_finite false 6341103459709748 (-44)) |}.

(* ================================================================== *)
(** ** The formulas over the real numbers

    The specification words the model over the reals.  These are the same
    four formulas read that way; they are compared with the code where
    a claim is about algebra rather than about the numbers computed. *)
(* ================================================================== *)

Module Ideal.

Local Open Scope R_scope.

Definition geothermal_energy (temp : R) : R := 0.5 * temp.

Definition wasted_energy_recovery (wasted : R) : R := 0.7 * wasted.

Definition calculate_teg_recovery (usage device_pct system_pct : R) : R :=
  usage * (device_pct + system_pct) / 100.

End Ideal.

(* ================================================================== *)
(** ** Facts about binary64 rounding

    What the proofs below need from the reference specification: the
    number of digits of a mantissa, the two shifts of the rounding step,
    and for each operation that its result is well formed, carries the
    expected sign and stays within a magnitude window. *)
(* ================================================================== *)

Module B64Facts.

Import B64.

Lemma fexp_eq (x : Z) : fexp prec emax x = Z.max (x - 53) (-1074).
Proof. reflexivity. Qed.

(** *** Number of binary digits *)

Lemma digits2_pos_size (p : positive) : digits2_pos p = Pos.size p.
Proof. induction p; simpl; congruence. Qed.

Lemma Zdigits2_log2 (n : Z) : 0 < n -> Zdigits2 n = Z.log2 n + 1.
Proof.
  destruct n as [|p|p]; try lia. intros _. simpl.
  rewrite digits2_pos_size.
  destruct p; simpl; lia.
Qed.

Lemma Zdigits2_nonneg (n : Z) : 0 <= n -> 0 <= Zdigits2 n.
Proof. destruct n; simpl; lia. Qed.

Lemma Zdigits2_pos (n : Z) : 0 < n -> 0 < Zdigits2 n.
Proof. destruct n; simpl; lia. Qed.

Lemma Zdigits2_lt_pow2 (n k : Z) : 0 <= n -> 0 <= k -> (n < 2 ^ k <-> Zdigits2 n <= k).
Proof.
  intros Hn Hk. destruct (Z.eq_dec n 0) as [->|Hne].
  - simpl. split; intros; [lia|]. apply Z.pow_pos_nonneg; lia.
  - rewrite Zdigits2_log2 by lia.
    rewrite (Z.log2_lt_pow2 n k) by lia. lia.
Qed.

Lemma Zdigits2_ge_pow2 (n k : Z) : 0 < n -> 0 <= k -> (2 ^ k <= n <-> k < Zdigits2 n).
Proof.
  intros Hn Hk. rewrite Zdigits2_log2 by lia.
  rewrite (Z.log2_le_pow2 n k) by lia. lia.
Qed.

Lemma Zdigits2_shiftr (m n : Z) :
  0 <= m -> 0 <= n -> Zdigits2 (Z.shiftr m n) = Z.max 0 (Zdigits2 m - n).
Proof.
  intros Hm Hn. destruct (Z.eq_dec m 0) as [->|Hne].
  - rewrite Z.shiftr_0_l. simpl. lia.
  - destruct (Z.eq_dec (Z.shiftr m n) 0) as [E|E].
    + rewrite E. simpl. apply Z.shiftr_eq_0_iff in E.
      rewrite (Zdigits2_log2 m) by lia. lia.
    + assert (0 <= Z.shiftr m n) by (apply Z.shiftr_nonneg; lia).
      rewrite !Zdigits2_log2 by lia.
      rewrite Z.log2_shiftr by lia.
      assert (~ Z.log2 m < n).
      { intro. apply E. apply Z.shiftr_eq_0_iff. right. lia. }
      lia.
Qed.

Lemma Zdigits2_mul_pow2 (m k : Z) :
  0 < m -> 0 <= k -> Zdigits2 (m * 2 ^ k) = Zdigits2 m + k.
Proof.
  intros Hm Hk.
  assert (0 < 2 ^ k) by (apply Z.pow_pos_nonneg; lia).
  rewrite !Zdigits2_log2 by nia.
  rewrite Z.log2_mul_pow2 by lia. lia.
Qed.

Lemma Zdigits2_succ (m : Z) :
  0 <= m ->
  Zdigits2 (m + 1) = Zdigits2 m \/
  (Zdigits2 (m + 1) = Zdigits2 m + 1 /\ m + 1 = 2 ^ Zdigits2 m).
Proof.
  intros Hm. destruct (Z.eq_dec m 0) as [->|Hne].
  - right. simpl. split; reflexivity.
  - rewrite !Zdigits2_log2 by lia.
    destruct (Z.log2_succ_or m) as [E|E].
    + right. split; [unfold Z.succ in E; lia|].
      destruct (Z.log2_eq_succ_is_pow2 m E) as [b Hb].
      pose proof (Z.log2_nonneg m).
      assert (0 <= b).
      { destruct (Z_lt_le_dec b 0); [|assumption].
        rewrite Z.pow_neg_r in Hb by assumption. lia. }
      assert (Z.log2 (Z.succ m) = b) by (rewrite Hb; apply Z.log2_pow2; assumption).
      unfold Z.succ in *. replace (Z.log2 m + 1) with b by lia. lia.
    + left. unfold Z.succ in E. lia.
Qed.

Lemma Zdigits2_mul_le (a b : Z) :
  0 < a -> 0 < b -> Zdigits2 a + Zdigits2 b - 1 <= Zdigits2 (a * b) <= Zdigits2 a + Zdigits2 b.
Proof.
  intros Ha Hb. rewrite !Zdigits2_log2 by nia.
  pose proof (Z.log2_mul_below a b Ha Hb).
  pose proof (Z.log2_mul_above a b (Z.lt_le_incl _ _ Ha) (Z.lt_le_incl _ _ Hb)).
  lia.
Qed.

Lemma Zdigits2_add_le (a b k : Z) :
  0 <= a -> 0 <= b -> Zdigits2 a <= k -> Zdigits2 b <= k -> Zdigits2 (a + b) <= k + 1.
Proof.
  intros Ha Hb Hka Hkb.
  assert (0 <= k) by (pose proof (Zdigits2_nonneg a Ha); lia).
  apply Zdigits2_lt_pow2 in Hka; try lia.
  apply Zdigits2_lt_pow2 in Hkb; try lia.
  apply Zdigits2_lt_pow2; try lia.
  rewrite Z.pow_add_r by lia. lia.
Qed.

Lemma Zdigits2_div (a b : Z) :
  0 < a -> 0 < b ->
  Zdigits2 a - Zdigits2 b <= Zdigits2 (a / b) <= Z.max 0 (Zdigits2 a - Zdigits2 b + 1).
Proof.
  intros Ha Hb.
  pose proof (Zdigits2_pos a Ha) as Hda. pose proof (Zdigits2_pos b Hb) as Hdb.
  assert (Hq : 0 <= a / b) by (apply Z.div_pos; lia).
  pose proof (Zdigits2_nonneg _ Hq) as Hdq.
  assert (La : 2 ^ (Zdigits2 a - 1) <= a) by (apply Zdigits2_ge_pow2; lia).
  assert (Ua : a < 2 ^ Zdigits2 a) by (apply Zdigits2_lt_pow2; lia).
  assert (Lb : 2 ^ (Zdigits2 b - 1) <= b) by (apply Zdigits2_ge_pow2; lia).
  assert (Ub : b < 2 ^ Zdigits2 b) by (apply Zdigits2_lt_pow2; lia).
  split.
  - destruct (Z_lt_le_dec (Zdigits2 a - Zdigits2 b) 1) as [|Hge]; [lia|].
    (* 2^(da-db-1) <= a/b *)
    assert (2 ^ (Zdigits2 a - Zdigits2 b - 1) <= a / b).
    { apply Z.div_le_lower_bound; [lia|].
      assert (b * 2 ^ (Zdigits2 a - Zdigits2 b - 1) <= 2 ^ Zdigits2 b * 2 ^ (Zdigits2 a - Zdigits2 b - 1)).
      { apply Z.mul_le_mono_nonneg_r; [apply Z.pow_nonneg|]; lia. }
      rewrite <- Z.pow_add_r in H by lia.
      replace (Zdigits2 b + (Zdigits2 a - Zdigits2 b - 1)) with (Zdigits2 a - 1) in H by lia.
      lia. }
    assert (0 < a / b).
    { assert (0 < 2 ^ (Zdigits2 a - Zdigits2 b - 1)) by (apply Z.pow_pos_nonneg; lia). lia. }
    apply Zdigits2_ge_pow2 in H; lia.
  - destruct (Z_lt_le_dec (Zdigits2 a - Zdigits2 b + 1) 0) as [Hneg|Hge].
    + (* a < b so quotient 0 *)
      assert (a < b).
      { assert (2 ^ Zdigits2 a <= 2 ^ (Zdigits2 b - 1)) by (apply Z.pow_le_mono_r; lia). lia. }
      rewrite Z.div_small by lia. simpl. lia.
    + rewrite Z.max_r by lia.
      apply Zdigits2_lt_pow2; try lia.
      apply Z.div_lt_upper_bound; [lia|].
      assert (2 ^ (Zdigits2 b - 1) * 2 ^ (Zdigits2 a - Zdigits2 b + 1) <= b * 2 ^ (Zdigits2 a - Zdigits2 b + 1)).
      { apply Z.mul_le_mono_nonneg_r; [apply Z.pow_nonneg|]; lia. }
      rewrite <- Z.pow_add_r in H by lia.
      replace (Zdigits2 b - 1 + (Zdigits2 a - Zdigits2 b + 1)) with (Zdigits2 a) in H by lia.
      lia.
Qed.


(** *** Right shifts with sticky bits *)

Lemma shr_1_m (r : shr_record) :
  0 <= shr_m r -> shr_m (shr_1 r) = Z.shiftr (shr_m r) 1.
Proof.
  destruct r as [m rb sb]. simpl. intros Hm.
  destruct m as [|[p|p|]|p]; try lia; reflexivity.
Qed.

Lemma iter_pos_shr_1_m (n : positive) (r : shr_record) :
  0 <= shr_m r ->
  shr_m (SpecFloat.iter_pos shr_1 n r) = Z.shiftr (shr_m r) (Zpos n).
Proof.
  revert r. induction n as [n IH|n IH|]; intros r Hr; simpl SpecFloat.iter_pos.
  - assert (H1 : 0 <= shr_m (shr_1 r)).
    { rewrite shr_1_m by assumption. apply Z.shiftr_nonneg; assumption. }
    assert (H2 : 0 <= shr_m (SpecFloat.iter_pos shr_1 n (shr_1 r))).
    { rewrite IH by assumption. apply Z.shiftr_nonneg; assumption. }
    rewrite IH by assumption. rewrite IH by assumption.
    rewrite shr_1_m by assumption.
    rewrite !Z.shiftr_shiftr by lia. f_equal. lia.
  - assert (H2 : 0 <= shr_m (SpecFloat.iter_pos shr_1 n r)).
    { rewrite IH by assumption. apply Z.shiftr_nonneg; assumption. }
    rewrite IH by assumption. rewrite IH by assumption.
    rewrite !Z.shiftr_shiftr by lia. f_equal. lia.
  - apply shr_1_m; assumption.
Qed.

Lemma shr_record_of_loc_m (m : Z) (l : location) :
  shr_m (shr_record_of_loc m l) = m.
Proof. destruct l as [|[| |]]; reflexivity. Qed.

(** A shift by [n >= 0] places divides the mantissa by [2^n] and adds
    [n] to the exponent. *)
Lemma shr_spec (r : shr_record) (e n : Z) :
  0 <= shr_m r -> 0 <= n ->
  shr_m (fst (shr r e n)) = Z.shiftr (shr_m r) n /\ snd (shr r e n) = e + n.
Proof.
  intros Hr Hn. destruct n as [|p|p]; simpl; try lia.
  - split; [reflexivity|lia].
  - split; [apply iter_pos_shr_1_m; assumption|reflexivity].
Qed.

Lemma shr_nop (r : shr_record) (e n : Z) : n <= 0 -> shr r e n = (r, e).
Proof. destruct n; simpl; intros; try reflexivity. lia. Qed.

Lemma round_nearest_even_cases (m : Z) (l : location) :
  round_nearest_even m l = m \/ round_nearest_even m l = m + 1.
Proof.
  destruct l as [|[| |]]; simpl; auto.
  destruct (Z.even m); auto.
Qed.

(** *** Finite, well-formed results of bounded magnitude *)

Lemma fin_weaken (K K' : Z) (x : spec_float) : fin K x -> K <= K' -> fin K' x.
Proof. destruct x; simpl; intuition lia. Qed.

Lemma bounded_iff (m : positive) (e : Z) :
  SpecFloat.bounded prec emax m e = true <->
  Z.max (Zdigits2 (Zpos m) + e - 53) (-1074) = e /\ e <= 971.
Proof.
  unfold SpecFloat.bounded, canonical_mantissa. rewrite andb_true_iff, Z.eqb_eq, Z.leb_le.
  rewrite fexp_eq. simpl Zdigits2. unfold emax, prec. lia.
Qed.

(** The rounding step of every operation: a non-negative mantissa that
    is not shorter than its exponent allows is rounded to a zero or to a
    well-formed finite float with the requested sign. *)
Lemma binary_round_aux_fin (s : bool) (m e : Z) (l : location) (K : Z) :
  0 <= m ->
  e <= fexp prec emax (Zdigits2 m + e) ->
  Zdigits2 m + e <= K -> -1074 <= K <= 1023 ->
  fin (K + 1) (binary_round_aux prec emax s m e l) /\
  sign (binary_round_aux prec emax s m e l) = s /\
  (-1074 < Zdigits2 m + e ->
   above (Zdigits2 m + e) (binary_round_aux prec emax s m e l)).
Proof.
  intros Hm Hpre HK HKr. rewrite fexp_eq in Hpre.
  unfold binary_round_aux, shr_fexp. rewrite !fexp_eq.
  remember (Z.max (Zdigits2 m + e - 53) (-1074) - e) as n eqn:En.
  assert (Hn : 0 <= n) by lia.
  pose proof (shr_spec (shr_record_of_loc m l) e n) as S1.
  rewrite shr_record_of_loc_m in S1. specialize (S1 Hm Hn).
  destruct (shr (shr_record_of_loc m l) e n) as [r1 e1]. simpl in S1.
  destruct S1 as [Hm1 He1]. cbv beta iota. rewrite ?fexp_eq.
  remember (round_nearest_even (shr_m r1) (loc_of_shr_record r1)) as m1 eqn:Em1.
  assert (Hs : 0 <= shr_m r1) by (rewrite Hm1; apply Z.shiftr_nonneg; assumption).
  assert (Hd1 : Zdigits2 (shr_m r1) = Z.max 0 (Zdigits2 m - n))
    by (rewrite Hm1; apply Zdigits2_shiftr; assumption).
  assert (Hm1' : m1 = shr_m r1 \/ m1 = shr_m r1 + 1) by (rewrite Em1; apply round_nearest_even_cases).
  clear Em1.
  assert (Hm1nn : 0 <= m1) by lia.
  pose proof (Zdigits2_nonneg m Hm) as Hdm.
  assert (Hdm1 : Zdigits2 m1 = Zdigits2 (shr_m r1) \/
                 (Zdigits2 m1 = Zdigits2 (shr_m r1) + 1 /\ m1 = 2 ^ Zdigits2 (shr_m r1))).
  { destruct Hm1' as [->| ->]; [left; reflexivity|]. apply Zdigits2_succ; assumption. }
  remember (Z.max (Zdigits2 m1 + e1 - 53) (-1074) - e1) as n2 eqn:En2.
  assert (Hn2 : n2 = 0 \/ n2 < 0 \/ (n2 = 1 /\ Zdigits2 m1 = 54 /\ m1 = 2 ^ 53)).
  { destruct Hdm1 as [E|[E E2]].
    - lia.
    - destruct (Z.eq_dec (Zdigits2 (shr_m r1)) 53) as [E53|NE].
      + right; right. rewrite E53 in *. repeat split; lia.
      + lia. }
  destruct Hn2 as [Z2|[Z2|[Z2 [D54 M53]]]].
  - rewrite (shr_nop _ _ n2) by lia. rewrite shr_record_of_loc_m.
    destruct m1 as [|p|p]; [| |lia].
    { simpl. repeat split. intros Hlow. simpl in Hdm1. lia. }
    assert (Hle : (e1 <=? emax - prec) = true) by (apply Z.leb_le; unfold emax, prec; lia).
    rewrite Hle. unfold fin, sign, above.
    repeat split; [apply bounded_iff; lia|lia|lia].
  - rewrite (shr_nop _ _ n2) by lia. rewrite shr_record_of_loc_m.
    destruct m1 as [|p|p]; [| exfalso |lia].
    { simpl. repeat split. intros Hlow. simpl in Hdm1. lia. }
    assert (0 < Zdigits2 (Z.pos p)) by (apply Zdigits2_pos; lia).
    lia.
  - pose proof (shr_spec (shr_record_of_loc m1 loc_Exact) e1 n2) as S2.
    rewrite shr_record_of_loc_m in S2. specialize (S2 Hm1nn ltac:(lia)).
    destruct (shr (shr_record_of_loc m1 loc_Exact) e1 n2) as [r2 e2]. simpl in S2.
    destruct S2 as [Hm2 He2]. rewrite Hm2, M53, Z2.
    change (Z.shiftr (2 ^ 53) 1) with (Z.pos 4503599627370496).
    assert (Hle : (e2 <=? emax - prec) = true) by (apply Z.leb_le; unfold emax, prec; lia).
    rewrite Hle. unfold fin, sign, above.
    change (Zdigits2 (Z.pos 4503599627370496)) with 53.
    repeat split; [apply bounded_iff|..];
      change (Zdigits2 (Z.pos 4503599627370496)) with 53; lia.
Qed.


(** *** Left alignment and the rounding of integers *)

Lemma pos_iter_xO (m d : positive) :
  Zpos (Pos.iter xO m d) = Zpos m * 2 ^ Zpos d.
Proof.
  induction d as [|d IH] using Pos.peano_ind.
  - simpl Pos.iter. change (2 ^ 1) with 2. lia.
  - rewrite Pos.iter_succ, Pos2Z.inj_succ, Z.pow_succ_r by lia.
    rewrite Pos2Z.inj_xO, IH. lia.
Qed.

Lemma shl_align_spec (m : positive) (e e' : Z) :
  Zpos (fst (shl_align m e e')) = Zpos m * 2 ^ (e - snd (shl_align m e e')) /\
  snd (shl_align m e e') = Z.min e e'.
Proof.
  unfold shl_align. destruct (e' - e) as [|d|d] eqn:E; simpl.
  - rewrite Z.sub_diag. simpl. lia.
  - rewrite Z.sub_diag. simpl. lia.
  - rewrite pos_iter_xO. replace (e - e') with (Zpos d) by lia.
    split; [reflexivity|lia].
Qed.

Lemma binary_round_fin (s : bool) (m : positive) (e K : Z) :
  Zdigits2 (Zpos m) + e <= K -> -1074 <= K <= 1023 ->
  fin (K + 1) (binary_round prec emax s m e) /\
  sign (binary_round prec emax s m e) = s /\
  (-1074 < Zdigits2 (Zpos m) + e ->
   above (Zdigits2 (Zpos m) + e) (binary_round prec emax s m e)).
Proof.
  intros HK HKr. unfold binary_round.
  pose proof (shl_align_spec m e (fexp prec emax (Zpos (digits2_pos m) + e))) as [Hm He].
  destruct (shl_align m e _) as [mz ez]. cbn [fst snd] in Hm, He.
  change (Zpos (digits2_pos m)) with (Zdigits2 (Zpos m)) in He.
  rewrite fexp_eq in He.
  assert (Hd : Zdigits2 (Zpos mz) = Zdigits2 (Zpos m) + (e - ez)).
  { rewrite Hm. apply Zdigits2_mul_pow2; lia. }
  replace (Zdigits2 (Zpos m) + e) with (Zdigits2 (Zpos mz) + ez) by lia.
  apply binary_round_aux_fin; try lia.
  rewrite fexp_eq. lia.
Qed.

Lemma binary_normalize_fin (n e K : Z) :
  Zdigits2 n + e <= K -> -1074 <= K <= 1023 ->
  fin (K + 1) (binary_normalize prec emax n e false) /\
  sign (binary_normalize prec emax n e false) = (n <? 0) /\
  (n <> 0 -> -1074 < Zdigits2 n + e ->
   above (Zdigits2 n + e) (binary_normalize prec emax n e false)).
Proof.
  intros HK HKr. destruct n as [|p|p]; simpl binary_normalize.
  - simpl. repeat split. intros H; contradiction H; reflexivity.
  - destruct (binary_round_fin false p e K HK HKr) as (F & S & A). auto.
  - destruct (binary_round_fin true p e K HK HKr) as (F & S & A). auto.
Qed.

(** *** The arithmetic operations *)

Lemma mul_fin (x y : spec_float) (Kx Ky K : Z) :
  fin Kx x -> fin Ky y -> Kx + Ky <= K -> -1074 <= K <= 1023 ->
  fin (K + 1) (SFmul prec emax x y) /\
  sign (SFmul prec emax x y) = xorb (sign x) (sign y) /\
  (forall Lx Ly, above Lx x -> above Ly y -> -1074 < Lx + Ly - 1 ->
                 above (Lx + Ly - 1) (SFmul prec emax x y)).
Proof.
  intros Hx Hy HK HKr.
  destruct x as [sx|sx| |sx mx ex], y as [sy|sy| |sy my ey];
    unfold fin in Hx, Hy; try contradiction;
    try (simpl; repeat split; intros; contradiction).
  destruct Hx as [Bx Dx], Hy as [By Dy].
  apply bounded_iff in Bx, By.
  unfold SFmul. unfold sign at 2 3.
  pose proof (Zdigits2_mul_le (Zpos mx) (Zpos my) ltac:(lia) ltac:(lia)) as Hd.
  change (Zpos mx * Zpos my) with (Zpos (mx * my)) in Hd.
  pose proof (Zdigits2_pos (Zpos mx) ltac:(lia)).
  pose proof (Zdigits2_pos (Zpos my) ltac:(lia)).
  destruct (binary_round_aux_fin (xorb sx sy) (Zpos (mx * my)) (ex + ey) loc_Exact K)
    as (F & S & A); try lia.
  { rewrite fexp_eq. lia. }
  repeat split; try assumption.
  intros Lx Ly Ax Ay HL. unfold above in Ax, Ay.
  specialize (A ltac:(lia)). revert A. unfold SFmul.
  destruct (binary_round_aux _ _ _ _ _ _); unfold above; try contradiction. lia.
Qed.

Lemma add_fin (x y : spec_float) (K : Z) :
  fin K x -> fin K y -> -1074 <= K + 1 <= 1023 ->
  fin (K + 2) (SFadd prec emax x y) /\
  (sign x = sign y -> sign (SFadd prec emax x y) = sign x).
Proof.
  intros Hx Hy HKr.
  destruct x as [sx|sx| |sx mx ex], y as [sy|sy| |sy my ey];
    unfold fin in Hx, Hy; try contradiction.
  - destruct sx, sy; simpl; split; auto; discriminate.
  - unfold SFadd, fin. split; [intuition lia|intros E; symmetry; exact E].
  - unfold SFadd, fin. split; [intuition lia|reflexivity].
  - destruct Hx as [Bx Dx], Hy as [By Dy].
    unfold SFadd.
    pose proof (shl_align_spec mx ex (Z.min ex ey)) as [Hmx Hex].
    pose proof (shl_align_spec my ey (Z.min ex ey)) as [Hmy Hey].
    destruct (shl_align mx ex _) as [mx' ex'], (shl_align my ey _) as [my' ey'].
    cbn [fst snd] in Hmx, Hex, Hmy, Hey. cbn [fst snd].
    assert (Hdx : Zdigits2 (Zpos mx') = Zdigits2 (Zpos mx) + (ex - ex'))
      by (rewrite Hmx; apply Zdigits2_mul_pow2; lia).
    assert (Hdy : Zdigits2 (Zpos my') = Zdigits2 (Zpos my) + (ey - ey'))
      by (rewrite Hmy; apply Zdigits2_mul_pow2; lia).
    pose proof (Zdigits2_pos (Zpos mx) ltac:(lia)) as Px.
    pose proof (Zdigits2_pos (Zpos my) ltac:(lia)) as Py.
    set (z := cond_Zopp sx (Zpos mx') + cond_Zopp sy (Zpos my')).
    assert (Hz : Zdigits2 z <= K - Z.min ex ey + 1).
    { assert (Ux : Zpos mx' < 2 ^ (K - Z.min ex ey))
        by (apply Zdigits2_lt_pow2; lia).
      assert (Uy : Zpos my' < 2 ^ (K - Z.min ex ey))
        by (apply Zdigits2_lt_pow2; lia).
      assert (Hp : 2 ^ (K - Z.min ex ey + 1) = 2 * 2 ^ (K - Z.min ex ey))
        by (rewrite Z.pow_add_r by lia; lia).
      assert (Habs : Z.abs z < 2 ^ (K - Z.min ex ey + 1)).
      { unfold z. destruct sx, sy; simpl cond_Zopp; lia. }
      assert (Zdigits2 z = Zdigits2 (Z.abs z)) by (destruct z; reflexivity).
      rewrite H. apply Zdigits2_lt_pow2; lia. }
    destruct (binary_normalize_fin z (Z.min ex ey) (K + 1) ltac:(lia) ltac:(lia)) as (F & S & _).
    split; [replace (K + 2) with (K + 1 + 1) by lia; exact F|].
    simpl sign at 1 2. intros <-. rewrite S.
    unfold z. destruct sx; simpl cond_Zopp; [apply Z.ltb_lt|apply Z.ltb_ge]; lia.
Qed.

Lemma div_fin (x y : spec_float) (Kx Ly K : Z) :
  fin Kx x ->
  match y with
  | S754_finite _ my ey => Ly <= Zdigits2 (Zpos my) + ey
  | _ => False
  end ->
  Kx - Ly + 1 <= K -> -1074 <= K <= 1023 ->
  fin (K + 1) (SFdiv prec emax x y) /\
  sign (SFdiv prec emax x y) = xorb (sign x) (sign y).
Proof.
  intros Hx Hy HK HKr.
  destruct y as [sy|sy| |sy my ey]; try contradiction.
  destruct x as [sx|sx| |sx mx ex]; unfold fin in Hx; try contradiction.
  - simpl. auto.
  - destruct Hx as [Bx Dx].
    unfold SFdiv, SFdiv_core_binary. rewrite fexp_eq.
    set (d1 := Zdigits2 (Zpos mx)) in *. set (d2 := Zdigits2 (Zpos my)) in *.
    remember (Z.min (Z.max (d1 + ex - (d2 + ey) - 53) (-1074)) (ex - ey)) as e' eqn:Ee'.
    remember (ex - ey - e') as sh eqn:Esh.
    assert (Hsh : 0 <= sh) by lia.
    set (m' := match sh with Zpos _ => Z.shiftl (Zpos mx) sh | Z0 => Zpos mx | Zneg _ => 0 end).
    assert (Hm' : m' = Zpos mx * 2 ^ sh).
    { unfold m'. destruct sh as [|p|p]; try lia.
      rewrite Z.shiftl_mul_pow2 by lia. reflexivity. }
    assert (Hm'pos : 0 < m').
    { rewrite Hm'. assert (0 < 2 ^ sh) by (apply Z.pow_pos_nonneg; lia). nia. }
    assert (Hdm' : Zdigits2 m' = d1 + sh)
      by (rewrite Hm'; apply Zdigits2_mul_pow2; lia).
    pose proof (Zdigits2_div m' (Zpos my) Hm'pos ltac:(lia)) as Hdq.
    fold d2 in Hdq. rewrite Hdm' in Hdq.
    pose proof (Z.div_eucl_eq m' (Zpos my) ltac:(lia)) as Heq.
    pose proof (Z_div_mod m' (Zpos my) ltac:(lia)) as Hdm.
    unfold Z.div in Hdq.
    destruct (Z.div_eucl m' (Zpos my)) as [q r].
    simpl fst in Hdq. destruct Hdm as [_ Hr].
    assert (Hq : 0 <= q) by nia.
    unfold sign at 2 3.
    pose proof (Zdigits2_pos (Zpos mx) ltac:(lia)).
    pose proof (Zdigits2_pos (Zpos my) ltac:(lia)).
    fold d1 in H. fold d2 in H0.
    destruct (binary_round_aux_fin (xorb sx sy) q e' (new_location (Zpos my) r) K)
      as (F & S & _); try lia.
    { rewrite fexp_eq. lia. }
    split; assumption.
Qed.


(** *** Exact results *)

Lemma shr_1_exact (a : Z) :
  0 <= a ->
  shr_1 {| shr_m := 2 * a; shr_r := false; shr_s := false |} =
  {| shr_m := a; shr_r := false; shr_s := false |}.
Proof. destruct a; intros; try lia; reflexivity. Qed.

Lemma iter_pos_shr_1_exact (n : positive) (a : Z) :
  0 <= a ->
  SpecFloat.iter_pos shr_1 n {| shr_m := a * 2 ^ Zpos n; shr_r := false; shr_s := false |} =
  {| shr_m := a; shr_r := false; shr_s := false |}.
Proof.
  revert a. induction n as [n IH|n IH|]; intros a Ha.
  - change (SpecFloat.iter_pos shr_1 n~1 ?r) with (SpecFloat.iter_pos shr_1 n (SpecFloat.iter_pos shr_1 n (shr_1 r))).
    replace (a * 2 ^ Zpos n~1) with (2 * ((a * 2 ^ Zpos n) * 2 ^ Zpos n)).
    + assert (0 < 2 ^ Zpos n) by (apply Z.pow_pos_nonneg; lia).
      rewrite shr_1_exact by nia. rewrite IH by nia. apply IH; assumption.
    + rewrite (Pos2Z.inj_xI n).
      replace (2 * Zpos n + 1) with (Zpos n + Zpos n + 1) by lia.
      rewrite !Z.pow_add_r by lia. change (2 ^ 1) with 2. ring.
  - change (SpecFloat.iter_pos shr_1 n~0 ?r) with (SpecFloat.iter_pos shr_1 n (SpecFloat.iter_pos shr_1 n r)).
    replace (a * 2 ^ Zpos n~0) with ((a * 2 ^ Zpos n) * 2 ^ Zpos n).
    + assert (0 < 2 ^ Zpos n) by (apply Z.pow_pos_nonneg; lia).
      rewrite IH by nia. apply IH; assumption.
    + rewrite (Pos2Z.inj_xO n). replace (2 * Zpos n) with (Zpos n + Zpos n) by lia.
      rewrite Z.pow_add_r by lia. ring.
  - change (SpecFloat.iter_pos shr_1 1 ?r) with (shr_1 r).
    change (2 ^ 1) with 2. rewrite Z.mul_comm. apply shr_1_exact; assumption.
Qed.

(** A well-formed mantissa followed by [k] zero bits rounds to itself. *)
Lemma binary_round_aux_exact (s : bool) (m : positive) (e k : Z) :
  0 <= k -> SpecFloat.bounded prec emax m e = true ->
  binary_round_aux prec emax s (Zpos m * 2 ^ k) (e - k) loc_Exact =
  S754_finite s m e.
Proof.
  intros Hk Hb. pose proof Hb as Hb'. apply bounded_iff in Hb'. destruct Hb' as [Hc He].
  unfold binary_round_aux, shr_fexp.
  rewrite Zdigits2_mul_pow2 by lia. rewrite fexp_eq.
  replace (Z.max (Zdigits2 (Zpos m) + k + (e - k) - 53) (-1074) - (e - k)) with k by lia.
  assert (E1 : shr (shr_record_of_loc (Zpos m * 2 ^ k) loc_Exact) (e - k) k =
               ({| shr_m := Zpos m; shr_r := false; shr_s := false |}, e)).
  { destruct k as [|p|p]; try lia.
    - change (2 ^ 0) with 1. rewrite Z.mul_1_r.
      unfold shr, shr_record_of_loc. f_equal. lia.
    - unfold shr, shr_record_of_loc. rewrite iter_pos_shr_1_exact by lia.
      f_equal. lia. }
  rewrite E1. cbv beta iota.
  change (loc_of_shr_record {| shr_m := Zpos m; shr_r := false; shr_s := false |})
    with loc_Exact.
  change (shr_m {| shr_m := Zpos m; shr_r := false; shr_s := false |}) with (Zpos m).
  change (round_nearest_even (Zpos m) loc_Exact) with (Zpos m).
  rewrite fexp_eq.
  rewrite shr_nop by lia. cbv beta iota.
  change (shr_m (shr_record_of_loc (Zpos m) loc_Exact)) with (Zpos m). cbv beta iota.
  replace (e <=? emax - prec) with true; [reflexivity|].
  symmetry. apply Z.leb_le. unfold emax, prec. lia.
Qed.

(** [x * 1.0 = x] for every well-formed float. *)
Lemma mul_one_r (x : spec_float) :
  valid_binary prec emax x = true -> SFmul prec emax x one = x.
Proof.
  destruct x as [s|s| |s m e]; simpl valid_binary; intros Hv;
    try (simpl; rewrite ?xorb_false_r; reflexivity).
  unfold SFmul, one. rewrite xorb_false_r.
  rewrite Pos2Z.inj_mul.
  change (Zpos 4503599627370496) with (2 ^ 52).
  replace (e + -52) with (e - 52) by lia.
  apply binary_round_aux_exact; [lia|assumption].
Qed.

(** [0.5 * x] halves every well-formed float that is not subnormal, by
    lowering its exponent. *)
Lemma mul_half_l (s : bool) (m : positive) (e : Z) :
  SpecFloat.bounded prec emax m e = true -> -1074 < e ->
  SFmul prec emax f0_5 (S754_finite s m e) = S754_finite s m (e - 1).
Proof.
  intros Hb He. unfold SFmul, f0_5. rewrite xorb_false_l.
  rewrite Pos.mul_comm, Pos2Z.inj_mul.
  change (Zpos 4503599627370496) with (2 ^ 52).
  replace (-53 + e) with (e - 1 - 52) by lia.
  apply binary_round_aux_exact; [lia|].
  apply bounded_iff in Hb. apply bounded_iff. lia.
Qed.

(** *** Order *)

Lemma compare_cont_antisym_eq (p q : positive) :
  Pos.compare_cont Eq q p = CompOpp (Pos.compare_cont Eq p q).
Proof. apply (Pos.compare_antisym p q). Qed.

Lemma SFcompare_antisym (x y : spec_float) :
  SFcompare y x = option_map CompOpp (SFcompare x y).
Proof.
  destruct x as [sx|sx| |sx mx ex], y as [sy|sy| |sy my ey]; simpl;
    try reflexivity;
    try (destruct sx; reflexivity); try (destruct sy; reflexivity);
    try (destruct sx, sy; reflexivity).
  destruct sx, sy; try reflexivity;
    rewrite (Z.compare_antisym ex ey);
    destruct (ex ?= ey); simpl; try reflexivity;
    rewrite (compare_cont_antisym_eq mx my);
    destruct (Pos.compare_cont Eq mx my); reflexivity.
Qed.

Lemma SFmul_comm (x y : spec_float) : SFmul prec emax x y = SFmul prec emax y x.
Proof.
  destruct x as [sx|sx| |sx mx ex], y as [sy|sy| |sy my ey]; simpl;
    try reflexivity; try (rewrite xorb_comm; reflexivity).
  rewrite xorb_comm, Pos.mul_comm, Z.add_comm. reflexivity.
Qed.

Lemma SFadd_comm (x y : spec_float) : SFadd prec emax x y = SFadd prec emax y x.
Proof.
  destruct x as [sx|sx| |sx mx ex], y as [sy|sy| |sy my ey]; simpl;
    try reflexivity; try (destruct sx, sy; reflexivity).
  rewrite (Z.min_comm ey ex), Z.add_comm. reflexivity.
Qed.

End B64Facts.

Arguments geothermal_energy : simpl never.
Arguments wasted_energy_recovery : simpl never.
Arguments calculate_teg_recovery : simpl never.
Arguments monitor_pipe : simpl never.
Arguments Py.mul : simpl never.
Arguments Py.add : simpl never.
Arguments Py.truediv : simpl never.
Arguments Py.min : simpl never.

Lemma rerun_pipeline (g0 : globals) (w : Inputs) : rerun g0 w = pipeline w.
Proof.
  unfold rerun, pipeline, script, run, assign, assign_pair, call1, call3,
    binop, builtin2, const, read_outputs, var, var_str, bindvar.
  cbn.
  destruct (geothermal_energy _) as [geo|]; cbn; [|reflexivity].
  destruct (wasted_energy_recovery _) as [waste|]; cbn; [|reflexivity].
  destruct (Py.add waste geo) as [usage|]; cbn; [|reflexivity].
  destruct (calculate_teg_recovery _ _ _) as [teg|]; cbn; [|reflexivity].
  destruct (monitor_pipe _) as [msg eff]; cbn.
  destruct (Py.add geo waste) as [s1|]; cbn; [|reflexivity].
  destruct (Py.add s1 teg) as [s2|]; cbn; [|reflexivity].
  destruct (Py.mul s2 eff) as [total|]; cbn; [|reflexivity].
  destruct (Py.mul _ _) as [dis|]; cbn; reflexivity.
Qed.

(* ================================================================== *)
(** ** Facts about the Python operators *)
(* ================================================================== *)

Module PyFacts.

Import B64 B64Facts.

Lemma CompOpp_option_invol (c : option comparison) :
  option_map CompOpp (option_map CompOpp c) = c.
Proof. destruct c as [[| |]|]; reflexivity. Qed.

Lemma compare_antisym (a b : num) :
  Py.compare b a = option_map CompOpp (Py.compare a b).
Proof.
  destruct a as [x|x], b as [y|y]; simpl.
  - rewrite (Z.compare_antisym x y). reflexivity.
  - rewrite CompOpp_option_invol. reflexivity.
  - reflexivity.
  - apply SFcompare_antisym.
Qed.

Lemma le_not_lt (a b : num) : Py.le a b = true -> Py.lt b a = false.
Proof.
  unfold Py.le, Py.lt. rewrite (compare_antisym a b).
  destruct (Py.compare a b) as [[| |]|]; simpl; congruence.
Qed.

Lemma ge_not_lt (a b : num) : Py.ge a b = true -> Py.lt a b = false.
Proof.
  unfold Py.ge, Py.lt. destruct (Py.compare a b) as [[| |]|]; congruence.
Qed.

Lemma mul_comm (a b : num) : Py.mul a b = Py.mul b a.
Proof.
  destruct a as [x|x], b as [y|y]; unfold Py.mul; simpl.
  - rewrite Z.mul_comm. reflexivity.
  - destruct (Py.float_of_int x); simpl; [|reflexivity].
    unfold B64.mul. rewrite SFmul_comm. reflexivity.
  - destruct (Py.float_of_int y); simpl; [|reflexivity].
    unfold B64.mul. rewrite SFmul_comm. reflexivity.
  - unfold B64.mul. rewrite SFmul_comm. reflexivity.
Qed.

Lemma mul_float_l (x : float) (b : num) (y : float) :
  Py.to_float b = Ok y -> Py.mul (PyFloat x) b = Ok (PyFloat (B64.mul x y)).
Proof.
  intros H. unfold Py.mul. destruct b; cbn [Py.to_float Py.bind] in *.
  - rewrite H. reflexivity.
  - injection H as ->. reflexivity.
Qed.

Lemma mul_float_r (a : num) (x y : float) :
  Py.to_float a = Ok x -> Py.mul a (PyFloat y) = Ok (PyFloat (B64.mul x y)).
Proof.
  intros H. unfold Py.mul. destruct a; cbn [Py.to_float Py.bind] in *.
  - rewrite H. reflexivity.
  - injection H as ->. reflexivity.
Qed.

(** With one [float] operand, [a + b] and [b + a] are the same float;
    when both conversions fail, they raise the same exception. *)
Lemma add_comm (a b : num) : Py.add a b = Py.add b a.
Proof.
  destruct a as [x|x], b as [y|y]; unfold Py.add; simpl.
  - rewrite Z.add_comm. reflexivity.
  - destruct (Py.float_of_int x); simpl; [|reflexivity].
    unfold B64.add. rewrite SFadd_comm. reflexivity.
  - destruct (Py.float_of_int y); simpl; [|reflexivity].
    unfold B64.add. rewrite SFadd_comm. reflexivity.
  - unfold B64.add. rewrite SFadd_comm. reflexivity.
Qed.

(** [min(a, b)] is one of its arguments, and when the two are ordered
    it is below both. *)
Lemma min_cases (a b : num) : Py.min a b = a \/ Py.min a b = b.
Proof. unfold Py.min. destruct (Py.lt b a); auto. Qed.



(** Conversion of an [int] of fewer than 1024 bits. *)
Lemma float_of_int_fin (n K : Z) :
  Zdigits2 n <= K -> 0 <= K <= 1023 ->
  Py.float_of_int n = Ok (of_Z n) /\ fin (K + 1) (of_Z n) /\
  sign (of_Z n) = (n <? 0).
Proof.
  intros HK HKr.
  destruct (binary_normalize_fin n 0 K ltac:(lia) ltac:(lia)) as (F & S & _).
  fold (of_Z n) in F, S. unfold Py.float_of_int.
  split; [|split; assumption].
  destruct (of_Z n); unfold fin in F; try contradiction; reflexivity.
Qed.

Lemma Zdigits2_le (n k : Z) : 0 <= k -> Z.abs n < 2 ^ k -> Zdigits2 n <= k.
Proof.
  intros Hk Hn.
  assert (Zdigits2 n = Zdigits2 (Z.abs n)) as -> by (destruct n; reflexivity).
  apply Zdigits2_lt_pow2; lia.
Qed.

Lemma fin_valid (K : Z) (x : float) : fin K x -> valid x = true.
Proof. destruct x; simpl; intuition. Qed.

Lemma fin_finite (K : Z) (x : float) : fin K x -> is_finite x = true.
Proof. destruct x; simpl; intuition. Qed.

(** A finite float with a clear sign bit compares [>= 0]. *)
Lemma nonneg_ge_0 (K : Z) (x : float) :
  fin K x -> sign x = false -> Py.ge (PyFloat x) (PyInt 0) = true.
Proof.
  destruct x as [s|s| |s m e]; unfold fin, sign; try contradiction; intros _ Hs.
  - reflexivity.
  - subst s. unfold Py.ge, Py.compare, Py.compare_float_int. cbv zeta.
    destruct (0 <=? e) eqn:E.
    + apply Z.leb_le in E.
      assert (0 < 2 ^ e) by (apply Z.pow_pos_nonneg; lia).
      assert (H0 : (Zpos m * 2 ^ e ?= 0) = Gt) by (apply Z.compare_gt_iff; nia).
      rewrite H0. reflexivity.
    + reflexivity.
Qed.

(** A finite float that is not zero and has its sign bit set compares
    [< 0]; so does minus infinity. *)
Lemma negative_lt_0 (x : float) :
  match x with S754_finite s _ _ | S754_infinity s => s = true | _ => False end ->
  Py.lt (PyFloat x) (PyInt 0) = true.
Proof.
  destruct x as [s|s| |s m e]; try contradiction; intros ->.
  - reflexivity.
  - unfold Py.lt, Py.compare, Py.compare_float_int. cbv zeta.
    destruct (0 <=? e) eqn:E.
    + apply Z.leb_le in E.
      assert (0 < 2 ^ e) by (apply Z.pow_pos_nonneg; lia).
      assert (H0 : (Zneg m * 2 ^ e ?= 0) = Lt) by (apply Z.compare_lt_iff; nia).
      rewrite H0. reflexivity.
    + reflexivity.
Qed.

End PyFacts.

(* ================================================================== *)
(** ** The run on inputs within the ranges *)
(* ================================================================== *)

Module Run.

Import B64 B64Facts PyFacts.

Lemma nonneg_weaken (K K' : Z) (x : float) :
  nonneg K x -> K <= K' -> nonneg K' x.
Proof. intros [F S] H. split; [eapply fin_weaken; eassumption|exact S]. Qed.

Lemma nonneg_mul (x y : float) (Kx Ky K : Z) :
  nonneg Kx x -> nonneg Ky y -> Kx + Ky <= K -> -1074 <= K <= 1023 ->
  nonneg (K + 1) (B64.mul x y).
Proof.
  intros [Fx Sx] [Fy Sy] HK HKr.
  destruct (mul_fin x y Kx Ky K Fx Fy HK HKr) as (F & S & _).
  split; [exact F|]. unfold B64.mul. rewrite S, Sx, Sy. reflexivity.
Qed.

Lemma nonneg_add (x y : float) (K : Z) :
  nonneg K x -> nonneg K y -> -1074 <= K + 1 <= 1023 ->
  nonneg (K + 2) (B64.add x y).
Proof.
  intros [Fx Sx] [Fy Sy] HKr.
  destruct (add_fin x y K Fx Fy HKr) as [F S].
  split; [exact F|]. unfold B64.add. rewrite S; congruence.
Qed.

Lemma nonneg_div_100 (x : float) (Kx K : Z) :
  nonneg Kx x -> Kx - 6 <= K -> -1074 <= K <= 1023 ->
  nonneg (K + 1) (B64.div x (of_Z 100)).
Proof.
  intros [Fx Sx] HK HKr.
  destruct (div_fin x (of_Z 100) Kx 7 K Fx) as [F S]; try lia.
  { vm_compute. discriminate. }
  split; [exact F|]. unfold B64.div. rewrite S, Sx. reflexivity.
Qed.

Lemma nonneg_of_Z (n K : Z) :
  0 <= n < 2 ^ K -> 0 <= K <= 1023 -> nonneg (K + 1) (of_Z n).
Proof.
  intros Hn HK.
  destruct (float_of_int_fin n K) as (_ & F & S); try lia.
  { apply Zdigits2_le; lia. }
  split; [exact F|]. rewrite S. apply Z.ltb_ge. lia.
Qed.

Lemma float_of_int_small (n K : Z) :
  0 <= n < 2 ^ K -> 0 <= K <= 1023 -> Py.float_of_int n = Ok (of_Z n).
Proof.
  intros Hn HK. apply (float_of_int_fin n K); try lia.
  apply Zdigits2_le; lia.
Qed.

Lemma nonneg_f0_5 : nonneg 0 f0_5.
Proof. repeat split. vm_compute. discriminate. Qed.
Lemma nonneg_f0_7 : nonneg 0 f0_7.
Proof. repeat split. vm_compute. discriminate. Qed.
Lemma nonneg_f0_6 : nonneg 0 f0_6.
Proof. repeat split. vm_compute. discriminate. Qed.
Lemma nonneg_f0_8 : nonneg 0 f0_8.
Proof. repeat split. vm_compute. discriminate. Qed.
Lemma nonneg_f0_75 : nonneg 0 f0_75.
Proof. repeat split. vm_compute. discriminate. Qed.
Lemma nonneg_f1_0 : nonneg 1 f1_0.
Proof. repeat split. vm_compute. discriminate. Qed.

(** The efficiency factor is one of the three float literals, whatever
    the health value. *)
Lemma monitor_pipe_factor (health : num) :
  snd (monitor_pipe health) = PyFloat f0_6 \/
  snd (monitor_pipe health) = PyFloat f0_8 \/
  snd (monitor_pipe health) = PyFloat f1_0.
Proof.
  unfold monitor_pipe.
  destruct (Py.lt health (PyInt 40)); [auto|].
  destruct (Py.lt health (PyInt 70)); auto.
Qed.

Lemma monitor_pipe_factor_nonneg (health : num) :
  exists e, snd (monitor_pipe health) = PyFloat e /\ nonneg 1 e.
Proof.
  destruct (monitor_pipe_factor health) as [E|[E|E]]; rewrite E;
    eexists; (split; [reflexivity|]).
  - apply (nonneg_weaken 0); [apply nonneg_f0_6|lia].
  - apply (nonneg_weaken 0); [apply nonneg_f0_8|lia].
  - apply nonneg_f1_0.
Qed.

Lemma nonneg_nonneg0 (K : Z) (x : float) : nonneg K x -> nonneg0 K x.
Proof. intros [F S]. split; [exact F|left; exact S]. Qed.

Lemma nonneg0_weaken (K K' : Z) (x : float) :
  nonneg0 K x -> K <= K' -> nonneg0 K' x.
Proof. intros [F S] H. split; [eapply fin_weaken; eassumption|exact S]. Qed.

Lemma nonneg0_mul (x y : float) (Kx Ky K : Z) :
  nonneg0 Kx x -> nonneg0 Ky y -> Kx + Ky <= K -> -1074 <= K <= 1023 ->
  nonneg0 (K + 1) (B64.mul x y).
Proof.
  intros [Fx Sx] [Fy Sy] HK HKr.
  destruct (mul_fin x y Kx Ky K Fx Fy HK HKr) as (F & S & _).
  split; [exact F|]. unfold B64.mul in *.
  destruct x as [sx|sx| |sx mx ex]; try contradiction;
    destruct y as [sy|sy| |sy my ey]; try contradiction;
    try (right; reflexivity).
  left. rewrite S.
  destruct Sx as [Sx|Sx]; [|discriminate]. destruct Sy as [Sy|Sy]; [|discriminate].
  cbn [sign] in *. subst. reflexivity.
Qed.

Lemma nonneg0_add (x y : float) (K : Z) :
  nonneg0 K x -> nonneg0 K y -> -1074 <= K + 1 <= 1023 ->
  nonneg0 (K + 2) (B64.add x y).
Proof.
  intros [Fx Sx] [Fy Sy] HKr.
  destruct (add_fin x y K Fx Fy HKr) as [F S].
  split; [exact F|]. unfold B64.add in *.
  destruct x as [sx|sx| |sx mx ex]; try contradiction;
    destruct y as [sy|sy| |sy my ey]; try contradiction.
  - right. destruct sx, sy; reflexivity.
  - exact Sy.
  - exact Sx.
  - left. destruct Sx as [Sx|Sx]; [|discriminate].
    destruct Sy as [Sy|Sy]; [|discriminate].
    rewrite S; [exact Sx|congruence].
Qed.

(** A sum whose first term has a clear sign bit has a clear sign bit. *)
Lemma nonneg_add0 (x y : float) (K : Z) :
  nonneg K x -> nonneg0 K y -> -1074 <= K + 1 <= 1023 ->
  nonneg (K + 2) (B64.add x y).
Proof.
  intros [Fx Sx] [Fy Sy] HKr.
  destruct (add_fin x y K Fx Fy HKr) as [F S].
  split; [exact F|]. unfold B64.add in *.
  destruct Sy as [Sy|Sy]; [rewrite S; congruence|].
  destruct y as [sy|sy| |sy my ey]; try discriminate.
  destruct x as [sx|sx| |sx mx ex]; try contradiction; cbn [sign] in Sx; subst.
  - destruct sy; reflexivity.
  - reflexivity.
Qed.

Lemma nonneg0_div_100 (x : float) (Kx K : Z) :
  nonneg0 Kx x -> Kx - 6 <= K -> -1074 <= K <= 1023 ->
  nonneg0 (K + 1) (B64.div x (of_Z 100)).
Proof.
  intros [Fx Sx] HK HKr.
  destruct (div_fin x (of_Z 100) Kx 7 K Fx) as [F S]; try lia.
  { vm_compute. discriminate. }
  split; [exact F|]. unfold B64.div in *.
  destruct x as [sx|sx| |sx mx ex]; try contradiction.
  - right. reflexivity.
  - left. destruct Sx as [Sx|Sx]; [|discriminate].
    rewrite S. cbn [sign] in *. subst. reflexivity.
Qed.

Lemma nonneg0_ge_0 (K : Z) (x : float) :
  nonneg0 K x -> Py.ge (PyFloat x) (PyInt 0) = true.
Proof.
  intros [F [S|Z]].
  - exact (nonneg_ge_0 K x F S).
  - destruct x; try discriminate. reflexivity.
Qed.

(** *** Numbers within a range *)

Lemma le_int_int (a b : Z) : Py.le (PyInt a) (PyInt b) = true <-> a <= b.
Proof.
  unfold Py.le, Py.compare.
  destruct (Z.compare_spec a b); split; intros; try lia; try reflexivity;
    discriminate.
Qed.

(** A well-formed float between two non-negative integers is a zero or a
    finite float with a clear sign bit, of the magnitude of the bound. *)
Lemma in_range_float (lo hi K : Z) (x : float) :
  0 <= lo -> hi < 2 ^ K -> 0 <= K ->
  in_range lo hi (PyFloat x) ->
  nonneg0 K x /\ (0 < lo -> sign x = false).
Proof.
  intros Hlo Hhi HK (Hv & Hl & Hh).
  unfold Py.le, Py.compare, Py.compare_float_int in Hl, Hh.
  unfold option_map in Hl. cbv zeta in Hl, Hh.
  destruct x as [s|s| |s m e]; try discriminate.
  - split; [split; [exact I|right; reflexivity]|].
    intros Hpos. exfalso. revert Hl.
    destruct (Z.compare_spec 0 lo); try discriminate; lia.
  - destruct s; discriminate.
  - cbn [wf] in Hv. unfold B64.valid, valid_binary in Hv.
    pose proof (Zdigits2_pos (Zpos m) ltac:(lia)) as Hd.
    destruct (0 <=? e) eqn:E.
    + apply Z.leb_le in E.
      assert (P : 0 < 2 ^ e) by (apply Z.pow_pos_nonneg; lia).
      destruct s.
      * exfalso. revert Hl.
        assert (Zneg m * 2 ^ e < 0) by (apply Z.mul_neg_pos; lia).
        destruct (Z.compare_spec (Zneg m * 2 ^ e) lo); try discriminate; lia.
      * assert (Hm : Zpos m * 2 ^ e < 2 ^ K).
        { revert Hh.
          destruct (Z.compare_spec (Zpos m * 2 ^ e) hi); try discriminate; lia. }
        apply Zdigits2_lt_pow2 in Hm; [|lia|lia].
        rewrite Zdigits2_mul_pow2 in Hm by lia.
        repeat split; try assumption; auto.
    + apply Z.leb_gt in E.
      assert (P : 0 < 2 ^ (- e)) by (apply Z.pow_pos_nonneg; lia).
      destruct s.
      * exfalso. revert Hl.
        destruct (Z.compare_spec (Zneg m) (lo * 2 ^ (- e))); try discriminate; nia.
      * assert (Hm : Zpos m < 2 ^ (K - e)).
        { replace (K - e) with (K + - e) by lia. rewrite Z.pow_add_r by lia.
          revert Hh.
          destruct (Z.compare_spec (Zpos m) (hi * 2 ^ (- e))); try discriminate; nia. }
        apply Zdigits2_lt_pow2 in Hm; [|lia|lia].
        repeat split; try assumption; auto; lia.
Qed.

(** Every in-range number converts to a float without raising. *)
Lemma in_range_to_float (lo hi K : Z) (a : num) :
  0 <= lo -> hi < 2 ^ K -> 0 <= K <= 1022 ->
  in_range lo hi a ->
  exists x, Py.to_float a = Ok x /\ nonneg0 (K + 1) x /\
            (0 < lo -> sign x = false) /\
            Py.ge a (PyInt 0) = true.
Proof.
  intros Hlo Hhi HK R. destruct a as [n|x].
  - destruct R as (_ & Hl & Hh). apply le_int_int in Hl, Hh.
    exists (of_Z n). cbn [Py.to_float].
    destruct (nonneg_of_Z n K ltac:(lia) ltac:(lia)) as [F S].
    split; [apply (float_of_int_small n K); lia|].
    split; [split; [exact F|left; exact S]|].
    split; [intros _; exact S|].
    unfold Py.ge, Py.compare. destruct (Z.compare_spec n 0); try reflexivity; lia.
  - destruct (in_range_float lo hi K x Hlo Hhi ltac:(lia) R) as [N S].
    exists x. split; [reflexivity|].
    split; [apply (nonneg0_weaken K); [exact N|lia]|].
    split; [exact S|]. exact (nonneg0_ge_0 K x N).
Qed.

(** The sum of the two percentages converts, whatever the types. *)
Lemma pct_in_range (d s : num) :
  in_range 0 50 d -> in_range 0 50 s ->
  exists pct xp, Py.add d s = Ok pct /\ Py.to_float pct = Ok xp /\ nonneg0 9 xp.
Proof.
  intros Rd Rs.
  destruct (in_range_to_float 0 50 6 d ltac:(lia) ltac:(reflexivity) ltac:(lia) Rd)
    as (xd & Ed & Nd & _).
  destruct (in_range_to_float 0 50 6 s ltac:(lia) ltac:(reflexivity) ltac:(lia) Rs)
    as (xs & Es & Ns & _).
  destruct d as [d|d], s as [s|s].
  - destruct Rd as (_ & Hd1 & Hd2), Rs as (_ & Hs1 & Hs2).
    apply le_int_int in Hd1, Hd2, Hs1, Hs2.
    exists (PyInt (d + s)), (of_Z (d + s)). split; [reflexivity|].
    cbn [Py.to_float].
    split; [apply (float_of_int_small (d + s) 7); [change (2 ^ 7) with 128|]; lia|].
    apply (nonneg0_weaken 8); [|lia]. apply nonneg_nonneg0.
    apply (nonneg_of_Z (d + s) 7); [change (2 ^ 7) with 128|]; lia.
  - exists (PyFloat (B64.add xd xs)), (B64.add xd xs).
    unfold Py.add. rewrite Ed, Es. cbn [Py.bind Py.to_float].
    split; [reflexivity|]. split; [reflexivity|].
    apply (nonneg0_add _ _ 7); try assumption; lia.
  - exists (PyFloat (B64.add xd xs)), (B64.add xd xs).
    unfold Py.add. rewrite Ed, Es. cbn [Py.bind Py.to_float].
    split; [reflexivity|]. split; [reflexivity|].
    apply (nonneg0_add _ _ 7); try assumption; lia.
  - exists (PyFloat (B64.add xd xs)), (B64.add xd xs).
    unfold Py.add. rewrite Ed, Es. cbn [Py.bind Py.to_float].
    split; [reflexivity|]. split; [reflexivity|].
    apply (nonneg0_add _ _ 7); try assumption; lia.
Qed.

Lemma slider_in_range (t w d s h c : Z) :
  in_slider_range t w d s h c -> inputs_in_range (slider_inputs t w d s h c).
Proof.
  intros (Ht & Hw & Hd & Hs & Hh & Hc).
  unfold inputs_in_range, in_range, slider_inputs.
  cbn [geothermal_temp wasted_energy_input teg_device_level teg_system_level
       pipe_health storage_capacity wf].
  rewrite !le_int_int. repeat split; lia.
Qed.

(** *** The run, value by value *)

(** A run returns as soon as the values it converts to [float] convert
    (temp, wasted, the sum of the two percentages, storage), and then its
    float outputs are these. *)
Lemma pipeline_value (w : Inputs) (ft fw fp fc : float) (pct : num) :
  Py.to_float (geothermal_temp w) = Ok ft ->
  Py.to_float (wasted_energy_input w) = Ok fw ->
  Py.add (teg_device_level w) (teg_system_level w) = Ok pct ->
  Py.to_float pct = Ok fp ->
  Py.to_float (storage_capacity w) = Ok fc ->
  exists eff dis,
    snd (monitor_pipe (pipe_health w)) = PyFloat eff /\
    pipeline w =
      Ok {| geo_output := PyFloat (B64.mul f0_5 ft);
            waste_output := PyFloat (B64.mul f0_7 fw);
            teg_recovery :=
              PyFloat (B64.div (B64.mul (B64.add (B64.mul f0_7 fw) (B64.mul f0_5 ft)) fp)
                               (of_Z 100));
            pipe_status_msg := fst (monitor_pipe (pipe_health w));
            pipe_efficiency := PyFloat eff;
            total_output :=
              PyFloat
                (B64.mul
                   (B64.add
                      (B64.add (B64.mul f0_5 ft) (B64.mul f0_7 fw))
                      (B64.div (B64.mul (B64.add (B64.mul f0_7 fw) (B64.mul f0_5 ft)) fp)
                               (of_Z 100)))
                   eff);
            charge :=
              Py.min
                (PyFloat
                   (B64.mul
                      (B64.add
                         (B64.add (B64.mul f0_5 ft) (B64.mul f0_7 fw))
                         (B64.div (B64.mul (B64.add (B64.mul f0_7 fw) (B64.mul f0_5 ft)) fp)
                                  (of_Z 100)))
                      eff))
                (storage_capacity w);
            discharge := PyFloat dis |} /\
    (dis =
       B64.mul
         (B64.mul
            (B64.add
               (B64.add (B64.mul f0_5 ft) (B64.mul f0_7 fw))
               (B64.div (B64.mul (B64.add (B64.mul f0_7 fw) (B64.mul f0_5 ft)) fp)
                        (of_Z 100)))
            eff)
         f0_75 \/
     dis = B64.mul fc f0_75).
Proof.
  intros Ht Hw Hp Hfp Hc.
  destruct (monitor_pipe_factor_nonneg (pipe_health w)) as (eff & Eeff & _).
  exists eff. unfold pipeline.
  unfold geothermal_energy. rewrite (mul_float_l _ _ _ Ht). cbn [Py.bind].
  unfold wasted_energy_recovery. rewrite (mul_float_l _ _ _ Hw). cbn [Py.bind].
  unfold Py.add at 1. cbn [Py.to_float Py.bind].
  unfold calculate_teg_recovery. rewrite Hp. cbn [Py.bind].
  rewrite (mul_float_l _ _ _ Hfp). cbn [Py.bind].
  unfold Py.truediv. cbn [Py.to_float Py.bind].
  change (Py.float_of_int 100) with (Ok (of_Z 100)). cbn [Py.bind].
  change (is_zero (of_Z 100)) with false. cbv iota.
  unfold Py.add at 1. cbn [Py.to_float Py.bind].
  unfold Py.add at 1. cbn [Py.to_float Py.bind].
  rewrite Eeff. unfold Py.mul at 1. cbn [Py.to_float Py.bind].
  match goal with
  | |- context [Py.min ?a ?b] =>
      destruct (min_cases a b) as [Emin|Emin]
  end; eexists; (split; [reflexivity|]); rewrite Emin at 1.
  - unfold Py.mul at 1. cbn [Py.to_float Py.bind].
    split; [reflexivity|left; reflexivity].
  - rewrite (mul_float_r _ _ _ Hc). cbn [Py.bind].
    split; [reflexivity|right; reflexivity].
Qed.

(** Every run on in-range inputs, of either numeric type, returns, and its
    float outputs are well formed and finite; all but teg_recovery, which
    may be [-0.0], have a clear sign bit. *)
Lemma ranged_pipeline (w : Inputs) :
  inputs_in_range w ->
  exists geo waste teg total dis,
    pipeline w =
      Ok {| geo_output := PyFloat geo;
            waste_output := PyFloat waste;
            teg_recovery := PyFloat teg;
            pipe_status_msg := fst (monitor_pipe (pipe_health w));
            pipe_efficiency := snd (monitor_pipe (pipe_health w));
            total_output := PyFloat total;
            charge := Py.min (PyFloat total) (storage_capacity w);
            discharge := PyFloat dis |} /\
    nonneg 12 geo /\ nonneg 10 waste /\ nonneg0 19 teg /\
    nonneg 23 total /\ nonneg 24 dis /\
    Py.ge (storage_capacity w) (PyInt 0) = true.
Proof.
  intros (Rt & Rw & Rd & Rs & Rh & Rc).
  destruct (in_range_to_float 300 900 10 _ ltac:(lia) ltac:(reflexivity) ltac:(lia) Rt)
    as (ft & Et & [Ft _] & St & _).
  destruct (in_range_to_float 10 200 8 _ ltac:(lia) ltac:(reflexivity) ltac:(lia) Rw)
    as (fw & Ew & [Fw _] & Sw & _).
  destruct (pct_in_range _ _ Rd Rs) as (pct & fp & Ep & Efp & Np).
  destruct (in_range_to_float 100 1000 10 _ ltac:(lia) ltac:(reflexivity) ltac:(lia) Rc)
    as (fc & Ec & [Fc _] & Sc & Gc).
  destruct (pipeline_value w ft fw fp fc pct Et Ew Ep Efp Ec)
    as (eff & dis & Eeff & E & Hdis).
  assert (Neff : nonneg 1 eff).
  { destruct (monitor_pipe_factor_nonneg (pipe_health w)) as (eff' & E' & N').
    rewrite Eeff in E'. injection E' as <-. exact N'. }
  assert (Ng : nonneg 12 (B64.mul f0_5 ft)).
  { apply (nonneg_mul _ _ 0 11 11); try lia; [apply nonneg_f0_5|].
    split; [exact Ft|apply St; lia]. }
  assert (Nw : nonneg 10 (B64.mul f0_7 fw)).
  { apply (nonneg_mul _ _ 0 9 9); try lia; [apply nonneg_f0_7|].
    split; [exact Fw|apply Sw; lia]. }
  assert (Nu : nonneg 14 (B64.add (B64.mul f0_7 fw) (B64.mul f0_5 ft))).
  { apply (nonneg_add _ _ 12); try lia; [|exact Ng].
    apply (nonneg_weaken 10); [exact Nw|lia]. }
  assert (Nt : nonneg0 19
                 (B64.div (B64.mul (B64.add (B64.mul f0_7 fw) (B64.mul f0_5 ft)) fp)
                          (of_Z 100))).
  { apply (nonneg0_div_100 _ 24 18); try lia.
    apply (nonneg0_mul _ _ 14 9 23); try lia; [|exact Np].
    apply nonneg_nonneg0. exact Nu. }
  assert (N1 : nonneg 14 (B64.add (B64.mul f0_5 ft) (B64.mul f0_7 fw))).
  { apply (nonneg_add _ _ 12); try lia; [exact Ng|].
    apply (nonneg_weaken 10); [exact Nw|lia]. }
  assert (Ntot : nonneg 23
                   (B64.mul
                      (B64.add
                         (B64.add (B64.mul f0_5 ft) (B64.mul f0_7 fw))
                         (B64.div (B64.mul (B64.add (B64.mul f0_7 fw) (B64.mul f0_5 ft)) fp)
                                  (of_Z 100)))
                      eff)).
  { apply (nonneg_mul _ _ 21 1 22); try lia; [|exact Neff].
    apply (nonneg_add0 _ _ 19); try lia; [|exact Nt].
    apply (nonneg_weaken 14); [exact N1|lia]. }
  do 5 eexists. rewrite <- Eeff in E. split; [exact E|].
  split; [exact Ng|]. split; [exact Nw|]. split; [exact Nt|].
  split; [exact Ntot|]. split; [|exact Gc].
  destruct Hdis as [-> | ->].
  - apply (nonneg_mul _ _ 23 0 23); try lia; [exact Ntot|apply nonneg_f0_75].
  - apply (nonneg_weaken 12); [|lia].
    apply (nonneg_mul _ _ 11 0 11); try lia; [|apply nonneg_f0_75].
    split; [exact Fc|apply Sc; lia].
Qed.

End Run.

(* ================================================================== *)
(** ** What a successful run computed *)
(* ================================================================== *)

Lemma bind_ok {A B} (r : result A) (k : A -> result B) (b : B) :
  Py.bind r k = Ok b -> exists a, r = Ok a /\ k a = Ok b.
Proof. destruct r as [a|e]; simpl; [eauto|discriminate]. Qed.

(** Each output of a successful run is the value of the expression the
    script assigns to it. *)
Lemma pipeline_inv (w : Inputs) (o : Outputs) :
  pipeline w = Ok o ->
  geothermal_energy (geothermal_temp w) = Ok (geo_output o) /\
  wasted_energy_recovery (wasted_energy_input w) = Ok (waste_output o) /\
  (exists usage,
     Py.add (waste_output o) (geo_output o) = Ok usage /\
     calculate_teg_recovery usage (teg_device_level w) (teg_system_level w)
       = Ok (teg_recovery o)) /\
  monitor_pipe (pipe_health w) = (pipe_status_msg o, pipe_efficiency o) /\
  (exists s1 s2,
     Py.add (geo_output o) (waste_output o) = Ok s1 /\
     Py.add s1 (teg_recovery o) = Ok s2 /\
     Py.mul s2 (pipe_efficiency o) = Ok (total_output o)) /\
  charge o = Py.min (total_output o) (storage_capacity w) /\
  Py.mul (charge o) (PyFloat f0_75) = Ok (discharge o).
Proof.
  unfold pipeline. intros H.
  apply bind_ok in H. destruct H as (geo & Hgeo & H).
  apply bind_ok in H. destruct H as (waste & Hwaste & H).
  apply bind_ok in H. destruct H as (usage & Husage & H).
  apply bind_ok in H. destruct H as (teg & Hteg & H).
  apply bind_ok in H. destruct H as (s1 & Hs1 & H).
  apply bind_ok in H. destruct H as (s2 & Hs2 & H).
  apply bind_ok in H. destruct H as (total & Htotal & H).
  apply bind_ok in H. destruct H as (dis & Hdis & H).
  injection H as <-. cbn [geo_output waste_output teg_recovery pipe_status_msg
    pipe_efficiency total_output charge discharge].
  repeat split; try assumption.
  - exists usage. split; assumption.
  - destruct (monitor_pipe (pipe_health w)); reflexivity.
  - exists s1, s2. repeat split; assumption.
Qed.

(** *** Values that are not NaN *)


















Lemma example_run : evaluate example_inputs = Ok example_outputs.
Proof. vm_compute. reflexivity. Qed.


(* ================================================================== *)
(** ** The pipe monitor *)
(* ================================================================== *)

(** A number at or above an integer threshold is at or above every lower
    one: comparisons with [int]s are exact. *)
Lemma ge_int_mono (h : num) (a b : Z) :
  a <= b -> Py.ge h (PyInt b) = true -> Py.ge h (PyInt a) = true.
Proof.
  intros Hab. unfold Py.ge, Py.compare.
  destruct h as [x|[s|s| |s m e]]; unfold Py.compare_float_int; cbv zeta.
  - destruct (Z.compare_spec x b), (Z.compare_spec x a);
      try reflexivity; try discriminate; lia.
  - destruct (Z.compare_spec 0 b), (Z.compare_spec 0 a);
      try reflexivity; try discriminate; lia.
  - destruct s; intros H; [discriminate|reflexivity].
  - discriminate.
  - destruct (0 <=? e) eqn:E.
    + apply Z.leb_le in E.
      assert (0 < 2 ^ e) by (apply Z.pow_pos_nonneg; lia).
      destruct (Z.compare_spec ((if s then Zneg m else Zpos m) * 2 ^ e) b),
               (Z.compare_spec ((if s then Zneg m else Zpos m) * 2 ^ e) a);
        try reflexivity; try discriminate; lia.
    + apply Z.leb_gt in E.
      assert (0 < 2 ^ (- e)) by (apply Z.pow_pos_nonneg; lia).
      destruct (Z.compare_spec (if s then Zneg m else Zpos m) (b * 2 ^ (- e))),
               (Z.compare_spec (if s then Zneg m else Zpos m) (a * 2 ^ (- e)));
        try reflexivity; try discriminate; nia.
Qed.

(** C2. monitor_pipe is a three-way threshold classifier on every number,
    int or float: health < 40 gives the warning message and 0.6;
    40 <= health < 70 gives the moderate message and 0.8; health >= 70
    gives the optimal message and 1.0.  The boundaries 40 and 70 fall in
    the better bucket, and 39.9, 40, 69.9, 70 and 100 classify as 0.6,
    0.8, 0.8, 1.0 and 1.0. *)
Theorem monitor_pipe_thresholds :
  (forall health : num,
      (Py.lt health (PyInt 40) = true ->
       monitor_pipe health = (msg_warning, PyFloat f0_6)) /\
      (Py.le (PyInt 40) health = true -> Py.lt health (PyInt 70) = true ->
       monitor_pipe health = (msg_moderate, PyFloat f0_8)) /\
      (Py.ge health (PyInt 70) = true ->
       monitor_pipe health = (msg_optimal, PyFloat f1_0))) /\
  monitor_pipe (PyFloat (B64.literal 399 10)) = (msg_warning, PyFloat (B64.literal 6 10)) /\
  monitor_pipe (PyInt 40) = (msg_moderate, PyFloat (B64.literal 8 10)) /\
  monitor_pipe (PyFloat (B64.literal 40 1)) = (msg_moderate, PyFloat (B64.literal 8 10)) /\
  monitor_pipe (PyFloat (B64.literal 699 10)) = (msg_moderate, PyFloat (B64.literal 8 10)) /\
  monitor_pipe (PyInt 70) = (msg_optimal, PyFloat (B64.literal 10 10)) /\
  monitor_pipe (PyFloat (B64.literal 70 1)) = (msg_optimal, PyFloat (B64.literal 10 10)) /\
  monitor_pipe (PyInt 100) = (msg_optimal, PyFloat (B64.literal 10 10)).
Proof.
  split; [|repeat split; vm_compute; reflexivity].
  intros health. unfold monitor_pipe. repeat split.
  - intros ->. reflexivity.
  - intros H40 H70. rewrite (PyFacts.le_not_lt _ _ H40), H70. reflexivity.
  - intros H70.
    rewrite (PyFacts.ge_not_lt _ _ (ge_int_mono health 40 70 ltac:(lia) H70)).
    rewrite (PyFacts.ge_not_lt _ _ H70). reflexivity.
Qed.

Lemma monitor_pipe_thresholds_witness :
  monitor_pipe (PyInt 39) = (msg_warning, PyFloat f0_6) /\
  monitor_pipe (PyInt 55) = (msg_moderate, PyFloat f0_8) /\
  monitor_pipe (PyFloat (B64.literal 1205 10)) = (msg_optimal, PyFloat f1_0).
Proof.
  destruct monitor_pipe_thresholds as [A _].
  split; [|split].
  - apply (A (PyInt 39)). reflexivity.
  - apply (A (PyInt 55)); reflexivity.
  - apply (A (PyFloat (B64.literal 1205 10))). vm_compute. reflexivity.
Defined.

(* ================================================================== *)
(** ** The end-to-end example *)
(* ================================================================== *)

(** C4, as stated, fails on discharge: for temp=600, wasted=80,
    device=15, system=20, pipe_health=100, storage=500 the run leaves
    discharge = 480.6 * 0.75, which is not the float 360.45. *)
Lemma example_discharge_is_not_360_45 :
  exists o, evaluate (slider_inputs 600 80 15 20 100 500) = Ok o /\
            Py.eq (discharge o) (PyFloat (B64.literal 36045 100)) = false.
Proof. exists example_outputs. split; vm_compute; reflexivity. Qed.

(** C4, amended. For temp=600, wasted=80, device=15, system=20,
    pipe_health=100, storage=500 the run returns geo_output=300.0,
    waste_output=56.0, teg_recovery=124.6, pipe_efficiency=1.0,
    total_output=480.6 and charge=480.6, each the float of that literal,
    with the optimal status; discharge is the float next above 360.45
    (360.45000000000005); and the seven metrics, printed with two
    decimals, read 300.00, 56.00, 124.60, 1.00, 480.60, 480.60, 360.45. *)
Theorem example_end_to_end :
  exists o,
    evaluate (slider_inputs 600 80 15 20 100 500) = Ok o /\
    geo_output o = PyFloat (B64.literal 300 1) /\
    waste_output o = PyFloat (B64.literal 56 1) /\
    teg_recovery o = PyFloat (B64.literal 1246 10) /\
    pipe_efficiency o = PyFloat (B64.literal 10 10) /\
    total_output o = PyFloat (B64.literal 4806 10) /\
    charge o = PyFloat (B64.literal 4806 10) /\
    pipe_status_msg o = msg_optimal /\
    discharge o = PyFloat (S754_finite false 6341103459709748 (-44)) /\
    B64.literal 36045 100 = S754_finite false 6341103459709747 (-44) /\
    metrics o =
      Ok ["300.00"; "56.00"; "124.60"; "1.00"; "480.60"; "480.60"; "360.45"]%string.
Proof. exists example_outputs. repeat split; vm_compute; reflexivity. Qed.

(* ================================================================== *)
(** ** Waste-heat recovery *)
(* ================================================================== *)

(** C6. wasted_energy_recovery(wasted) is 0.7 * wasted, with 0.7 the float
    nearest to 7/10: it is that Python product for every number, and for
    every wasted within [10, 200], an int or a well-formed float, it
    returns the binary64 product of 0.7 and the float of wasted, a finite
    float that is not negative. *)
Theorem wasted_energy_recovery_formula :
  (forall wasted : num,
      wasted_energy_recovery wasted = Py.mul (PyFloat (B64.literal 7 10)) wasted) /\
  (forall wasted : num, in_range 10 200 wasted ->
      exists x,
        Py.to_float wasted = Ok x /\
        wasted_energy_recovery wasted = Ok (PyFloat (B64.mul f0_7 x)) /\
        B64.is_finite (B64.mul f0_7 x) = true /\
        Py.ge (PyFloat (B64.mul f0_7 x)) (PyInt 0) = true).
Proof.
  split; [reflexivity|].
  intros wasted R.
  destruct (Run.in_range_to_float 10 200 8 wasted ltac:(lia) ltac:(reflexivity)
              ltac:(lia) R) as (x & E & [F _] & S & _).
  specialize (S ltac:(lia)).
  exists x. split; [exact E|].
  split; [unfold wasted_energy_recovery; apply PyFacts.mul_float_l; exact E|].
  pose proof (Run.nonneg_mul f0_7 x 0 9 9 Run.nonneg_f0_7 (conj F S)
                ltac:(lia) ltac:(lia)) as N.
  destruct N as [FN SN].
  split; [exact (PyFacts.fin_finite _ _ FN)|].
  exact (PyFacts.nonneg_ge_0 _ _ FN SN).
Qed.

Lemma wasted_energy_recovery_formula_witness :
  exists x,
    Py.to_float (PyInt 80) = Ok x /\
    wasted_energy_recovery (PyInt 80) = Ok (PyFloat (B64.mul f0_7 x)) /\
    B64.is_finite (B64.mul f0_7 x) = true /\
    Py.ge (PyFloat (B64.mul f0_7 x)) (PyInt 0) = true.
Proof.
  destruct wasted_energy_recovery_formula as (_ & A).
  apply (A (PyInt 80)). repeat split; reflexivity.
Defined.

(* ================================================================== *)
(** ** No carry-over between runs *)
(* ================================================================== *)

Lemma session_evaluate (g : globals) (ws : list Inputs) :
  session g ws = map evaluate ws.
Proof.
  revert g. induction ws as [|w rest IH]; intros g; [reflexivity|].
  cbn [session map]. unfold evaluate at 1.
  rewrite (rerun_pipeline [] w), <- (rerun_pipeline g w). unfold rerun.
  destruct (run (script w) g) as [g'|e]; cbn [Py.bind]; rewrite IH; reflexivity.
Qed.

(** C9. The outputs of a run are a function of the six inputs alone: two
    runs on the same inputs, from any two sets of left-over globals,
    return the same eight outputs (or raise the same exception); and in a
    session, where each run starts from what the previous one left, the
    k-th result is that of a fresh run on the k-th inputs. *)
Theorem run_is_stateless :
  (forall (g0 g1 : globals) (w : Inputs), rerun g0 w = rerun g1 w) /\
  (forall (g : globals) (ws : list Inputs), session g ws = map evaluate ws).
Proof.
  split.
  - intros g0 g1 w. rewrite !rerun_pipeline. reflexivity.
  - apply session_evaluate.
Qed.

(* ================================================================== *)
(** ** Geothermal output *)
(* ================================================================== *)

Lemma pow2_pos (k : Z) : 0 <= k -> 0 < 2 ^ k.
Proof. intros. apply Z.pow_pos_nonneg; lia. Qed.

Lemma compare_mul_pos (a b p : Z) : 0 < p -> (a * p ?= b * p) = (a ?= b).
Proof.
  intros Hp.
  destruct (Z.compare_spec a b), (Z.compare_spec (a * p) (b * p));
    try reflexivity; nia.
Qed.

Lemma bounded_facts (m : positive) (e : Z) :
  SpecFloat.bounded B64.prec B64.emax m e = true ->
  -1074 <= e /\ Zpos m < 2 ^ 53 /\ (-1074 < e -> 2 ^ 52 <= Zpos m).
Proof.
  intros Hb. apply B64Facts.bounded_iff in Hb. destruct Hb as [Hc He].
  pose proof (B64Facts.Zdigits2_pos (Zpos m) ltac:(lia)) as Hd.
  split; [lia|]. split.
  - apply B64Facts.Zdigits2_lt_pow2; lia.
  - intros Hn. apply B64Facts.Zdigits2_ge_pow2; lia.
Qed.

(** On well-formed positive floats the order is that of the values. *)
Lemma compare_scaled_pos (m1 m2 : positive) (e1 e2 : Z) :
  SpecFloat.bounded B64.prec B64.emax m1 e1 = true ->
  SpecFloat.bounded B64.prec B64.emax m2 e2 = true ->
  B64.compare (S754_finite false m1 e1) (S754_finite false m2 e2) =
  Some (Zpos m1 * 2 ^ (e1 + 1074) ?= Zpos m2 * 2 ^ (e2 + 1074)).
Proof.
  intros B1 B2.
  destruct (bounded_facts m1 e1 B1) as (L1 & U1 & N1).
  destruct (bounded_facts m2 e2 B2) as (L2 & U2 & N2).
  unfold B64.compare, SFcompare. f_equal.
  change (Pos.compare_cont Eq m1 m2) with (Zpos m1 ?= Zpos m2).
  pose proof (pow2_pos (e1 + 1074) ltac:(lia)) as P1.
  pose proof (pow2_pos (e2 + 1074) ltac:(lia)) as P2.
  change (2 ^ 53) with (2 * 2 ^ 52) in U1, U2.
  destruct (Z.compare_spec e1 e2) as [->|Hlt|Hgt].
  - rewrite compare_mul_pos by assumption. reflexivity.
  - symmetry. apply Z.compare_lt_iff.
    replace (e2 + 1074) with ((e1 + 1074) + (e2 - e1)) by lia.
    rewrite (Z.pow_add_r 2 (e1 + 1074) (e2 - e1)) by lia.
    assert (2 ^ 1 <= 2 ^ (e2 - e1)) by (apply Z.pow_le_mono_r; lia).
    change (2 ^ 1) with 2 in H. specialize (N2 ltac:(lia)).
    assert (K : Zpos m1 < Zpos m2 * 2 ^ (e2 - e1)) by nia.
    rewrite (Z.mul_comm (2 ^ (e1 + 1074))), Z.mul_assoc.
    apply Z.mul_lt_mono_pos_r; assumption.
  - symmetry. apply Z.compare_gt_iff.
    replace (e1 + 1074) with ((e2 + 1074) + (e1 - e2)) by lia.
    rewrite (Z.pow_add_r 2 (e2 + 1074) (e1 - e2)) by lia.
    assert (2 ^ 1 <= 2 ^ (e1 - e2)) by (apply Z.pow_le_mono_r; lia).
    change (2 ^ 1) with 2 in H. specialize (N1 ltac:(lia)).
    assert (K : Zpos m2 < Zpos m1 * 2 ^ (e1 - e2)) by nia.
    rewrite (Z.mul_comm (2 ^ (e2 + 1074))), Z.mul_assoc.
    apply Z.mul_lt_mono_pos_r; assumption.
Qed.

(** The exact comparison of a well-formed float with an [int] is that of
    the values. *)
Lemma compare_float_int_scaled (s : bool) (m : positive) (e n : Z) :
  -1074 <= e ->
  Py.compare_float_int (S754_finite s m e) n =
  Some ((if s then Zneg m else Zpos m) * 2 ^ (e + 1074) ?= n * 2 ^ 1074).
Proof.
  intros He. unfold Py.compare_float_int. cbv zeta. f_equal.
  set (sm := if s then Zneg m else Zpos m).
  pose proof (pow2_pos 1074 ltac:(lia)) as P.
  destruct (0 <=? e) eqn:E.
  - apply Z.leb_le in E.
    rewrite Z.pow_add_r by lia. rewrite Z.mul_assoc.
    rewrite compare_mul_pos by assumption. reflexivity.
  - apply Z.leb_gt in E.
    pose proof (pow2_pos (e + 1074) ltac:(lia)) as Q.
    rewrite <- (compare_mul_pos sm (n * 2 ^ (- e)) (2 ^ (e + 1074))) by assumption.
    rewrite <- Z.mul_assoc, <- Z.pow_add_r by lia.
    replace (- e + (e + 1074)) with 1074 by lia. reflexivity.
Qed.

(** Conversion of an [int] of at most 53 bits is exact. *)
Lemma of_Z_exact (p : positive) :
  Zdigits2 (Zpos p) <= 53 ->
  exists m e,
    B64.of_Z (Zpos p) = S754_finite false m e /\
    SpecFloat.bounded B64.prec B64.emax m e = true /\ -1074 < e /\
    Zpos m * 2 ^ (e + 1074) = Zpos p * 2 ^ 1074.
Proof.
  intros Hd. pose proof (B64Facts.Zdigits2_pos (Zpos p) ltac:(lia)) as Hd0.
  unfold B64.of_Z, binary_normalize, binary_round.
  pose proof (B64Facts.shl_align_spec p 0
                (fexp B64.prec B64.emax (Zpos (digits2_pos p) + 0))) as [Hm He].
  destruct (shl_align p 0 _) as [mz ez]. cbn [fst snd] in Hm, He.
  change (Zpos (digits2_pos p)) with (Zdigits2 (Zpos p)) in He.
  rewrite B64Facts.fexp_eq in He.
  assert (Ez : ez = Zdigits2 (Zpos p) - 53) by lia.
  assert (Hdz : Zdigits2 (Zpos mz) = 53).
  { rewrite Hm, B64Facts.Zdigits2_mul_pow2 by lia. lia. }
  assert (Hb : SpecFloat.bounded B64.prec B64.emax mz ez = true).
  { apply B64Facts.bounded_iff. lia. }
  exists mz, ez.
  split.
  - replace (Zpos mz) with (Zpos mz * 2 ^ 0) by (change (2 ^ 0) with 1; lia).
    replace ez with (ez - 0) at 1 by lia.
    apply B64Facts.binary_round_aux_exact; [lia|exact Hb].
  - split; [exact Hb|]. split; [lia|].
    rewrite Hm, <- Z.mul_assoc, <- Z.pow_add_r by lia.
    f_equal. f_equal. lia.
Qed.

Lemma mul_two_l (s : bool) (m : positive) (e : Z) :
  SpecFloat.bounded B64.prec B64.emax m e = true ->
  B64.mul (B64.of_Z 2) (S754_finite s m (e - 1)) = S754_finite s m e.
Proof.
  intros Hb. change (B64.of_Z 2) with (S754_finite false 4503599627370496 (-51)).
  unfold B64.mul, SFmul. rewrite xorb_false_l.
  rewrite Pos.mul_comm, Pos2Z.inj_mul.
  change (Zpos 4503599627370496) with (2 ^ 52).
  replace (-51 + (e - 1)) with (e - 52) by lia.
  apply B64Facts.binary_round_aux_exact; [lia|assumption].
Qed.

(** A well-formed float between 300 and 900 is positive and normal. *)
Lemma in_range_normal (x : B64.float) :
  in_range 300 900 (PyFloat x) ->
  exists m e, x = S754_finite false m e /\
              SpecFloat.bounded B64.prec B64.emax m e = true /\ -1074 < e.
Proof.
  intros R.
  destruct (Run.in_range_float 300 900 10 x ltac:(lia) ltac:(reflexivity) ltac:(lia) R)
    as [[F _] S].
  specialize (S ltac:(lia)).
  destruct R as (Hv & Hl & _).
  destruct x as [s|s| |s m e]; try contradiction.
  - discriminate Hl.
  - cbn [B64.sign] in S. subst s. destruct F as [Hb _].
    exists m, e. split; [reflexivity|]. split; [exact Hb|].
    destruct (bounded_facts m e Hb) as (L & U & _).
    destruct (Z.eq_dec e (-1074)) as [->|]; [exfalso|lia].
    revert Hl. unfold Py.le, Py.compare.
    rewrite compare_float_int_scaled by lia. unfold option_map, CompOpp.
    change (-1074 + 1074) with 0. change (2 ^ 0) with 1.
    assert (2 ^ 53 < 2 ^ 1074) by (apply Z.pow_lt_mono_r; lia).
    destruct (Z.compare_spec (Zpos m * 1) (300 * 2 ^ 1074)); try discriminate; lia.
Qed.

(** An in-range temperature converts, exactly, to a positive normal
    float. *)
Lemma temp_in_range (temp : num) :
  in_range 300 900 temp ->
  exists m e,
    Py.to_float temp = Ok (S754_finite false m e) /\
    SpecFloat.bounded B64.prec B64.emax m e = true /\ -1074 < e /\
    Zpos m * 2 ^ (e + 1074) = scaled_num temp.
Proof.
  intros R. destruct temp as [n|x].
  - destruct R as (_ & Hl & Hh). apply Run.le_int_int in Hl, Hh.
    destruct n as [|p|p]; try lia.
    destruct (of_Z_exact p) as (m & e & E & Hb & He & Hs).
    { apply (Z.le_trans _ 10); [|lia].
      apply PyFacts.Zdigits2_le; [lia|change (2 ^ 10) with 1024; lia]. }
    exists m, e. cbn [Py.to_float scaled_num].
    rewrite (Run.float_of_int_small (Zpos p) 10)
      by (change (2 ^ 10) with 1024; lia).
    rewrite E. auto.
  - destruct (in_range_normal x R) as (m & e & -> & Hb & He).
    exists m, e. cbn [Py.to_float scaled_num scaled]. auto.
Qed.

Lemma geothermal_energy_half (temp : num) (m : positive) (e : Z) :
  Py.to_float temp = Ok (S754_finite false m e) ->
  SpecFloat.bounded B64.prec B64.emax m e = true -> -1074 < e ->
  geothermal_energy temp = Ok (PyFloat (S754_finite false m (e - 1))).
Proof.
  intros E Hb He. unfold geothermal_energy.
  rewrite (PyFacts.mul_float_l _ _ _ E). unfold B64.mul.
  rewrite (B64Facts.mul_half_l false m e Hb He). reflexivity.
Qed.

Lemma compare_in_range (a b : num) :
  in_range 300 900 a -> in_range 300 900 b ->
  Py.compare a b = Some (scaled_num a ?= scaled_num b).
Proof.
  intros Ra Rb.
  pose proof (pow2_pos 1074 ltac:(lia)) as P.
  destruct a as [x|x], b as [y|y]; cbn [Py.compare scaled_num].
  - rewrite compare_mul_pos by assumption. reflexivity.
  - destruct (in_range_normal y Rb) as (m & e & -> & Hb & He).
    rewrite compare_float_int_scaled by lia. cbn [option_map scaled].
    rewrite <- Z.compare_antisym. reflexivity.
  - destruct (in_range_normal x Ra) as (m & e & -> & Hb & He).
    rewrite compare_float_int_scaled by lia. reflexivity.
  - destruct (in_range_normal x Ra) as (m1 & e1 & -> & B1 & H1).
    destruct (in_range_normal y Rb) as (m2 & e2 & -> & B2 & H2).
    apply compare_scaled_pos; assumption.
Qed.

Lemma bounded_pred (m : positive) (e : Z) :
  SpecFloat.bounded B64.prec B64.emax m e = true -> -1074 < e ->
  SpecFloat.bounded B64.prec B64.emax m (e - 1) = true.
Proof.
  intros Hb He. apply B64Facts.bounded_iff in Hb. apply B64Facts.bounded_iff. lia.
Qed.

Lemma scaled_pred (m : positive) (e : Z) :
  -1074 < e -> Zpos m * 2 ^ (e + 1074) = (Zpos m * 2 ^ (e - 1 + 1074)) * 2.
Proof.
  intros He. replace (e + 1074) with (e - 1 + 1074 + 1) by lia.
  rewrite Z.pow_add_r by lia. change (2 ^ 1) with 2. lia.
Qed.

(** C5. geothermal_energy(temp) is 0.5 * temp for every number.  For a
    temperature within [300, 900], an int or a well-formed float, the
    product is exact (twice the output equals temp), and the function is
    monotonic non-decreasing there: the outputs of two such temperatures
    compare as the temperatures do, so t1 <= t2 gives
    geothermal_energy(t1) <= geothermal_energy(t2). *)
Theorem geothermal_energy_monotone :
  (forall temp : num,
      geothermal_energy temp = Py.mul (PyFloat (B64.literal 5 10)) temp) /\
  (forall temp : num, in_range 300 900 temp ->
      exists g g2,
        geothermal_energy temp = Ok (PyFloat g) /\
        Py.mul (PyInt 2) (PyFloat g) = Ok g2 /\ Py.eq g2 temp = true) /\
  (forall t1 t2 : num,
      in_range 300 900 t1 -> in_range 300 900 t2 ->
      exists g1 g2,
        geothermal_energy t1 = Ok (PyFloat g1) /\
        geothermal_energy t2 = Ok (PyFloat g2) /\
        Py.compare (PyFloat g1) (PyFloat g2) = Py.compare t1 t2 /\
        (Py.le t1 t2 = true -> Py.le (PyFloat g1) (PyFloat g2) = true)).
Proof.
  split; [reflexivity|]. split.
  - intros temp R.
    destruct (temp_in_range temp R) as (m & e & E & Hb & He & Hs).
    exists (S754_finite false m (e - 1)), (PyFloat (S754_finite false m e)).
    split; [exact (geothermal_energy_half temp m e E Hb He)|].
    split.
    + unfold Py.mul. cbn [Py.to_float].
      change (Py.float_of_int 2) with (Ok (B64.of_Z 2)). cbn [Py.bind].
      rewrite mul_two_l by assumption. reflexivity.
    + unfold Py.eq. destruct (bounded_facts m e Hb) as (L & _).
      destruct temp as [n|x]; cbn [Py.compare].
      * rewrite compare_float_int_scaled by lia. cbn [scaled_num] in Hs.
        rewrite Hs, Z.compare_refl. reflexivity.
      * cbn [Py.to_float] in E. injection E as ->.
        rewrite compare_scaled_pos by assumption.
        rewrite Z.compare_refl. reflexivity.
  - intros t1 t2 R1 R2.
    destruct (temp_in_range t1 R1) as (m1 & e1 & E1 & B1 & H1 & S1).
    destruct (temp_in_range t2 R2) as (m2 & e2 & E2 & B2 & H2 & S2).
    exists (S754_finite false m1 (e1 - 1)), (S754_finite false m2 (e2 - 1)).
    split; [exact (geothermal_energy_half t1 m1 e1 E1 B1 H1)|].
    split; [exact (geothermal_energy_half t2 m2 e2 E2 B2 H2)|].
    assert (C : Py.compare (PyFloat (S754_finite false m1 (e1 - 1)))
                           (PyFloat (S754_finite false m2 (e2 - 1)))
                = Py.compare t1 t2).
    { rewrite (compare_in_range t1 t2 R1 R2), <- S1, <- S2.
      cbn [Py.compare].
      rewrite compare_scaled_pos by (apply bounded_pred; assumption).
      rewrite (scaled_pred m1 e1 H1), (scaled_pred m2 e2 H2).
      rewrite compare_mul_pos by lia. reflexivity. }
    split; [exact C|]. unfold Py.le. rewrite C. trivial.
Qed.

Lemma geothermal_energy_monotone_witness :
  (exists g g2,
      geothermal_energy (PyInt 600) = Ok (PyFloat g) /\
      Py.mul (PyInt 2) (PyFloat g) = Ok g2 /\ Py.eq g2 (PyInt 600) = true) /\
  (exists g1 g2,
      geothermal_energy (PyInt 301) = Ok (PyFloat g1) /\
      geothermal_energy (PyFloat (B64.literal 8999 10)) = Ok (PyFloat g2) /\
      Py.compare (PyFloat g1) (PyFloat g2) =
        Py.compare (PyInt 301) (PyFloat (B64.literal 8999 10)) /\
      (Py.le (PyInt 301) (PyFloat (B64.literal 8999 10)) = true ->
       Py.le (PyFloat g1) (PyFloat g2) = true)).
Proof.
  destruct geothermal_energy_monotone as (_ & A & B).
  split.
  - apply (A (PyInt 600)). repeat split; reflexivity.
  - apply (B (PyInt 301) (PyFloat (B64.literal 8999 10)));
      repeat split; vm_compute; reflexivity.
Defined.

(* ================================================================== *)
(** ** Ranges of the derived outputs *)
(* ================================================================== *)

(** C7. For all inputs within the ranges of the data model
    (300<=temp<=900, 10<=wasted<=200, 0<=device_pct<=50,
    0<=system_pct<=50, 0<=pipe_health<=100, 100<=storage<=1000), ints as
    the sliders deliver them or floats, the run returns; every derived
    output (geo_output, waste_output, teg_recovery, total_output, charge,
    discharge) is >= 0, the five that are always floats are finite; and
    pipe_efficiency is one of 0.6, 0.8, 1.0. *)
Theorem derived_outputs_nonneg (w : Inputs) :
  inputs_in_range w ->
  exists o,
    evaluate w = Ok o /\
    Py.ge (geo_output o) (PyInt 0) = true /\
    Py.ge (waste_output o) (PyInt 0) = true /\
    Py.ge (teg_recovery o) (PyInt 0) = true /\
    Py.ge (total_output o) (PyInt 0) = true /\
    Py.ge (charge o) (PyInt 0) = true /\
    Py.ge (discharge o) (PyInt 0) = true /\
    (exists geo waste teg total dis,
        geo_output o = PyFloat geo /\ waste_output o = PyFloat waste /\
        teg_recovery o = PyFloat teg /\ total_output o = PyFloat total /\
        discharge o = PyFloat dis /\
        B64.is_finite geo = true /\ B64.is_finite waste = true /\
        B64.is_finite teg = true /\ B64.is_finite total = true /\
        B64.is_finite dis = true) /\
    (pipe_efficiency o = PyFloat (B64.literal 6 10) \/
     pipe_efficiency o = PyFloat (B64.literal 8 10) \/
     pipe_efficiency o = PyFloat (B64.literal 10 10)).
Proof.
  intros Hr.
  destruct (Run.ranged_pipeline w Hr)
    as (geo & waste & teg & total & dis & E
        & [Fg Sg] & [Fw Sw] & Nt & [Fo So] & [Fd Sd] & Gc).
  eexists. split; [unfold evaluate; rewrite rerun_pipeline; exact E|].
  cbn [geo_output waste_output teg_recovery pipe_efficiency total_output
       charge discharge].
  split; [exact (PyFacts.nonneg_ge_0 _ _ Fg Sg)|].
  split; [exact (PyFacts.nonneg_ge_0 _ _ Fw Sw)|].
  split; [exact (Run.nonneg0_ge_0 _ _ Nt)|].
  split; [exact (PyFacts.nonneg_ge_0 _ _ Fo So)|].
  split.
  { destruct (PyFacts.min_cases (PyFloat total) (storage_capacity w)) as [-> | ->].
    - exact (PyFacts.nonneg_ge_0 _ _ Fo So).
    - exact Gc. }
  split; [exact (PyFacts.nonneg_ge_0 _ _ Fd Sd)|].
  split.
  { exists geo, waste, teg, total, dis. destruct Nt as [Ft _].
    repeat split; eapply PyFacts.fin_finite; eassumption. }
  apply Run.monitor_pipe_factor.
Qed.

Lemma derived_outputs_nonneg_witness :
  exists o,
    evaluate (slider_inputs 300 10 0 0 0 100) = Ok o /\
    Py.ge (geo_output o) (PyInt 0) = true /\
    Py.ge (waste_output o) (PyInt 0) = true /\
    Py.ge (teg_recovery o) (PyInt 0) = true /\
    Py.ge (total_output o) (PyInt 0) = true /\
    Py.ge (charge o) (PyInt 0) = true /\
    Py.ge (discharge o) (PyInt 0) = true /\
    (exists geo waste teg total dis,
        geo_output o = PyFloat geo /\ waste_output o = PyFloat waste /\
        teg_recovery o = PyFloat teg /\ total_output o = PyFloat total /\
        discharge o = PyFloat dis /\
        B64.is_finite geo = true /\ B64.is_finite waste = true /\
        B64.is_finite teg = true /\ B64.is_finite total = true /\
        B64.is_finite dis = true) /\
    (pipe_efficiency o = PyFloat (B64.literal 6 10) \/
     pipe_efficiency o = PyFloat (B64.literal 8 10) \/
     pipe_efficiency o = PyFloat (B64.literal 10 10)).
Proof.
  apply (derived_outputs_nonneg (slider_inputs 300 10 0 0 0 100)).
  apply Run.slider_in_range. unfold in_slider_range. lia.
Defined.

(* ================================================================== *)
(** ** The charted series *)
(* ================================================================== *)

Lemma hours_nth (n : nat) (d : Z) : (n < 24)%nat -> nth n hours d = Z.of_nat n.
Proof.
  intros Hn. unfold hours.
  rewrite (nth_indep _ d (Z.of_nat 0)) by (rewrite length_map, length_seq; exact Hn).
  rewrite map_nth, seq_nth by exact Hn. reflexivity.
Qed.

Lemma series_nth (f : Z -> B64.float) (n : nat) :
  (n < 24)%nat -> nth n (map f hours) S754_nan = f (Z.of_nat n).
Proof.
  intros Hn.
  rewrite (nth_indep _ S754_nan (f 0)) by (rewrite length_map; exact Hn).
  rewrite map_nth, hours_nth by exact Hn. reflexivity.
Qed.

Section Series.

Variable np_sin : B64.float -> B64.float.

(** What the two special values need of the platform's sine: it maps
    [+0.0] to [+0.0], and the double nearest to pi/2 (which is what
    [np.pi * 12 / 24] evaluates to) to [1.0]. *)
Hypothesis sin_0 : np_sin B64.zero = B64.zero.
Hypothesis sin_half_pi :
  np_sin (S754_finite false 7074237752028440 (-52)) = B64.one.

Lemma generation_at_0 (total : B64.float) :
  B64.is_finite total = true ->
  generation_at np_sin total 0 = S754_zero (B64.sign total).
Proof.
  intros Hf. unfold generation_at.
  change (phase 0) with B64.zero. rewrite sin_0.
  destruct total as [s|s| |s m e]; try discriminate; simpl;
    rewrite xorb_false_r; reflexivity.
Qed.

Lemma generation_at_12 (total : B64.float) :
  B64.valid total = true -> generation_at np_sin total 12 = total.
Proof.
  intros Hv. unfold generation_at.
  change (phase 12) with (S754_finite false 7074237752028440 (-52)).
  rewrite sin_half_pi.
  change (B64.mul B64.one B64.one) with B64.one.
  apply B64Facts.mul_one_r. exact Hv.
Qed.

End Series.

(** C8. For every float total_output the charted series has 24 entries,
    the one at hour h being total_output * sin(pi*h/24)^2 as evaluated in
    binary64.  With a sine that is exact at 0 and at the double nearest
    to pi/2: for every finite total_output, generation(0) is a zero, so
    generation(0) == 0, and generation(12) = total_output; and in every
    run on in-range inputs, where total_output is finite and not
    negative, generation(0) is +0.0 and generation(12) is total_output. *)
Theorem generation_series (np_sin : B64.float -> B64.float) :
  np_sin B64.zero = B64.zero ->
  np_sin (S754_finite false 7074237752028440 (-52)) = B64.one ->
  (forall total : B64.float,
      exists series,
        generation np_sin (PyFloat total) = Ok series /\
        List.length series = 24%nat /\
        (forall n : nat, (n < 24)%nat ->
            nth n series S754_nan =
            B64.mul total
              (B64.mul
                 (np_sin (B64.div (B64.mul np_pi (B64.of_Z (Z.of_nat n))) (B64.of_Z 24)))
                 (np_sin (B64.div (B64.mul np_pi (B64.of_Z (Z.of_nat n))) (B64.of_Z 24))))) /\
        (B64.valid total = true -> B64.is_finite total = true ->
         Py.eq (PyFloat (nth 0 series S754_nan)) (PyInt 0) = true /\
         nth 12 series S754_nan = total)) /\
  (forall w : Inputs,
      inputs_in_range w ->
      exists o total series,
        evaluate w = Ok o /\
        total_output o = PyFloat total /\
        generation np_sin (total_output o) = Ok series /\
        nth 0 series S754_nan = B64.zero /\
        nth 12 series S754_nan = total).
Proof.
  intros H0 H12. split.
  - intros total. exists (map (generation_at np_sin total) hours).
    split; [reflexivity|]. split; [reflexivity|]. split.
    + intros n Hn. rewrite series_nth by exact Hn. reflexivity.
    + intros Hv Hf.
      rewrite (series_nth _ 0) by lia. rewrite (series_nth _ 12) by lia.
      change (Z.of_nat 0) with 0. change (Z.of_nat 12) with 12.
      rewrite (generation_at_0 np_sin H0 total Hf).
      rewrite (generation_at_12 np_sin H12 total Hv).
      split; reflexivity.
  - intros w Hr.
    destruct (Run.ranged_pipeline w Hr)
      as (geo & waste & teg & total & dis & E & _ & _ & _ & [Fo So] & _).
    eexists. exists total, (map (generation_at np_sin total) hours).
    split; [unfold evaluate; rewrite rerun_pipeline; exact E|].
    cbn [total_output]. split; [reflexivity|]. split; [reflexivity|].
    rewrite (series_nth _ 0) by lia. rewrite (series_nth _ 12) by lia.
    change (Z.of_nat 0) with 0. change (Z.of_nat 12) with 12.
    rewrite (generation_at_0 np_sin H0 total (PyFacts.fin_finite _ _ Fo)).
    rewrite (generation_at_12 np_sin H12 total (PyFacts.fin_valid _ _ Fo)).
    rewrite So. split; reflexivity.
Qed.

Lemma generation_series_witness :
  (exists series,
      generation table_sin (PyFloat (B64.literal 4806 10)) = Ok series /\
      Py.eq (PyFloat (nth 0 series S754_nan)) (PyInt 0) = true /\
      nth 12 series S754_nan = B64.literal 4806 10) /\
  (exists o total series,
      evaluate (slider_inputs 600 80 15 20 100 500) = Ok o /\
      total_output o = PyFloat total /\
      generation table_sin (total_output o) = Ok series /\
      nth 0 series S754_nan = B64.zero /\
      nth 12 series S754_nan = total).
Proof.
  destruct (generation_series table_sin) as [A B].
  - vm_compute. reflexivity.
  - vm_compute. reflexivity.
  - split.
    + destruct (A (B64.literal 4806 10)) as (series & E & _ & _ & V).
      exists series. split; [exact E|]. apply V; vm_compute; reflexivity.
    + apply (B (slider_inputs 600 80 15 20 100 500)).
      apply Run.slider_in_range. unfold in_slider_range. lia.
Defined.

(* ================================================================== *)
(** ** Inputs outside the slider ranges *)
(* ================================================================== *)

(** C10, as stated, fails on "never raises for any real inputs": an [int]
    too large for a double makes the first multiplication raise
    OverflowError, in the function and in the run. *)
Lemma huge_int_raises :
  geothermal_energy (PyInt (2 ^ 1024)) = Raise OverflowError /\
  evaluate (slider_inputs (2 ^ 1024) 80 15 20 100 500) = Raise OverflowError.
Proof. split; vm_compute; reflexivity. Qed.

Lemma to_float_int (n : Z) :
  Z.abs n < 2 ^ 1001 -> Py.to_float (PyInt n) = Ok (B64.of_Z n).
Proof.
  intros Hn. cbn [Py.to_float].
  apply (PyFacts.float_of_int_fin n 1001); [|lia].
  apply PyFacts.Zdigits2_le; [lia|exact Hn].
Qed.

Lemma pipeline_returns (w : Inputs) (ft fw fp fc : B64.float) (pct : num) :
  Py.to_float (geothermal_temp w) = Ok ft ->
  Py.to_float (wasted_energy_input w) = Ok fw ->
  Py.add (teg_device_level w) (teg_system_level w) = Ok pct ->
  Py.to_float pct = Ok fp ->
  Py.to_float (storage_capacity w) = Ok fc ->
  exists o, pipeline w = Ok o.
Proof.
  intros Ht Hw Hp Hfp Hc.
  destruct (Run.pipeline_value w ft fw fp fc pct Ht Hw Hp Hfp Hc)
    as (eff & dis & _ & E & _).
  eexists. exact E.
Qed.

Lemma lt_0_negative (x : B64.float) :
  Py.lt (PyFloat x) (PyInt 0) = true ->
  x = S754_infinity true \/ exists m e, x = S754_finite true m e.
Proof.
  unfold Py.lt, Py.compare, Py.compare_float_int. cbv zeta.
  destruct x as [s|s| |s m e]; try discriminate.
  - destruct s; [auto|discriminate].
  - destruct s; [eauto|]. intros H. exfalso. revert H.
    destruct (0 <=? e) eqn:E.
    + apply Z.leb_le in E.
      assert (0 < 2 ^ e) by (apply Z.pow_pos_nonneg; lia).
      assert (0 < Zpos m * 2 ^ e) by (apply Z.mul_pos_pos; lia).
      destruct (Z.compare_spec (Zpos m * 2 ^ e) 0); try discriminate; lia.
    + discriminate.
Qed.

(** Half of a negative float is negative, the one exception being the
    least one, whose half rounds to [-0.0]. *)
Lemma half_negative (x : B64.float) :
  B64.valid x = true -> Py.lt (PyFloat x) (PyInt 0) = true ->
  x <> B64.least true ->
  Py.lt (PyFloat (B64.mul f0_5 x)) (PyInt 0) = true.
Proof.
  intros Hv Hlt Hne.
  destruct (lt_0_negative x Hlt) as [->|(m & e & ->)]; [reflexivity|].
  unfold B64.valid, valid_binary in Hv.
  pose proof (proj1 (B64Facts.bounded_iff m e) Hv) as [Hc He].
  destruct (Z_lt_le_dec (-1074) e) as [Hn|Hs].
  - unfold B64.mul. rewrite (B64Facts.mul_half_l true m e Hv Hn).
    apply PyFacts.negative_lt_0. reflexivity.
  - assert (e = -1074) by lia. subst e.
    assert (Hm : 2 ^ 1 <= Zpos m).
    { change (2 ^ 1) with 2.
      destruct (Pos.eq_dec m 1) as [->|]; [exfalso; apply Hne; reflexivity|lia]. }
    apply B64Facts.Zdigits2_ge_pow2 in Hm; [|lia|lia].
    destruct (B64Facts.mul_fin f0_5 (S754_finite true m (-1074)) 0
                (Zdigits2 (Zpos m) + -1074) (-1021)) as (F & S & A).
    + apply Run.nonneg_f0_5.
    + split; [exact Hv|lia].
    + lia.
    + lia.
    + specialize (A 0 (Zdigits2 (Zpos m) + -1074)).
      assert (Ab : B64.above (0 + (Zdigits2 (Zpos m) + -1074) - 1)
                     (B64.mul f0_5 (S754_finite true m (-1074)))).
      { apply A; [vm_compute; discriminate|unfold B64.above; lia|lia]. }
      apply PyFacts.negative_lt_0.
      unfold B64.mul in *. cbn [B64.sign xorb] in S.
      destruct (SFmul B64.prec B64.emax f0_5 (S754_finite true m (-1074)));
        unfold B64.above in Ab; try contradiction. exact S.
Qed.

Lemma half_negative_int (n : Z) :
  - 2 ^ 1001 < n < 0 ->
  exists g, geothermal_energy (PyInt n) = Ok (PyFloat g) /\
            Py.lt (PyFloat g) (PyInt 0) = true.
Proof.
  intros Hn.
  assert (Hd : Zdigits2 n <= 1001) by (apply PyFacts.Zdigits2_le; lia).
  destruct (B64Facts.binary_normalize_fin n 0 1001 ltac:(lia) ltac:(lia))
    as (F & S & A).
  fold (B64.of_Z n) in F, S, A.
  assert (Hdp : 0 < Zdigits2 n) by (destruct n; simpl; lia).
  specialize (A ltac:(lia) ltac:(lia)).
  exists (B64.mul f0_5 (B64.of_Z n)). split.
  - unfold geothermal_energy. apply PyFacts.mul_float_l. apply to_float_int. lia.
  - replace (n <? 0) with true in S by (symmetry; apply Z.ltb_lt; lia).
    destruct (B64.of_Z n) as [s|s| |s m e]; unfold B64.above in A;
      try contradiction.
    cbn [B64.sign] in S. subst s. destruct F as [Hb _].
    pose proof (proj1 (B64Facts.bounded_iff m e) Hb) as [Hc He].
    unfold B64.mul. rewrite (B64Facts.mul_half_l true m e Hb ltac:(lia)).
    apply PyFacts.negative_lt_0. reflexivity.
Qed.

(** C10, amended. The pipeline does no range validation or clamping:
    out-of-range inputs go through the same formulas.  It never raises
    for float inputs, whatever their values, nor for int inputs below
    2^1000 in magnitude (an int too large for a double raises
    OverflowError).  monitor_pipe classifies any health >= 70, even above
    100, as optimal with factor 1.0, and any health < 40, even negative,
    as warning with factor 0.6.  A negative temperature yields a negative
    geo_output: for every negative int below 2^1000 in magnitude and for
    every negative float, minus infinity included, except the least
    negative float -2^-1074, whose half rounds to -0.0. *)
Theorem out_of_range_inputs :
  (forall x1 x2 x3 x4 x5 x6 : B64.float,
      exists o,
        evaluate {| geothermal_temp := PyFloat x1;
                    wasted_energy_input := PyFloat x2;
                    teg_device_level := PyFloat x3;
                    teg_system_level := PyFloat x4;
                    pipe_health := PyFloat x5;
                    storage_capacity := PyFloat x6 |} = Ok o) /\
  (forall t w d s h c : Z,
      Z.abs t < 2 ^ 1000 -> Z.abs w < 2 ^ 1000 -> Z.abs d < 2 ^ 1000 ->
      Z.abs s < 2 ^ 1000 -> Z.abs c < 2 ^ 1000 ->
      exists o, evaluate (slider_inputs t w d s h c) = Ok o) /\
  (forall x : B64.float,
      geothermal_energy (PyFloat x) = Ok (PyFloat (B64.mul f0_5 x)) /\
      wasted_energy_recovery (PyFloat x) = Ok (PyFloat (B64.mul f0_7 x))) /\
  (forall u d s : B64.float,
      calculate_teg_recovery (PyFloat u) (PyFloat d) (PyFloat s) =
      Ok (PyFloat (B64.div (B64.mul u (B64.add d s)) (B64.of_Z 100)))) /\
  (forall health : num,
      (Py.ge health (PyInt 70) = true ->
       monitor_pipe health = (msg_optimal, PyFloat f1_0)) /\
      (Py.lt health (PyInt 40) = true ->
       monitor_pipe health = (msg_warning, PyFloat f0_6))) /\
  (forall n : Z, - 2 ^ 1000 < n < 0 ->
      exists g, geothermal_energy (PyInt n) = Ok (PyFloat g) /\
                Py.lt (PyFloat g) (PyInt 0) = true) /\
  (forall x : B64.float,
      B64.valid x = true -> Py.lt (PyFloat x) (PyInt 0) = true ->
      x <> B64.least true ->
      exists g, geothermal_energy (PyFloat x) = Ok (PyFloat g) /\
                Py.lt (PyFloat g) (PyInt 0) = true) /\
  geothermal_energy (PyFloat (B64.least true)) = Ok (PyFloat (S754_zero true)).
Proof.
  split; [|split; [|split; [|split; [|split; [|split; [|split]]]]]].
  - intros x1 x2 x3 x4 x5 x6. unfold evaluate. rewrite rerun_pipeline.
    eapply pipeline_returns; reflexivity.
  - intros t w d s h c Ht Hw Hd Hs Hc. unfold evaluate. rewrite rerun_pipeline.
    assert (P : 2 ^ 1001 = 2 * 2 ^ 1000) by reflexivity.
    eapply (pipeline_returns _ _ _ _ _ (PyInt (d + s)));
      cbn [geothermal_temp wasted_energy_input teg_device_level
           teg_system_level storage_capacity slider_inputs];
      try reflexivity; apply to_float_int; lia.
  - intros x. split; reflexivity.
  - intros u d s. reflexivity.
  - intros health. unfold monitor_pipe. split.
    + intros H70.
      rewrite (PyFacts.ge_not_lt _ _ (ge_int_mono health 40 70 ltac:(lia) H70)).
      rewrite (PyFacts.ge_not_lt _ _ H70). reflexivity.
    + intros ->. reflexivity.
  - intros n Hn. apply half_negative_int.
    assert (P : 2 ^ 1001 = 2 * 2 ^ 1000) by reflexivity. lia.
  - intros x Hv Hlt Hne. exists (B64.mul f0_5 x). split; [reflexivity|].
    apply half_negative; assumption.
  - reflexivity.
Qed.

Lemma out_of_range_inputs_witness :
  (exists o, evaluate (slider_inputs (-40) 5000 75 (-3) 250 0) = Ok o) /\
  monitor_pipe (PyInt 250) = (msg_optimal, PyFloat f1_0) /\
  monitor_pipe (PyFloat (B64.literal (-35) 10)) = (msg_warning, PyFloat f0_6) /\
  (exists g, geothermal_energy (PyInt (-100)) = Ok (PyFloat g) /\
             Py.lt (PyFloat g) (PyInt 0) = true) /\
  (exists g, geothermal_energy (PyFloat (B64.literal (-2731) 10)) = Ok (PyFloat g) /\
             Py.lt (PyFloat g) (PyInt 0) = true).
Proof.
  destruct out_of_range_inputs as (_ & A & _ & _ & B & C & D & _).
  assert (P : 0 < 2 ^ 1000) by (apply Z.pow_pos_nonneg; lia).
  assert (Q : 10000 < 2 ^ 1000).
  { apply (Z.lt_le_trans _ (2 ^ 14)); [reflexivity|].
    apply Z.pow_le_mono_r; lia. }
  split; [|split; [|split; [|split]]].
  - apply (A (-40) 5000 75 (-3) 250 0); simpl Z.abs; lia.
  - apply (B (PyInt 250)). reflexivity.
  - apply (B (PyFloat (B64.literal (-35) 10))). vm_compute. reflexivity.
  - apply (C (-100)). lia.
  - apply (D (B64.literal (-2731) 10)).
    + vm_compute. reflexivity.
    + vm_compute. reflexivity.
    + vm_compute. discriminate.
Defined.

(* ================================================================== *)
(** ** Rounding by value

    Every finite binary64 number is an integer multiple of 2^-1074;
    [scaled] gives that integer.  This part characterises the rounding
    step of the reference specification by value (the result is the
    multiple of the local spacing nearest to the exact value, the even
    one at a tie), derives that rounding is monotone and does not pass a
    representable number, and states it for the three operations of the
    script and for the comparisons. *)
(* ================================================================== *)

Module Exact.

Lemma near_le_int (q n p b : Z) :
  0 < p -> near q n p -> n <= b * p -> q <= b.
Proof.
  intros Hp [[L _] _] H.
  destruct (Z_le_gt_dec q b) as [|G]; [assumption|exfalso].
  assert (E : (b + 1) * p <= q * p) by (apply Z.mul_le_mono_nonneg_r; lia).
  lia.
Qed.

Lemma near_ge_int (q n p b : Z) :
  0 < p -> near q n p -> b * p <= n -> b <= q.
Proof.
  intros Hp [[_ U] _] H.
  destruct (Z_le_gt_dec b q) as [|G]; [assumption|exfalso].
  assert (E : (q + 1) * p <= b * p) by (apply Z.mul_le_mono_nonneg_r; lia).
  lia.
Qed.

Lemma even_succ_false (q : Z) : Z.even q = true -> Z.even (q + 1) = true -> False.
Proof.
  intros H1 H2. rewrite Z.even_add in H2. rewrite H1 in H2. discriminate.
Qed.

Lemma near_mono (q1 q2 n1 p1 n2 p2 : Z) :
  0 < p1 -> 0 < p2 -> near q1 n1 p1 -> near q2 n2 p2 ->
  n1 * p2 <= n2 * p1 -> q1 <= q2.
Proof.
  intros Hp1 Hp2 [[L1 _] T1] [[_ U2] T2] H.
  destruct (Z_le_gt_dec q1 q2) as [|G]; [assumption|exfalso].
  (* (2 q2 + 1) p1 <= (2 q1 - 1) p1 <= 2 n1 and 2 n2 <= (2 q2 + 1) p2 *)
  assert (A : (2 * q2 + 1) * p1 <= (2 * q1 - 1) * p1)
    by (apply Z.mul_le_mono_nonneg_r; lia).
  assert (B : (2 * q2 + 1) * p1 * p2 <= 2 * n1 * p2)
    by (apply Z.mul_le_mono_nonneg_r; lia).
  assert (C : 2 * n2 * p1 <= (2 * q2 + 1) * p2 * p1)
    by (apply Z.mul_le_mono_nonneg_r; lia).
  assert (D : 2 * n1 * p2 = (2 * q2 + 1) * p1 * p2) by lia.
  assert (D' : 2 * n2 * p1 = (2 * q2 + 1) * p2 * p1) by lia.
  assert (E1 : 2 * n1 = (2 * q2 + 1) * p1).
  { apply (Z.mul_reg_r _ _ p2); lia. }
  assert (E2 : 2 * n2 = (2 * q2 + 1) * p2).
  { apply (Z.mul_reg_r _ _ p1); lia. }
  assert (Q : q1 = q2 + 1).
  { assert ((2 * q1 - 1) * p1 <= (2 * q2 + 1) * p1) by lia.
    assert (2 * q1 - 1 <= 2 * q2 + 1) by (apply (Z.mul_le_mono_pos_r _ _ p1); lia).
    lia. }
  subst q1.
  apply (even_succ_false q2); [apply T2|apply T1]; lia.
Qed.

Lemma pow2_le (a b : Z) : 0 <= a <= b -> 2 ^ a <= 2 ^ b.
Proof. intros. apply Z.pow_le_mono_r; lia. Qed.

Lemma pow2_split (a b : Z) : 0 <= a <= b -> 2 ^ b = 2 ^ (b - a) * 2 ^ a.
Proof. intros. rewrite <- Z.pow_add_r by lia. f_equal. lia. Qed.

(** A rounded value does not pass a representable number on the way. *)
Lemma fmt_round_le (num den r b : Z) :
  0 < den -> fmt_round num den r -> representable b ->
  num <= b * den -> r <= b.
Proof.
  intros Hd (g & m & Hg & -> & N & M0 & M1) (gb & mb & Hgb & -> & Hmb) H.
  pose proof (pow2_pos g Hg) as Pg. pose proof (pow2_pos gb Hgb) as Pgb.
  destruct (Z_le_gt_dec g gb) as [Le|Gt].
  - rewrite (pow2_split g gb) by lia. rewrite Z.mul_assoc.
    apply Z.mul_le_mono_nonneg_r; [lia|].
    apply (near_le_int m num (den * 2 ^ g)); [nia|assumption|].
    rewrite (pow2_split g gb) in H by lia. lia.
  - exfalso. destruct (M1 ltac:(lia)) as [L _].
    assert (mb * 2 ^ gb < 2 ^ 53 * 2 ^ gb) by (apply Z.mul_lt_mono_pos_r; lia).
    rewrite <- Z.pow_add_r in H0 by lia.
    assert (2 ^ (53 + gb) <= 2 ^ (g + 52)) by (apply pow2_le; lia).
    assert (mb * 2 ^ gb * den < 2 ^ (g + 52) * den)
      by (apply Z.mul_lt_mono_pos_r; lia).
    lia.
Qed.

Lemma fmt_round_ge (num den r b : Z) :
  0 < den -> fmt_round num den r -> representable b ->
  b * den <= num -> b <= r.
Proof.
  intros Hd (g & m & Hg & -> & N & M0 & M1) (gb & mb & Hgb & -> & Hmb) H.
  pose proof (pow2_pos g Hg) as Pg. pose proof (pow2_pos gb Hgb) as Pgb.
  destruct (Z_le_gt_dec g gb) as [Le|Gt].
  - rewrite (pow2_split g gb) by lia. rewrite Z.mul_assoc.
    apply Z.mul_le_mono_nonneg_r; [lia|].
    apply (near_ge_int m num (den * 2 ^ g)); [nia|assumption|].
    rewrite (pow2_split g gb) in H by lia. lia.
  - destruct (M1 ltac:(lia)) as [L _].
    assert (B : 2 ^ 52 <= m).
    { apply (near_ge_int m num (den * 2 ^ g)); [nia|assumption|].
      rewrite Z.pow_add_r in L by lia. lia. }
    assert (mb * 2 ^ gb < 2 ^ 53 * 2 ^ gb) by (apply Z.mul_lt_mono_pos_r; lia).
    rewrite <- Z.pow_add_r in H0 by lia.
    assert (2 ^ (53 + gb) <= 2 ^ (52 + g)) by (apply pow2_le; lia).
    rewrite (Z.pow_add_r 2 52 g) in H1 by lia.
    assert (2 ^ 52 * 2 ^ g <= m * 2 ^ g) by (apply Z.mul_le_mono_nonneg_r; lia).
    lia.
Qed.

(** Rounding is monotone. *)
Lemma fmt_round_mono (n1 d1 r1 n2 d2 r2 : Z) :
  0 < d1 -> 0 < d2 -> fmt_round n1 d1 r1 -> fmt_round n2 d2 r2 ->
  n1 * d2 <= n2 * d1 -> r1 <= r2.
Proof.
  intros Hd1 Hd2 (g1 & m1 & Hg1 & -> & N1 & Z1 & M1)
         (g2 & m2 & Hg2 & -> & N2 & Z2 & M2) H.
  pose proof (pow2_pos g1 Hg1) as P1. pose proof (pow2_pos g2 Hg2) as P2.
  destruct (Z.lt_trichotomy g1 g2) as [Lt|[Eq|Gt]].
  - (* r1 <= 2^(53+g1) <= 2^(52+g2) <= r2 *)
    assert (A : m1 <= 2 ^ 53).
    { apply (near_le_int m1 n1 (d1 * 2 ^ g1)); [nia|assumption|].
      destruct (Z.eq_dec g1 0) as [->|NZ].
      - specialize (Z1 eq_refl). change (2 ^ 0) with 1. lia.
      - destruct (M1 ltac:(lia)) as [_ U]. rewrite Z.pow_add_r in U by lia. lia. }
    assert (B : 2 ^ 52 <= m2).
    { apply (near_ge_int m2 n2 (d2 * 2 ^ g2)); [nia|assumption|].
      destruct (M2 ltac:(lia)) as [L _]. rewrite Z.pow_add_r in L by lia. lia. }
    assert (m1 * 2 ^ g1 <= 2 ^ 53 * 2 ^ g1) by (apply Z.mul_le_mono_nonneg_r; lia).
    assert (2 ^ 52 * 2 ^ g2 <= m2 * 2 ^ g2) by (apply Z.mul_le_mono_nonneg_r; lia).
    rewrite <- Z.pow_add_r in H0, H1 by lia.
    assert (2 ^ (53 + g1) <= 2 ^ (52 + g2)) by (apply pow2_le; lia).
    lia.
  - subst g2. apply Z.mul_le_mono_nonneg_r; [lia|].
    apply (near_mono m1 m2 n1 (d1 * 2 ^ g1) n2 (d2 * 2 ^ g1));
      [apply Z.mul_pos_pos; lia|apply Z.mul_pos_pos; lia|assumption|assumption|].
    replace (n1 * (d2 * 2 ^ g1)) with (n1 * d2 * 2 ^ g1) by ring.
    replace (n2 * (d1 * 2 ^ g1)) with (n2 * d1 * 2 ^ g1) by ring.
    apply Z.mul_le_mono_nonneg_r; lia.
  - exfalso. destruct (M1 ltac:(lia)) as [L _].
    assert (U : n2 < d2 * 2 ^ (g2 + 53)).
    { destruct (Z.eq_dec g2 0) as [->|NZ].
      - apply Z2. reflexivity.
      - apply M2. lia. }
    assert (2 ^ (g2 + 53) <= 2 ^ (g1 + 52)) by (apply pow2_le; lia).
    assert (d1 * 2 ^ (g1 + 52) * d2 <= n1 * d2) by (apply Z.mul_le_mono_nonneg_r; lia).
    assert (n2 * d1 < d2 * 2 ^ (g2 + 53) * d1) by (apply Z.mul_lt_mono_pos_r; lia).
    assert (d2 * 2 ^ (g2 + 53) * d1 <= d2 * 2 ^ (g1 + 52) * d1).
    { apply Z.mul_le_mono_nonneg_r; [lia|]. apply Z.mul_le_mono_nonneg_l; lia. }
    lia.
Qed.

Lemma shr_1_spec (m : Z) (rb sb : bool) :
  0 <= m ->
  shr_1 (Build_shr_record m rb sb) = Build_shr_record (Z.div2 m) (Z.odd m) (rb || sb).
Proof. destruct m as [|[q|q|]|q]; try lia; reflexivity. Qed.

Lemma located_shr_1 (p n : Z) (r : shr_record) :
  0 < p -> located p n r -> located (2 * p) n (shr_1 r).
Proof.
  intros Hp. destruct r as [m rb sb]. unfold located. cbn [shr_m shr_r shr_s].
  intros (Hm & Hrem & Hr & Hs). rewrite (shr_1_spec m rb sb Hm).
  cbn [shr_m shr_r shr_s].
  pose proof (Z.div2_odd m) as E. remember (Z.div2 m) as h eqn:Eh.
  assert (Hmp : m * p = 2 * (h * p) + Z.b2z (Z.odd m) * p) by (rewrite E at 1; ring).
  replace (h * (2 * p)) with (2 * (h * p)) by ring.
  remember (h * p) as hp eqn:Ehp. remember (m * p) as mp eqn:Emp.
  destruct (Z.odd m); cbn [Z.b2z] in *;
    destruct rb, sb; cbn [orb];
    repeat split; try lia; intros; try lia;
    try (exfalso; lia).
  all: try (destruct Hr as [Hr1 Hr2]; destruct Hs as [Hs1 Hs2];
            try specialize (Hr1 eq_refl); try specialize (Hs1 eq_refl); try lia).
Qed.

Lemma located_iter (k : positive) :
  forall (p n : Z) (r : shr_record),
    0 < p -> located p n r ->
    located (2 ^ Zpos k * p) n (SpecFloat.iter_pos shr_1 k r).
Proof.
  induction k as [k IH|k IH|]; intros p n r Hp L; cbn [SpecFloat.iter_pos].
  - replace (2 ^ Zpos k~1 * p) with (2 ^ Zpos k * (2 ^ Zpos k * (2 * p))).
    + pose proof (pow2_pos (Zpos k) ltac:(lia)).
      apply IH; [nia|]. apply IH; [lia|]. apply located_shr_1; assumption.
    + replace (Zpos k~1) with (Zpos k + Zpos k + 1) by lia.
      rewrite !Z.pow_add_r by lia. change (2 ^ 1) with 2. ring.
  - replace (2 ^ Zpos k~0 * p) with (2 ^ Zpos k * (2 ^ Zpos k * p)).
    + pose proof (pow2_pos (Zpos k) ltac:(lia)).
      apply IH; [nia|]. apply IH; assumption.
    + replace (Zpos k~0) with (Zpos k + Zpos k) by lia.
      rewrite !Z.pow_add_r by lia. ring.
  - change (2 ^ 1) with 2. apply located_shr_1; assumption.
Qed.

Lemma located_shr (r : shr_record) (e k p n : Z) :
  0 < p -> 0 <= k -> located p n r ->
  located (2 ^ k * p) n (fst (shr r e k)).
Proof.
  intros Hp Hk L. destruct k as [|k|k]; try lia.
  - cbn [shr fst]. change (2 ^ 0) with 1. rewrite Z.mul_1_l. exact L.
  - cbn [shr fst]. apply located_iter; assumption.
Qed.

Lemma located_near (p n : Z) (r : shr_record) :
  0 < p -> located p n r ->
  near (round_nearest_even (shr_m r) (loc_of_shr_record r)) n p.
Proof.
  intros Hp. destruct r as [m rb sb]. unfold located, near.
  cbn [shr_m shr_r shr_s]. intros (Hm & Hrem & Hr & Hs).
  remember (m * p) as mp eqn:Emp.
  destruct rb, sb; cbn [loc_of_shr_record round_nearest_even].
  - (* above the middle *)
    replace (2 * (m + 1) * p) with (2 * mp + 2 * p) by (subst mp; ring).
    destruct Hr as [Hr _]. destruct Hs as [Hs _].
    specialize (Hr eq_refl). specialize (Hs eq_refl). split; [lia|intros; lia].
  - (* the middle *)
    destruct Hr as [Hr _]. specialize (Hr eq_refl).
    assert (T : 2 * (n - mp) = p).
    { destruct (Z.eq_dec (2 * (n - mp)) p) as [|NE]; [assumption|].
      destruct Hs as [_ Hs]. assert (true = true -> False); [|tauto].
      intros _. assert (false = true) by (apply Hs; lia). discriminate. }
    destruct (Z.even m) eqn:Ev.
    + replace (2 * m * p) with (2 * mp) by (subst mp; ring).
      split; [lia|intros; exact Ev].
    + replace (2 * (m + 1) * p) with (2 * mp + 2 * p) by (subst mp; ring).
      split; [lia|]. intros _. rewrite Z.even_add, Ev. reflexivity.
  - (* below the middle *)
    replace (2 * m * p) with (2 * mp) by (subst mp; ring).
    assert (~ p <= 2 * (n - mp)).
    { intros C. destruct Hr as [_ Hr]. specialize (Hr C). discriminate. }
    split; [lia|intros; lia].
  - (* exact *)
    replace (2 * m * p) with (2 * mp) by (subst mp; ring).
    assert (~ p <= 2 * (n - mp)).
    { intros C. destruct Hr as [_ Hr]. specialize (Hr C). discriminate. }
    assert (2 * (n - mp) = 0).
    { destruct (Z.eq_dec (2 * (n - mp)) 0) as [|NE]; [assumption|].
      destruct Hs as [_ Hs]. assert (false = true) by (apply Hs; lia). discriminate. }
    split; [lia|intros; lia].
Qed.

Lemma located_exact (m d : Z) :
  0 <= m -> 0 < d -> located d (m * d) (shr_record_of_loc m loc_Exact).
Proof.
  intros Hm Hd. unfold located. cbn [shr_record_of_loc shr_m shr_r shr_s].
  replace (m * d - m * d) with 0 by ring.
  repeat split; try lia; intros; try discriminate; lia.
Qed.

(** The rounding step, by value: the result is [M * 2^E], with [E] the
    exponent the format gives numbers of this magnitude and [M] the
    integer nearest to the exact value in units of [2^E]. *)
Lemma binary_round_aux_near (m e : Z) (l : location) (n d K : Z) :
  0 <= m -> 0 < d ->
  located d n (shr_record_of_loc m l) ->
  e <= fexp B64.prec B64.emax (Zdigits2 m + e) ->
  Zdigits2 m + e <= K -> -1074 <= K <= 1023 ->
  exists M,
    scaled (binary_round_aux B64.prec B64.emax false m e l) =
      M * 2 ^ (fexp B64.prec B64.emax (Zdigits2 m + e) + 1074) /\
    near M n (2 ^ (fexp B64.prec B64.emax (Zdigits2 m + e) - e) * d).
Proof.
  intros Hm Hd Hloc Hpre HK HKr. rewrite B64Facts.fexp_eq in *.
  unfold binary_round_aux, shr_fexp. rewrite !B64Facts.fexp_eq.
  remember (Z.max (Zdigits2 m + e - 53) (-1074) - e) as k eqn:Ek.
  assert (Hk : 0 <= k) by lia.
  pose proof (B64Facts.shr_spec (shr_record_of_loc m l) e k) as S1.
  rewrite B64Facts.shr_record_of_loc_m in S1.
  specialize (S1 Hm Hk).
  pose proof (located_shr (shr_record_of_loc m l) e k d n Hd Hk Hloc) as L1.
  destruct (shr (shr_record_of_loc m l) e k) as [r1 e1]. cbn [fst snd] in S1, L1.
  destruct S1 as [Hm1 He1]. cbv beta iota. rewrite ?B64Facts.fexp_eq.
  assert (Hp : 0 < 2 ^ k * d) by (apply Z.mul_pos_pos; [apply pow2_pos|]; lia).
  pose proof (located_near _ _ _ Hp L1) as N1.
  remember (round_nearest_even (shr_m r1) (loc_of_shr_record r1)) as m1 eqn:Em1.
  assert (Hs : 0 <= shr_m r1) by (rewrite Hm1; apply Z.shiftr_nonneg; lia).
  assert (Hd1 : Zdigits2 (shr_m r1) = Z.max 0 (Zdigits2 m - k))
    by (rewrite Hm1; apply B64Facts.Zdigits2_shiftr; lia).
  assert (Hm1' : m1 = shr_m r1 \/ m1 = shr_m r1 + 1)
    by (rewrite Em1; apply B64Facts.round_nearest_even_cases).
  clear Em1.
  assert (Hm1nn : 0 <= m1) by lia.
  pose proof (B64Facts.Zdigits2_nonneg m ltac:(lia)) as Hdm.
  assert (Hdm1 : Zdigits2 m1 = Zdigits2 (shr_m r1) \/
                 (Zdigits2 m1 = Zdigits2 (shr_m r1) + 1 /\ m1 = 2 ^ Zdigits2 (shr_m r1))).
  { destruct Hm1' as [->| ->]; [left; reflexivity|].
    apply B64Facts.Zdigits2_succ; assumption. }
  remember (Z.max (Zdigits2 m1 + e1 - 53) (-1074) - e1) as n2 eqn:En2.
  assert (Hn2 : n2 <= 0 \/ (n2 = 1 /\ Zdigits2 m1 = 54 /\ m1 = 2 ^ 53)).
  { destruct Hdm1 as [E|[E E2]].
    - lia.
    - destruct (Z.eq_dec (Zdigits2 (shr_m r1)) 53) as [E53|NE].
      + right. rewrite E53 in *. repeat split; lia.
      + lia. }
  exists m1. split; [|exact N1].
  replace (Z.max (Zdigits2 m + e - 53) (-1074)) with e1 by lia.
  destruct Hn2 as [Z2|[Z2 [D54 M53]]].
  - rewrite (B64Facts.shr_nop _ _ n2) by lia.
    rewrite B64Facts.shr_record_of_loc_m.
    destruct m1 as [|q|q]; [reflexivity| |lia].
    assert (Hle : (e1 <=? B64.emax - B64.prec) = true).
    { apply Z.leb_le. unfold B64.emax, B64.prec.
      assert (0 < Zdigits2 (Zpos q)) by (apply B64Facts.Zdigits2_pos; lia). lia. }
    rewrite Hle. reflexivity.
  - pose proof (B64Facts.shr_spec (shr_record_of_loc m1 loc_Exact) e1 n2) as S2.
    rewrite B64Facts.shr_record_of_loc_m in S2. specialize (S2 Hm1nn ltac:(lia)).
    destruct (shr (shr_record_of_loc m1 loc_Exact) e1 n2) as [r2 e2].
    cbn [fst snd] in S2. destruct S2 as [Hm2 He2]. rewrite Hm2, M53, Z2.
    change (Z.shiftr (2 ^ 53) 1) with (Z.pos 4503599627370496).
    assert (Hle : (e2 <=? B64.emax - B64.prec) = true)
      by (apply Z.leb_le; unfold B64.emax, B64.prec; lia).
    rewrite Hle. cbn [scaled].
    replace (e2 + 1074) with (1 + (e1 + 1074)) by lia.
    rewrite (Z.pow_add_r 2 1 (e1 + 1074)) by lia. change (2 ^ 1) with 2.
    change (Z.pos 4503599627370496) with (2 ^ 52).
    change (2 ^ 53) with (2 * 2 ^ 52). ring.
Qed.

Lemma near_prop (q n p n' p' : Z) :
  0 < p -> 0 < p' -> n * p' = n' * p -> near q n p -> near q n' p'.
Proof.
  intros Hp Hp' E [[L U] T].
  assert (L' : 2 * q * p' - p' <= 2 * n').
  { apply (Z.mul_le_mono_pos_r _ _ p Hp).
    replace ((2 * q * p' - p') * p) with ((2 * q * p - p) * p') by ring.
    replace (2 * n' * p) with (2 * n * p') by (rewrite <- Z.mul_assoc, E; ring).
    apply Z.mul_le_mono_nonneg_r; lia. }
  assert (U' : 2 * n' <= 2 * q * p' + p').
  { apply (Z.mul_le_mono_pos_r _ _ p Hp).
    replace ((2 * q * p' + p') * p) with ((2 * q * p + p) * p') by ring.
    replace (2 * n' * p) with (2 * n * p') by (rewrite <- Z.mul_assoc, E; ring).
    apply Z.mul_le_mono_nonneg_r; lia. }
  split; [split; assumption|].
  intros [H|H]; apply T; [left|right]; apply (Z.mul_reg_r _ _ p'); lia.
Qed.

(** The rounding step in terms of the exact value [num / den] it rounds,
    given in units of 2^-1074. *)
Lemma binary_round_aux_fmt (m e : Z) (l : location) (n d K num den : Z) :
  0 <= m -> 0 < d -> 0 < den ->
  located d n (shr_record_of_loc m l) ->
  e <= fexp B64.prec B64.emax (Zdigits2 m + e) ->
  Zdigits2 m + e <= K -> -1074 <= K <= 1023 ->
  num * (2 ^ (fexp B64.prec B64.emax (Zdigits2 m + e) - e) * d) =
  n * (den * 2 ^ (fexp B64.prec B64.emax (Zdigits2 m + e) + 1074)) ->
  fmt_round num den (scaled (binary_round_aux B64.prec B64.emax false m e l)).
Proof.
  intros Hm Hd Hden Hloc Hpre HK HKr Hprop.
  destruct (binary_round_aux_near m e l n d K Hm Hd Hloc Hpre HK HKr)
    as (M & Hs & Hn).
  rewrite B64Facts.fexp_eq in *.
  remember (Z.max (Zdigits2 m + e - 53) (-1074)) as E eqn:EE.
  assert (Hk : 0 <= E - e) by lia.
  assert (Hg : 0 <= E + 1074) by lia.
  pose proof (pow2_pos _ Hk) as Pk. pose proof (pow2_pos _ Hg) as Pg.
  remember (2 ^ (E - e)) as A eqn:EA.
  assert (HAd : 0 < A * d) by (apply Z.mul_pos_pos; assumption).
  destruct Hloc as (_ & Hrem & _). rewrite B64Facts.shr_record_of_loc_m in Hrem.
  exists (E + 1074), M. split; [exact Hg|]. split; [exact Hs|].
  split.
  { apply (near_prop M n (A * d)); try assumption.
    - apply Z.mul_pos_pos; assumption.
    - symmetry. exact Hprop. }
  pose proof (B64Facts.Zdigits2_nonneg m Hm) as Hdm.
  assert (Um : m + 1 <= 2 ^ Zdigits2 m).
  { assert (m < 2 ^ Zdigits2 m) by (apply B64Facts.Zdigits2_lt_pow2; lia). lia. }
  assert (Un : n < 2 ^ Zdigits2 m * d).
  { assert ((m + 1) * d <= 2 ^ Zdigits2 m * d)
      by (apply Z.mul_le_mono_nonneg_r; lia).
    lia. }
  split.
  - intros G0. rewrite G0 in Hprop. change (2 ^ 0) with 1 in Hprop.
    assert (Hle : 2 ^ Zdigits2 m <= 2 ^ 53 * A).
    { rewrite EA, <- Z.pow_add_r by lia. apply pow2_le. lia. }
    apply (Z.mul_lt_mono_pos_r (A * d)); [assumption|].
    rewrite Hprop.
    assert (n * den < 2 ^ Zdigits2 m * d * den)
      by (apply Z.mul_lt_mono_pos_r; assumption).
    assert (2 ^ Zdigits2 m * (d * den) <= 2 ^ 53 * A * (d * den)).
    { apply Z.mul_le_mono_nonneg_r; [|assumption].
      apply Z.lt_le_incl, Z.mul_pos_pos; assumption. }
    replace (den * 2 ^ 53 * (A * d)) with (2 ^ 53 * A * (d * den)) by ring.
    replace (n * (den * 1)) with (n * den) by ring.
    lia.
  - intros G1.
    assert (Ek : Zdigits2 m = 53 + (E - e)) by lia.
    assert (Hmpos : 0 < m).
    { destruct (Z.eq_dec m 0) as [->|]; [|lia]. cbn [Zdigits2] in Ek. lia. }
    assert (Lm : 2 ^ (Zdigits2 m - 1) <= m)
      by (apply B64Facts.Zdigits2_ge_pow2; lia).
    replace (Zdigits2 m - 1) with (52 + (E - e)) in Lm by lia.
    rewrite Z.pow_add_r in Lm by lia. rewrite <- EA in Lm.
    rewrite Ek, Z.pow_add_r in Un by lia. rewrite <- EA in Un.
    rewrite (Z.pow_add_r 2 (E + 1074) 52), (Z.pow_add_r 2 (E + 1074) 53) by lia.
    remember (2 ^ (E + 1074)) as G eqn:EG.
    assert (Ln : 2 ^ 52 * A * d <= n).
    { assert (2 ^ 52 * A * d <= m * d) by (apply Z.mul_le_mono_nonneg_r; lia).
      lia. }
    split.
    + apply (Z.mul_le_mono_pos_r _ _ (A * d)); [assumption|].
      rewrite Hprop.
      replace (den * (G * 2 ^ 52) * (A * d)) with (2 ^ 52 * A * d * (den * G)) by ring.
      apply Z.mul_le_mono_nonneg_r; [|assumption].
      apply Z.lt_le_incl, Z.mul_pos_pos; assumption.
    + apply (Z.mul_lt_mono_pos_r (A * d)); [assumption|].
      rewrite Hprop.
      replace (den * (G * 2 ^ 53) * (A * d)) with (2 ^ 53 * A * d * (den * G)) by ring.
      apply Z.mul_lt_mono_pos_r; [apply Z.mul_pos_pos; assumption|assumption].
Qed.

Lemma fmt_round_zero (den : Z) : 0 < den -> fmt_round 0 den 0.
Proof.
  intros Hd. exists 0, 0. change (2 ^ 0) with 1.
  assert (0 < 2 ^ 53) by (apply pow2_pos; lia).
  repeat split; try lia; intros; lia.
Qed.

(** The value of a finite float that is not negative is representable,
    and rounds to itself. *)
Lemma scaled_representable (K : Z) (x : B64.float) :
  B64.nonneg0 K x -> representable (scaled x).
Proof.
  intros [F S]. destruct x as [s|s| |s m e]; try contradiction.
  - exists 0, 0. cbn [scaled]. repeat split; lia.
  - destruct F as [Hb _]. destruct (bounded_facts m e Hb) as (He & Hm & Hn).
    destruct S as [S|S]; [|discriminate]. cbn [B64.sign] in S. subst s.
    exists (e + 1074), (Zpos m). cbn [scaled].
    repeat split; lia.
Qed.

Lemma scaled_round (K : Z) (x : B64.float) :
  B64.nonneg0 K x -> fmt_round (scaled x) 1 (scaled x).
Proof.
  intros [F S]. destruct x as [s|s| |s m e]; try contradiction.
  - apply fmt_round_zero. lia.
  - destruct F as [Hb _]. destruct (bounded_facts m e Hb) as (He & Hm & Hn).
    destruct S as [S|S]; [|discriminate]. cbn [B64.sign] in S. subst s.
    cbn [scaled]. remember (e + 1074) as g eqn:Eg.
    assert (Hg : 0 <= g) by lia. pose proof (pow2_pos g Hg) as Pg.
    exists g, (Zpos m). split; [exact Hg|]. split; [reflexivity|].
    rewrite !Z.mul_1_l. split; [|split].
    + split; [lia|]. intros [H|H]; lia.
    + intros ->. change (2 ^ 0) with 1. lia.
    + intros G. specialize (Hn ltac:(lia)).
      rewrite !Z.pow_add_r by lia.
      split; [|rewrite (Z.mul_comm (2 ^ g)); apply Z.mul_lt_mono_pos_r; lia].
      rewrite (Z.mul_comm (2 ^ g)). apply Z.mul_le_mono_nonneg_r; lia.
Qed.

(** A representable exact result is the result. *)
Lemma fmt_round_exact (num den r b : Z) :
  0 < den -> fmt_round num den r -> representable b -> num = b * den -> r = b.
Proof.
  intros Hd F R E.
  pose proof (fmt_round_le num den r b Hd F R ltac:(lia)).
  pose proof (fmt_round_ge num den r b Hd F R ltac:(lia)).
  lia.
Qed.

Lemma scaled_nonneg (K : Z) (x : B64.float) : B64.nonneg0 K x -> 0 <= scaled x.
Proof.
  intros H. destruct (scaled_representable K x H) as (g & m & Hg & -> & Hm & _).
  pose proof (pow2_pos g Hg). apply Z.mul_nonneg_nonneg; lia.
Qed.

(** *** The three operations round the exact result *)

Lemma mul_rounds (x y : B64.float) (Kx Ky K : Z) :
  B64.nonneg0 Kx x -> B64.nonneg0 Ky y -> Kx + Ky <= K -> -1074 <= K <= 1023 ->
  fmt_round (scaled x * scaled y) (2 ^ 1074) (scaled (B64.mul x y)).
Proof.
  intros [Fx Sx] [Fy Sy] HK HKr.
  pose proof (pow2_pos 1074 ltac:(lia)) as PT.
  destruct x as [sx|sx| |sx mx ex], y as [sy|sy| |sy my ey];
    try contradiction;
    try (cbn [B64.mul SFmul scaled]; rewrite ?Z.mul_0_l, ?Z.mul_0_r;
         apply fmt_round_zero; assumption).
  destruct Sx as [Sx|Sx]; [|discriminate]. destruct Sy as [Sy|Sy]; [|discriminate].
  cbn [B64.sign] in Sx, Sy. subst sx sy.
  destruct Fx as [Bx Dx], Fy as [By Dy].
  pose proof (bounded_facts mx ex Bx) as (Hex & _).
  pose proof (bounded_facts my ey By) as (Hey & _).
  apply B64Facts.bounded_iff in Bx, By.
  unfold B64.mul, SFmul. cbn [xorb scaled].
  pose proof (B64Facts.Zdigits2_mul_le (Zpos mx) (Zpos my) ltac:(lia) ltac:(lia)) as Hd.
  change (Zpos mx * Zpos my) with (Zpos (mx * my)) in Hd.
  pose proof (B64Facts.Zdigits2_pos (Zpos mx) ltac:(lia)).
  pose proof (B64Facts.Zdigits2_pos (Zpos my) ltac:(lia)).
  apply (binary_round_aux_fmt (Zpos (mx * my)) (ex + ey) loc_Exact
           (Zpos (mx * my) * 1) 1 K); try lia.
  - apply located_exact; lia.
  - rewrite B64Facts.fexp_eq. lia.
  - rewrite B64Facts.fexp_eq.
    remember (Z.max (Zdigits2 (Zpos (mx * my)) + (ex + ey) - 53) (-1074)) as E eqn:EE.
    assert (P : 2 ^ (ex + 1074) * 2 ^ (ey + 1074) * 2 ^ (E - (ex + ey)) =
                2 ^ 1074 * 2 ^ (E + 1074)).
    { rewrite <- !Z.pow_add_r by lia. f_equal. lia. }
    rewrite Pos2Z.inj_mul.
    replace (Zpos mx * 2 ^ (ex + 1074) * (Zpos my * 2 ^ (ey + 1074)) *
             (2 ^ (E - (ex + ey)) * 1))
      with (Zpos mx * Zpos my *
            (2 ^ (ex + 1074) * 2 ^ (ey + 1074) * 2 ^ (E - (ex + ey)))) by ring.
    rewrite P. ring.
Qed.

Lemma binary_round_fmt (m : positive) (e K : Z) :
  -1074 <= e -> Zdigits2 (Zpos m) + e <= K -> -1074 <= K <= 1023 ->
  fmt_round (Zpos m * 2 ^ (e + 1074)) 1
            (scaled (binary_round B64.prec B64.emax false m e)).
Proof.
  intros He HK HKr. unfold binary_round.
  pose proof (B64Facts.shl_align_spec m e
                (fexp B64.prec B64.emax (Zpos (digits2_pos m) + e))) as [Hm Hez].
  destruct (shl_align m e _) as [mz ez]. cbn [fst snd] in Hm, Hez.
  change (Zpos (digits2_pos m)) with (Zdigits2 (Zpos m)) in Hez.
  rewrite B64Facts.fexp_eq in Hez.
  assert (Hd : Zdigits2 (Zpos mz) = Zdigits2 (Zpos m) + (e - ez)).
  { rewrite Hm. apply B64Facts.Zdigits2_mul_pow2; lia. }
  apply (binary_round_aux_fmt (Zpos mz) ez loc_Exact (Zpos mz * 1) 1 K); try lia.
  - apply located_exact; lia.
  - rewrite B64Facts.fexp_eq. lia.
  - rewrite B64Facts.fexp_eq.
    remember (Z.max (Zdigits2 (Zpos mz) + ez - 53) (-1074)) as E eqn:EE.
    rewrite Hm.
    assert (P : 2 ^ (e + 1074) * 2 ^ (E - ez) = 2 ^ (e - ez) * 2 ^ (E + 1074)).
    { rewrite <- !Z.pow_add_r by lia. f_equal. lia. }
    replace (Zpos m * 2 ^ (e + 1074) * (2 ^ (E - ez) * 1))
      with (Zpos m * (2 ^ (e + 1074) * 2 ^ (E - ez))) by ring.
    rewrite P. ring.
Qed.

Lemma add_rounds (x y : B64.float) (K : Z) :
  B64.nonneg0 K x -> B64.nonneg0 K y -> -1074 <= K + 1 <= 1023 ->
  fmt_round (scaled x + scaled y) 1 (scaled (B64.add x y)).
Proof.
  intros Nx Ny HKr.
  destruct Nx as [Fx Sx], Ny as [Fy Sy].
  destruct x as [sx|sx| |sx mx ex], y as [sy|sy| |sy my ey]; try contradiction.
  - replace (scaled (B64.add (S754_zero sx) (S754_zero sy))) with 0
      by (destruct sx, sy; reflexivity).
    apply fmt_round_zero. lia.
  - cbn [B64.add SFadd]. change (scaled (S754_zero sx)) with 0.
    rewrite Z.add_0_l. exact (scaled_round K _ (conj Fy Sy)).
  - cbn [B64.add SFadd]. change (scaled (S754_zero sy)) with 0.
    rewrite Z.add_0_r. exact (scaled_round K _ (conj Fx Sx)).
  - destruct Sx as [Sx|Sx]; [|discriminate]. destruct Sy as [Sy|Sy]; [|discriminate].
    cbn [B64.sign] in Sx, Sy. subst sx sy.
    destruct Fx as [Bx Dx], Fy as [By Dy].
    pose proof (bounded_facts mx ex Bx) as (Hex & _).
    pose proof (bounded_facts my ey By) as (Hey & _).
    unfold B64.add, SFadd. cbn [scaled].
    pose proof (B64Facts.shl_align_spec mx ex (Z.min ex ey)) as [Hmx Hex'].
    pose proof (B64Facts.shl_align_spec my ey (Z.min ex ey)) as [Hmy Hey'].
    destruct (shl_align mx ex _) as [mx' ex'], (shl_align my ey _) as [my' ey'].
    cbn [fst snd] in Hmx, Hex', Hmy, Hey'. cbn [fst snd cond_Zopp].
    change (Zpos mx' + Zpos my') with (Zpos (mx' + my')).
    cbn [binary_normalize].
    remember (Z.min ex ey) as ez eqn:Eez.
    assert (Hdx : Zdigits2 (Zpos mx') = Zdigits2 (Zpos mx) + (ex - ex'))
      by (rewrite Hmx; apply B64Facts.Zdigits2_mul_pow2; lia).
    assert (Hdy : Zdigits2 (Zpos my') = Zdigits2 (Zpos my) + (ey - ey'))
      by (rewrite Hmy; apply B64Facts.Zdigits2_mul_pow2; lia).
    assert (Hz : Zdigits2 (Zpos (mx' + my')) <= K - ez + 1).
    { rewrite Pos2Z.inj_add.
      apply B64Facts.Zdigits2_add_le; lia. }
    replace (Zpos mx * 2 ^ (ex + 1074) + Zpos my * 2 ^ (ey + 1074))
      with (Zpos (mx' + my') * 2 ^ (ez + 1074)).
    + apply (binary_round_fmt (mx' + my') ez (K + 1)); lia.
    + rewrite Pos2Z.inj_add, Hmx, Hmy, Z.mul_add_distr_r.
      rewrite <- !Z.mul_assoc, <- !Z.pow_add_r by lia.
      f_equal; f_equal; f_equal; lia.
Qed.

Lemma located_new_location (q d r : Z) :
  0 <= q -> 0 < d -> 0 <= r < d ->
  located d (q * d + r) (shr_record_of_loc q (new_location d r)).
Proof.
  intros Hq Hd Hr. unfold located. rewrite B64Facts.shr_record_of_loc_m.
  replace (q * d + r - q * d) with r by ring.
  unfold new_location, new_location_even, new_location_odd.
  destruct (Z.even d) eqn:Ev.
  - destruct (Z.eqb_spec r 0) as [->|NZ].
    + cbn [shr_record_of_loc shr_r shr_s].
      repeat split; try lia; intros; try discriminate; lia.
    + destruct (Z.compare_spec (2 * r) d);
        cbn [shr_record_of_loc shr_r shr_s];
        repeat split; try lia; intros; try discriminate; try reflexivity; lia.
  - assert (Odd : d <> 2 * r).
    { intros ->. rewrite Z.even_mul in Ev. discriminate. }
    destruct (Z.eqb_spec r 0) as [->|NZ].
    + cbn [shr_record_of_loc shr_r shr_s].
      repeat split; try lia; intros; try discriminate; lia.
    + destruct (Z.compare_spec (2 * r + 1) d);
        cbn [shr_record_of_loc shr_r shr_s];
        repeat split; try lia; intros; try discriminate; try reflexivity; lia.
Qed.

Lemma div_rounds (x y : B64.float) (Kx Ly K : Z) :
  B64.nonneg0 Kx x -> B64.sign y = false -> B64.valid y = true ->
  B64.above Ly y ->
  Kx - Ly + 1 <= K -> -1074 <= K <= 1023 ->
  fmt_round (scaled x * 2 ^ 1074) (scaled y) (scaled (B64.div x y)).
Proof.
  intros [Fx Sx] Sy Vy Ay HK HKr.
  destruct y as [sy|sy| |sy my ey]; try contradiction.
  cbn [B64.sign] in Sy. subst sy. unfold B64.above in Ay.
  unfold B64.valid, valid_binary in Vy.
  pose proof (bounded_facts my ey Vy) as (Hey & _).
  assert (Hsy : 0 < scaled (S754_finite false my ey)).
  { cbn [scaled]. apply Z.mul_pos_pos; [lia|apply pow2_pos; lia]. }
  destruct x as [sx|sx| |sx mx ex]; try contradiction.
  - cbn [B64.div SFdiv scaled]. rewrite Z.mul_0_l. apply fmt_round_zero. exact Hsy.
  - destruct Sx as [Sx|Sx]; [|discriminate]. cbn [B64.sign] in Sx. subst sx.
    destruct Fx as [Bx Dx].
    pose proof (bounded_facts mx ex Bx) as (Hex & _).
    unfold B64.div, SFdiv, SFdiv_core_binary. rewrite B64Facts.fexp_eq.
    set (d1 := Zdigits2 (Zpos mx)) in *. set (d2 := Zdigits2 (Zpos my)) in *.
    remember (Z.min (Z.max (d1 + ex - (d2 + ey) - 53) (-1074)) (ex - ey)) as e' eqn:Ee'.
    remember (ex - ey - e') as sh eqn:Esh.
    assert (Hsh : 0 <= sh) by lia.
    set (m' := match sh with Zpos _ => Z.shiftl (Zpos mx) sh | Z0 => Zpos mx | Zneg _ => 0 end).
    assert (Hm' : m' = Zpos mx * 2 ^ sh).
    { unfold m'. destruct sh as [|p|p]; try lia.
      rewrite Z.shiftl_mul_pow2 by lia. reflexivity. }
    assert (Hm'pos : 0 < m').
    { rewrite Hm'. apply Z.mul_pos_pos; [lia|apply pow2_pos; lia]. }
    assert (Hdm' : Zdigits2 m' = d1 + sh)
      by (rewrite Hm'; apply B64Facts.Zdigits2_mul_pow2; lia).
    pose proof (B64Facts.Zdigits2_div m' (Zpos my) Hm'pos ltac:(lia)) as Hdq.
    fold d2 in Hdq. rewrite Hdm' in Hdq.
    pose proof (Z.div_eucl_eq m' (Zpos my) ltac:(lia)) as Heq.
    pose proof (Z_div_mod m' (Zpos my) ltac:(lia)) as Hdm.
    unfold Z.div in Hdq.
    destruct (Z.div_eucl m' (Zpos my)) as [q r].
    cbn [fst] in Hdq. destruct Hdm as [_ Hr].
    assert (Hq : 0 <= q).
    { destruct (Z_le_gt_dec 0 q) as [|G]; [assumption|exfalso].
      assert (Zpos my * q <= Zpos my * (-1)) by (apply Z.mul_le_mono_nonneg_l; lia).
      lia. }
    pose proof (B64Facts.Zdigits2_pos (Zpos mx) ltac:(lia)) as P1.
    pose proof (B64Facts.Zdigits2_pos (Zpos my) ltac:(lia)) as P2.
    fold d1 in P1. fold d2 in P2. cbn [xorb].
    apply (binary_round_aux_fmt q e' (new_location (Zpos my) r) m' (Zpos my) K);
      try lia.
    + rewrite Heq, (Z.mul_comm (Zpos my) q). apply located_new_location; lia.
    + rewrite B64Facts.fexp_eq. lia.
    + rewrite B64Facts.fexp_eq. cbn [scaled].
      remember (Z.max (Zdigits2 q + e' - 53) (-1074)) as E eqn:EE.
      rewrite Hm'.
      assert (P : 2 ^ (ex + 1074) * 2 ^ 1074 * 2 ^ (E - e') =
                  2 ^ sh * 2 ^ (ey + 1074) * 2 ^ (E + 1074)).
      { rewrite <- !Z.pow_add_r by lia. f_equal. lia. }
      replace (Zpos mx * 2 ^ (ex + 1074) * 2 ^ 1074 * (2 ^ (E - e') * Zpos my))
        with (Zpos mx * Zpos my * (2 ^ (ex + 1074) * 2 ^ 1074 * 2 ^ (E - e'))) by ring.
      rewrite P. ring.
Qed.

(** *** Comparison is the comparison of the exact values *)

Lemma scaled_sign (s : bool) (m : positive) (e : Z) :
  -1074 <= e ->
  if s then scaled (S754_finite s m e) < 0 else 0 < scaled (S754_finite s m e).
Proof.
  intros He. pose proof (pow2_pos (e + 1074) ltac:(lia)). cbn [scaled].
  destruct s; [apply Z.mul_neg_pos|apply Z.mul_pos_pos]; lia.
Qed.

Lemma compare_neg_neg (m1 m2 : positive) (e1 e2 : Z) :
  B64.compare (S754_finite true m1 e1) (S754_finite true m2 e2) =
  option_map CompOpp (B64.compare (S754_finite false m1 e1) (S754_finite false m2 e2)).
Proof.
  unfold B64.compare, SFcompare, option_map.
  destruct (e1 ?= e2); reflexivity.
Qed.

Lemma compare_scaled (x y : B64.float) :
  B64.valid x = true -> B64.valid y = true ->
  B64.is_finite x = true -> B64.is_finite y = true ->
  B64.compare x y = Some (scaled x ?= scaled y).
Proof.
  intros Vx Vy Fx Fy.
  destruct x as [sx|sx| |sx mx ex]; try discriminate;
    destruct y as [sy|sy| |sy my ey]; try discriminate.
  - reflexivity.
  - unfold B64.valid, valid_binary in Vy.
    destruct (bounded_facts my ey Vy) as (He & _).
    pose proof (scaled_sign sy my ey He) as S. change (scaled (S754_zero sx)) with 0.
    cbn [B64.compare SFcompare]. f_equal. symmetry.
    destruct sy; [apply Z.compare_gt_iff|apply Z.compare_lt_iff]; lia.
  - unfold B64.valid, valid_binary in Vx.
    destruct (bounded_facts mx ex Vx) as (He & _).
    pose proof (scaled_sign sx mx ex He) as S. change (scaled (S754_zero sy)) with 0.
    cbn [B64.compare SFcompare]. f_equal. symmetry.
    destruct sx; [apply Z.compare_lt_iff|apply Z.compare_gt_iff]; lia.
  - unfold B64.valid, valid_binary in Vx, Vy.
    destruct (bounded_facts mx ex Vx) as (Hex & _).
    destruct (bounded_facts my ey Vy) as (Hey & _).
    pose proof (scaled_sign sx mx ex Hex) as Sx.
    pose proof (scaled_sign sy my ey Hey) as Sy.
    destruct sx, sy.
    + rewrite compare_neg_neg, (compare_scaled_pos mx my ex ey Vx Vy).
      cbn [option_map scaled]. f_equal.
      rewrite <- Z.compare_antisym.
      change (Zneg mx) with (- Zpos mx). change (Zneg my) with (- Zpos my).
      rewrite !Z.mul_opp_l. rewrite Z.compare_opp. reflexivity.
    + cbn [B64.compare SFcompare]. f_equal. symmetry. apply Z.compare_lt_iff. lia.
    + cbn [B64.compare SFcompare]. f_equal. symmetry. apply Z.compare_gt_iff. lia.
    + apply compare_scaled_pos; assumption.
Qed.

Lemma compare_float_int_finite (x : B64.float) (n : Z) :
  B64.valid x = true -> B64.is_finite x = true ->
  Py.compare_float_int x n = Some (scaled x ?= n * 2 ^ 1074).
Proof.
  intros Vx Fx. pose proof (pow2_pos 1074 ltac:(lia)) as P.
  destruct x as [s|s| |s m e]; try discriminate.
  - cbn [Py.compare_float_int scaled]. f_equal.
    rewrite <- (compare_mul_pos 0 n (2 ^ 1074) P). reflexivity.
  - unfold B64.valid, valid_binary in Vx.
    destruct (bounded_facts m e Vx) as (He & _).
    apply compare_float_int_scaled. exact He.
Qed.

Lemma compare_finite (a b : num) :
  finite_num a -> finite_num b ->
  Py.compare a b = Some (scaled_num a ?= scaled_num b).
Proof.
  intros Fa Fb. pose proof (pow2_pos 1074 ltac:(lia)) as P.
  destruct a as [x|x], b as [y|y]; cbn [Py.compare scaled_num].
  - rewrite compare_mul_pos by assumption. reflexivity.
  - destruct Fb as [Vy Fy]. rewrite (compare_float_int_finite y x Vy Fy).
    cbn [option_map]. rewrite <- Z.compare_antisym. reflexivity.
  - destruct Fa as [Vx Fx]. apply compare_float_int_finite; assumption.
  - destruct Fa as [Vx Fx], Fb as [Vy Fy]. apply compare_scaled; assumption.
Qed.

Lemma le_finite (a b : num) :
  finite_num a -> finite_num b ->
  (Py.le a b = true <-> scaled_num a <= scaled_num b).
Proof.
  intros Fa Fb. unfold Py.le. rewrite (compare_finite a b Fa Fb).
  destruct (Z.compare_spec (scaled_num a) (scaled_num b)); split; intros;
    try reflexivity; try discriminate; lia.
Qed.

Lemma lt_finite (a b : num) :
  finite_num a -> finite_num b ->
  (Py.lt a b = true <-> scaled_num a < scaled_num b).
Proof.
  intros Fa Fb. unfold Py.lt. rewrite (compare_finite a b Fa Fb).
  destruct (Z.compare_spec (scaled_num a) (scaled_num b)); split; intros;
    try reflexivity; try discriminate; lia.
Qed.

Lemma nonneg0_finite_num (K : Z) (x : B64.float) :
  B64.nonneg0 K x -> finite_num (PyFloat x).
Proof.
  intros [F _]. split; [exact (PyFacts.fin_valid K x F)|exact (PyFacts.fin_finite K x F)].
Qed.

(** *** Order between the floats of two runs *)

Lemma ordered_le (K : Z) (x y : B64.float) :
  ordered K x y -> Py.le (PyFloat x) (PyFloat y) = true.
Proof.
  intros (Nx & Ny & H).
  apply le_finite; [exact (nonneg0_finite_num K x Nx)|exact (nonneg0_finite_num K y Ny)|].
  exact H.
Qed.

Lemma ordered_refl (K : Z) (x : B64.float) : B64.nonneg0 K x -> ordered K x x.
Proof. intros N. repeat split; try assumption; apply N || lia. Qed.

Lemma ordered_weaken (K K' : Z) (x y : B64.float) :
  ordered K x y -> K <= K' -> ordered K' x y.
Proof.
  intros (Nx & Ny & H) HK.
  split; [exact (Run.nonneg0_weaken K K' x Nx HK)|].
  split; [exact (Run.nonneg0_weaken K K' y Ny HK)|exact H].
Qed.

Lemma mul_ordered (x x' y y' : B64.float) (Kx Ky K : Z) :
  ordered Kx x x' -> ordered Ky y y' -> Kx + Ky <= K -> -1074 <= K <= 1023 ->
  ordered (K + 1) (B64.mul x y) (B64.mul x' y').
Proof.
  intros (Nx & Nx' & Hx) (Ny & Ny' & Hy) HK HKr.
  split; [exact (Run.nonneg0_mul x y Kx Ky K Nx Ny HK HKr)|].
  split; [exact (Run.nonneg0_mul x' y' Kx Ky K Nx' Ny' HK HKr)|].
  pose proof (pow2_pos 1074 ltac:(lia)) as P.
  apply (fmt_round_mono (scaled x * scaled y) (2 ^ 1074) _
                        (scaled x' * scaled y') (2 ^ 1074));
    try assumption.
  - exact (mul_rounds x y Kx Ky K Nx Ny HK HKr).
  - exact (mul_rounds x' y' Kx Ky K Nx' Ny' HK HKr).
  - apply Z.mul_le_mono_nonneg_r; [lia|].
    pose proof (scaled_nonneg Kx x Nx). pose proof (scaled_nonneg Ky y Ny).
    apply Z.mul_le_mono_nonneg; lia.
Qed.

Lemma add_ordered (x x' y y' : B64.float) (K : Z) :
  ordered K x x' -> ordered K y y' -> -1074 <= K + 1 <= 1023 ->
  ordered (K + 2) (B64.add x y) (B64.add x' y').
Proof.
  intros (Nx & Nx' & Hx) (Ny & Ny' & Hy) HKr.
  split; [exact (Run.nonneg0_add x y K Nx Ny HKr)|].
  split; [exact (Run.nonneg0_add x' y' K Nx' Ny' HKr)|].
  apply (fmt_round_mono (scaled x + scaled y) 1 _ (scaled x' + scaled y') 1);
    try lia.
  - exact (add_rounds x y K Nx Ny HKr).
  - exact (add_rounds x' y' K Nx' Ny' HKr).
Qed.

Lemma div_100_rounds (x : B64.float) (Kx K : Z) :
  B64.nonneg0 Kx x -> Kx - 6 <= K -> -1074 <= K <= 1023 ->
  fmt_round (scaled x * 2 ^ 1074) (100 * 2 ^ 1074)
            (scaled (B64.div x (B64.of_Z 100))).
Proof.
  intros Nx HK HKr.
  replace (100 * 2 ^ 1074) with (scaled (B64.of_Z 100)) by (vm_compute; reflexivity).
  apply (div_rounds x (B64.of_Z 100) Kx 7 K); try assumption; try reflexivity; try lia.
  vm_compute. discriminate.
Qed.

Lemma div_100_ordered (x x' : B64.float) (Kx K : Z) :
  ordered Kx x x' -> Kx - 6 <= K -> -1074 <= K <= 1023 ->
  ordered (K + 1) (B64.div x (B64.of_Z 100)) (B64.div x' (B64.of_Z 100)).
Proof.
  intros (Nx & Nx' & Hx) HK HKr.
  split; [exact (Run.nonneg0_div_100 x Kx K Nx HK HKr)|].
  split; [exact (Run.nonneg0_div_100 x' Kx K Nx' HK HKr)|].
  pose proof (pow2_pos 1074 ltac:(lia)) as P.
  apply (fmt_round_mono (scaled x * 2 ^ 1074) (100 * 2 ^ 1074) _
                        (scaled x' * 2 ^ 1074) (100 * 2 ^ 1074));
    try lia.
  - exact (div_100_rounds x Kx K Nx HK HKr).
  - exact (div_100_rounds x' Kx K Nx' HK HKr).
Qed.

(** *** The floats of in-range inputs *)

Lemma of_Z_scaled (n : Z) :
  0 <= n < 2 ^ 53 -> scaled (B64.of_Z n) = n * 2 ^ 1074.
Proof.
  intros Hn. destruct n as [|p|p]; try lia; [reflexivity|].
  destruct (of_Z_exact p) as (m & e & E & _ & _ & Hs).
  { apply B64Facts.Zdigits2_lt_pow2; lia. }
  rewrite E. exact Hs.
Qed.

Lemma to_float_scaled (lo hi K : Z) (a : num) (x : B64.float) :
  0 <= lo -> hi < 2 ^ K -> 0 <= K <= 53 ->
  in_range lo hi a -> Py.to_float a = Ok x -> scaled x = scaled_num a.
Proof.
  intros Hlo Hhi HK R E. destruct a as [n|y].
  - destruct R as (_ & Hl & Hh). apply Run.le_int_int in Hl, Hh.
    assert (2 ^ K <= 2 ^ 53) by (apply pow2_le; lia).
    cbn [Py.to_float] in E.
    rewrite (Run.float_of_int_small n 53) in E by lia.
    injection E as <-. apply of_Z_scaled. lia.
  - cbn [Py.to_float] in E. injection E as <-. reflexivity.
Qed.

Lemma in_range_finite (lo hi : Z) (a : num) :
  0 <= lo -> in_range lo hi a -> finite_num a.
Proof.
  intros Hlo R. destruct a as [n|x]; [exact I|].
  assert (P : hi < 2 ^ (Z.max 0 (Z.log2 hi + 1))).
  { destruct (Z_le_gt_dec hi 0) as [|G].
    - pose proof (pow2_pos (Z.max 0 (Z.log2 hi + 1)) ltac:(lia)). lia.
    - rewrite Z.max_r by (pose proof (Z.log2_nonneg hi); lia).
      apply Z.log2_spec. lia. }
  destruct (Run.in_range_float lo hi _ x Hlo P ltac:(lia) R) as [N _].
  exact (nonneg0_finite_num _ x N).
Qed.

Lemma to_float_ordered (lo hi K : Z) (a b : num) :
  0 <= lo -> hi < 2 ^ K -> 0 <= K <= 52 ->
  in_range lo hi a -> in_range lo hi b -> Py.le a b = true ->
  exists x y, Py.to_float a = Ok x /\ Py.to_float b = Ok y /\
              ordered (K + 1) x y /\
              scaled x = scaled_num a /\ scaled y = scaled_num b /\
              (0 < lo -> B64.sign x = false /\ B64.sign y = false).
Proof.
  intros Hlo Hhi HK Ra Rb Hle.
  destruct (Run.in_range_to_float lo hi K a Hlo Hhi ltac:(lia) Ra)
    as (x & Ex & Nx & Sx & _).
  destruct (Run.in_range_to_float lo hi K b Hlo Hhi ltac:(lia) Rb)
    as (y & Ey & Ny & Sy & _).
  pose proof (to_float_scaled lo hi K a x Hlo Hhi ltac:(lia) Ra Ex) as Vx.
  pose proof (to_float_scaled lo hi K b y Hlo Hhi ltac:(lia) Rb Ey) as Vy.
  exists x, y. split; [exact Ex|]. split; [exact Ey|].
  split; [|split; [exact Vx|split; [exact Vy|intros H; split; auto]]].
  split; [exact Nx|]. split; [exact Ny|].
  rewrite Vx, Vy.
  apply le_finite; [exact (in_range_finite lo hi a Hlo Ra)|
                    exact (in_range_finite lo hi b Hlo Rb)|exact Hle].
Qed.

(** The sum of the two percentages, whatever their types, is the
    rounding of the exact sum. *)
Lemma pct_rounds (d s : num) :
  in_range 0 50 d -> in_range 0 50 s ->
  exists pct xp,
    Py.add d s = Ok pct /\ Py.to_float pct = Ok xp /\ B64.nonneg0 9 xp /\
    fmt_round (scaled_num d + scaled_num s) 1 (scaled xp).
Proof.
  intros Rd Rs.
  destruct (Run.in_range_to_float 0 50 6 d ltac:(lia) ltac:(reflexivity) ltac:(lia) Rd)
    as (xd & Ed & Nd & _).
  destruct (Run.in_range_to_float 0 50 6 s ltac:(lia) ltac:(reflexivity) ltac:(lia) Rs)
    as (xs & Es & Ns & _).
  pose proof (to_float_scaled 0 50 6 d xd ltac:(lia) ltac:(reflexivity) ltac:(lia) Rd Ed) as Vd.
  pose proof (to_float_scaled 0 50 6 s xs ltac:(lia) ltac:(reflexivity) ltac:(lia) Rs Es) as Vs.
  assert (F : exists pct xp,
             Py.add d s = Ok pct /\ Py.to_float pct = Ok xp /\ B64.nonneg0 9 xp /\
             ((exists a b, d = PyInt a /\ s = PyInt b /\ 0 <= a + b <= 100 /\
                           xp = B64.of_Z (a + b)) \/
              xp = B64.add xd xs)).
  { destruct d as [d|d], s as [s|s].
    - destruct Rd as (_ & Hd1 & Hd2), Rs as (_ & Hs1 & Hs2).
      apply Run.le_int_int in Hd1, Hd2, Hs1, Hs2.
      exists (PyInt (d + s)), (B64.of_Z (d + s)). split; [reflexivity|].
      cbn [Py.to_float].
      split; [apply (Run.float_of_int_small (d + s) 7); [change (2 ^ 7) with 128|]; lia|].
      split.
      + apply (Run.nonneg0_weaken 8); [|lia]. apply Run.nonneg_nonneg0.
        apply (Run.nonneg_of_Z (d + s) 7); [change (2 ^ 7) with 128|]; lia.
      + left. exists d, s. repeat split; lia.
    - exists (PyFloat (B64.add xd xs)), (B64.add xd xs).
      unfold Py.add. rewrite Ed, Es. cbn [Py.bind Py.to_float].
      split; [reflexivity|]. split; [reflexivity|].
      split; [apply (Run.nonneg0_add _ _ 7); try assumption; lia|right; reflexivity].
    - exists (PyFloat (B64.add xd xs)), (B64.add xd xs).
      unfold Py.add. rewrite Ed, Es. cbn [Py.bind Py.to_float].
      split; [reflexivity|]. split; [reflexivity|].
      split; [apply (Run.nonneg0_add _ _ 7); try assumption; lia|right; reflexivity].
    - exists (PyFloat (B64.add xd xs)), (B64.add xd xs).
      unfold Py.add. rewrite Ed, Es. cbn [Py.bind Py.to_float].
      split; [reflexivity|]. split; [reflexivity|].
      split; [apply (Run.nonneg0_add _ _ 7); try assumption; lia|right; reflexivity]. }
  destruct F as (pct & xp & Ea & Et & Np & [(a & b & -> & -> & Hab & ->)| ->]);
    exists pct; eexists; (split; [exact Ea|]); (split; [exact Et|]);
    (split; [exact Np|]).
  - cbn [scaled_num]. rewrite <- Z.mul_add_distr_r.
    rewrite <- (of_Z_scaled (a + b)) by (change (2 ^ 53) with 9007199254740992; lia).
    exact (scaled_round 9 _ Np).
  - rewrite <- Vd, <- Vs. apply (add_rounds xd xs 7); try assumption; lia.
Qed.

(** *** The pipe monitor and the storage cap, by value *)

Lemma lt_int_cases (h : num) (c : Z) :
  finite_num h ->
  (Py.lt h (PyInt c) = true /\ scaled_num h < c * 2 ^ 1074) \/
  (Py.lt h (PyInt c) = false /\ c * 2 ^ 1074 <= scaled_num h).
Proof.
  intros F. pose proof (lt_finite h (PyInt c) F I) as T. cbn [scaled_num] in T.
  destruct (Py.lt h (PyInt c)).
  - left. split; [reflexivity|apply T; reflexivity].
  - right. split; [reflexivity|].
    destruct (Z_le_gt_dec (c * 2 ^ 1074) (scaled_num h)) as [|G]; [assumption|].
    assert (false = true) by (apply T; lia). discriminate.
Qed.

Lemma factors_ordered :
  ordered 1 f0_6 f0_6 /\ ordered 1 f0_6 f0_8 /\ ordered 1 f0_6 f1_0 /\
  ordered 1 f0_8 f0_8 /\ ordered 1 f0_8 f1_0 /\ ordered 1 f1_0 f1_0.
Proof.
  assert (N6 : B64.nonneg0 1 f0_6)
    by (apply Run.nonneg_nonneg0, (Run.nonneg_weaken 0); [apply Run.nonneg_f0_6|lia]).
  assert (N8 : B64.nonneg0 1 f0_8)
    by (apply Run.nonneg_nonneg0, (Run.nonneg_weaken 0); [apply Run.nonneg_f0_8|lia]).
  assert (N1 : B64.nonneg0 1 f1_0) by (apply Run.nonneg_nonneg0, Run.nonneg_f1_0).
  unfold ordered.
  repeat split; try assumption; try apply N6; try apply N8; try apply N1;
    vm_compute; discriminate.
Qed.

(** A healthier pipe never gets a lower efficiency factor. *)
Lemma monitor_pipe_ordered (h1 h2 : num) :
  finite_num h1 -> finite_num h2 -> Py.le h1 h2 = true ->
  exists e1 e2,
    snd (monitor_pipe h1) = PyFloat e1 /\ snd (monitor_pipe h2) = PyFloat e2 /\
    ordered 1 e1 e2.
Proof.
  intros F1 F2 L. apply (le_finite h1 h2 F1 F2) in L.
  destruct factors_ordered as (O66 & O68 & O61 & O88 & O81 & O11).
  assert (P : 40 * 2 ^ 1074 < 70 * 2 ^ 1074)
    by (apply Z.mul_lt_mono_pos_r; [apply pow2_pos|]; lia).
  unfold monitor_pipe.
  destruct (lt_int_cases h1 40 F1) as [[EA1 A1]|[EA1 A1]];
    destruct (lt_int_cases h1 70 F1) as [[EB1 B1]|[EB1 B1]];
    destruct (lt_int_cases h2 40 F2) as [[EA2 A2]|[EA2 A2]];
    destruct (lt_int_cases h2 70 F2) as [[EB2 B2]|[EB2 B2]];
    try (exfalso; lia);
    rewrite ?EA1, ?EA2; cbv iota; rewrite ?EB1, ?EB2; cbv iota; cbn [snd];
    eexists; eexists; (split; [reflexivity|]); (split; [reflexivity|]);
    assumption.
Qed.

Lemma min_scaled (a b : num) :
  finite_num a -> finite_num b ->
  finite_num (Py.min a b) /\
  scaled_num (Py.min a b) = Z.min (scaled_num a) (scaled_num b).
Proof.
  intros Fa Fb. unfold Py.min.
  pose proof (lt_finite b a Fb Fa) as T.
  destruct (Py.lt b a).
  - split; [exact Fb|]. assert (scaled_num b < scaled_num a) by (apply T; reflexivity).
    lia.
  - split; [exact Fa|].
    destruct (Z_le_gt_dec (scaled_num a) (scaled_num b)) as [|G]; [lia|].
    assert (false = true) by (apply T; lia). discriminate.
Qed.

(** The stored charge and what is discharged from it. *)
Lemma discharge_flow (total : B64.float) (c dis : num) :
  B64.nonneg0 23 total -> in_range 100 1000 c ->
  Py.mul (Py.min (PyFloat total) c) (PyFloat f0_75) = Ok dis ->
  exists xc,
    dis = PyFloat (B64.mul xc f0_75) /\ B64.nonneg0 23 xc /\
    scaled xc = Z.min (scaled total) (scaled_num c) /\
    finite_num (Py.min (PyFloat total) c) /\
    scaled_num (Py.min (PyFloat total) c) = Z.min (scaled total) (scaled_num c).
Proof.
  intros Nt Rc E.
  destruct (Run.in_range_to_float 100 1000 10 c ltac:(lia) ltac:(reflexivity)
              ltac:(lia) Rc) as (fc & Ec & Nc & _).
  pose proof (to_float_scaled 100 1000 10 c fc ltac:(lia) ltac:(reflexivity)
                ltac:(lia) Rc Ec) as Vc.
  destruct (min_scaled (PyFloat total) c (nonneg0_finite_num 23 total Nt)
              (in_range_finite 100 1000 c ltac:(lia) Rc)) as [Fm Sm].
  cbn [scaled_num] in Sm.
  destruct (PyFacts.min_cases (PyFloat total) c) as [M|M]; rewrite M in *.
  - exists total. unfold Py.mul in E. cbn [Py.to_float Py.bind] in E.
    injection E as <-. cbn [scaled_num] in Sm. auto.
  - exists fc. rewrite (PyFacts.mul_float_r c fc f0_75 Ec) in E.
    injection E as <-.
    split; [reflexivity|]. split; [apply (Run.nonneg0_weaken 11); [exact Nc|lia]|].
    split; [rewrite Vc; exact Sm|]. split; assumption.
Qed.

(** *** Two runs, input by input *)

Lemma le_num_le (a b : num) : le_num a b -> Py.le a b = true.
Proof. intros (Fa & Fb & H). apply le_finite; assumption. Qed.

Lemma ordered_le_num (K : Z) (x y : B64.float) :
  ordered K x y -> le_num (PyFloat x) (PyFloat y).
Proof.
  intros (Nx & Ny & H).
  split; [exact (nonneg0_finite_num K x Nx)|].
  split; [exact (nonneg0_finite_num K y Ny)|exact H].
Qed.

Lemma nonneg0_f0_5 : B64.nonneg0 0 f0_5.
Proof. apply Run.nonneg_nonneg0, Run.nonneg_f0_5. Qed.

Lemma nonneg0_f0_7 : B64.nonneg0 0 f0_7.
Proof. apply Run.nonneg_nonneg0, Run.nonneg_f0_7. Qed.

Lemma nonneg0_f0_75 : B64.nonneg0 0 f0_75.
Proof. apply Run.nonneg_nonneg0, Run.nonneg_f0_75. Qed.

(** Raising any input within its range lowers no output. *)
Lemma pipeline_ordered (w1 w2 : Inputs) :
  inputs_in_range w1 -> inputs_in_range w2 -> le_inputs w1 w2 ->
  exists o1 o2,
    pipeline w1 = Ok o1 /\ pipeline w2 = Ok o2 /\
    le_num (geo_output o1) (geo_output o2) /\
    le_num (waste_output o1) (waste_output o2) /\
    le_num (teg_recovery o1) (teg_recovery o2) /\
    le_num (pipe_efficiency o1) (pipe_efficiency o2) /\
    le_num (total_output o1) (total_output o2) /\
    le_num (charge o1) (charge o2) /\
    le_num (discharge o1) (discharge o2).
Proof.
  intros (Rt1 & Rw1 & Rd1 & Rs1 & Rh1 & Rc1) (Rt2 & Rw2 & Rd2 & Rs2 & Rh2 & Rc2)
         (Lt & Lw & Ld & Ls & Lh & Lc).
  destruct (to_float_ordered 300 900 10 _ _ ltac:(lia) ltac:(reflexivity) ltac:(lia)
              Rt1 Rt2 Lt) as (ft1 & ft2 & Et1 & Et2 & Ot & _).
  destruct (to_float_ordered 10 200 8 _ _ ltac:(lia) ltac:(reflexivity) ltac:(lia)
              Rw1 Rw2 Lw) as (fw1 & fw2 & Ew1 & Ew2 & Ow & _).
  destruct (to_float_ordered 100 1000 10 _ _ ltac:(lia) ltac:(reflexivity) ltac:(lia)
              Rc1 Rc2 Lc) as (fc1 & fc2 & Ec1 & Ec2 & Oc & Vc1 & Vc2 & _).
  destruct (pct_rounds _ _ Rd1 Rs1) as (pct1 & fp1 & Ep1 & Efp1 & Np1 & Fp1).
  destruct (pct_rounds _ _ Rd2 Rs2) as (pct2 & fp2 & Ep2 & Efp2 & Np2 & Fp2).
  assert (Op : ordered 9 fp1 fp2).
  { split; [exact Np1|]. split; [exact Np2|].
    apply (fmt_round_mono _ 1 _ _ 1 _ ltac:(lia) ltac:(lia) Fp1 Fp2).
    apply (le_finite _ _ (in_range_finite 0 50 _ ltac:(lia) Rd1)
                         (in_range_finite 0 50 _ ltac:(lia) Rd2)) in Ld.
    apply (le_finite _ _ (in_range_finite 0 50 _ ltac:(lia) Rs1)
                         (in_range_finite 0 50 _ ltac:(lia) Rs2)) in Ls.
    lia. }
  destruct (monitor_pipe_ordered _ _ (in_range_finite 0 100 _ ltac:(lia) Rh1)
              (in_range_finite 0 100 _ ltac:(lia) Rh2) Lh)
    as (eff1 & eff2 & Ee1 & Ee2 & Oe).
  destruct (Run.pipeline_value w1 ft1 fw1 fp1 fc1 pct1 Et1 Ew1 Ep1 Efp1 Ec1)
    as (eff1' & dis1 & Ee1' & E1 & _).
  destruct (Run.pipeline_value w2 ft2 fw2 fp2 fc2 pct2 Et2 Ew2 Ep2 Efp2 Ec2)
    as (eff2' & dis2 & Ee2' & E2 & _).
  rewrite Ee1 in Ee1'. injection Ee1' as <-.
  rewrite Ee2 in Ee2'. injection Ee2' as <-.
  assert (Og : ordered 12 (B64.mul f0_5 ft1) (B64.mul f0_5 ft2))
    by (apply (mul_ordered _ _ _ _ 0 11 11);
        [apply ordered_refl, nonneg0_f0_5|exact Ot|lia|lia]).
  assert (Owa : ordered 12 (B64.mul f0_7 fw1) (B64.mul f0_7 fw2)).
  { apply (ordered_weaken 10); [|lia].
    apply (mul_ordered _ _ _ _ 0 9 9);
      [apply ordered_refl, nonneg0_f0_7|exact Ow|lia|lia]. }
  assert (Ou : ordered 14 (B64.add (B64.mul f0_7 fw1) (B64.mul f0_5 ft1))
                          (B64.add (B64.mul f0_7 fw2) (B64.mul f0_5 ft2)))
    by (apply (add_ordered _ _ _ _ 12); [exact Owa|exact Og|lia]).
  assert (Oteg : ordered 19
            (B64.div (B64.mul (B64.add (B64.mul f0_7 fw1) (B64.mul f0_5 ft1)) fp1)
                     (B64.of_Z 100))
            (B64.div (B64.mul (B64.add (B64.mul f0_7 fw2) (B64.mul f0_5 ft2)) fp2)
                     (B64.of_Z 100))).
  { apply (div_100_ordered _ _ 24 18); try lia.
    apply (mul_ordered _ _ _ _ 14 9 23); [exact Ou|exact Op|lia|lia]. }
  assert (O1 : ordered 19 (B64.add (B64.mul f0_5 ft1) (B64.mul f0_7 fw1))
                          (B64.add (B64.mul f0_5 ft2) (B64.mul f0_7 fw2))).
  { apply (ordered_weaken 14); [|lia].
    apply (add_ordered _ _ _ _ 12); [exact Og|exact Owa|lia]. }
  pose proof (add_ordered _ _ _ _ 19 O1 Oteg ltac:(lia)) as O2.
  pose proof (mul_ordered _ _ _ _ 21 1 22 O2 Oe ltac:(lia) ltac:(lia)) as Otot.
  change (22 + 1) with 23 in Otot.
  destruct Otot as (Ntot1 & Ntot2 & Htot).
  destruct (pipeline_inv w1 _ E1) as (_ & _ & _ & _ & _ & _ & D1).
  destruct (pipeline_inv w2 _ E2) as (_ & _ & _ & _ & _ & _ & D2).
  cbn [charge discharge] in D1, D2.
  destruct (discharge_flow _ _ _ Ntot1 Rc1 D1) as (xc1 & Ed1 & Nx1 & Sx1 & Fm1 & Sm1).
  destruct (discharge_flow _ _ _ Ntot2 Rc2 D2) as (xc2 & Ed2 & Nx2 & Sx2 & Fm2 & Sm2).
  injection Ed1 as Ed1. injection Ed2 as Ed2.
  assert (Hmin : scaled xc1 <= scaled xc2).
  { rewrite Sx1, Sx2. destruct Oc as (_ & _ & Hc). rewrite Vc1, Vc2 in Hc. lia. }
  eexists. eexists. split; [exact E1|]. split; [exact E2|].
  cbn [geo_output waste_output teg_recovery pipe_efficiency total_output
       charge discharge].
  split; [exact (ordered_le_num _ _ _ Og)|].
  split; [exact (ordered_le_num _ _ _ Owa)|].
  split; [exact (ordered_le_num _ _ _ Oteg)|].
  split; [exact (ordered_le_num _ _ _ Oe)|].
  split; [exact (ordered_le_num 23 _ _ (conj Ntot1 (conj Ntot2 Htot)))|].
  split; [split; [exact Fm1|split; [exact Fm2|rewrite Sm1, Sm2, <- Sx1, <- Sx2; exact Hmin]]|].
  rewrite Ed1, Ed2. apply (ordered_le_num 24).
  apply (mul_ordered _ _ _ _ 23 0 23);
    [exact (conj Nx1 (conj Nx2 Hmin))|apply ordered_refl, nonneg0_f0_75|lia|lia].
Qed.

End Exact.

Import Exact.

(* ================================================================== *)
(** ** Monotonicity and bounds of a run *)
(* ================================================================== *)

Lemma evaluate_pipeline (w : Inputs) : evaluate w = pipeline w.
Proof. unfold evaluate. apply rerun_pipeline. Qed.

(** X1. Raising inputs never lowers an output: for two runs on inputs
    within the ranges (ints or floats), where every input of the first is
    at most the corresponding input of the second, both runs return and
    geo_output, waste_output, teg_recovery, pipe_efficiency,
    total_output, charge and discharge of the first are each at most
    those of the second.  Floating-point rounding does not break the
    order. *)
Theorem outputs_monotone (w1 w2 : Inputs) :
  inputs_in_range w1 -> inputs_in_range w2 -> le_inputs w1 w2 ->
  exists o1 o2,
    evaluate w1 = Ok o1 /\ evaluate w2 = Ok o2 /\
    Py.le (geo_output o1) (geo_output o2) = true /\
    Py.le (waste_output o1) (waste_output o2) = true /\
    Py.le (teg_recovery o1) (teg_recovery o2) = true /\
    Py.le (pipe_efficiency o1) (pipe_efficiency o2) = true /\
    Py.le (total_output o1) (total_output o2) = true /\
    Py.le (charge o1) (charge o2) = true /\
    Py.le (discharge o1) (discharge o2) = true.
Proof.
  intros R1 R2 L.
  destruct (pipeline_ordered w1 w2 R1 R2 L)
    as (o1 & o2 & E1 & E2 & Hg & Hw & Ht & He & Ho & Hc & Hd).
  exists o1, o2. rewrite !evaluate_pipeline.
  repeat split; try assumption; apply le_num_le; assumption.
Qed.

Lemma outputs_monotone_witness :
  exists o1 o2,
    evaluate (slider_inputs 300 10 0 0 0 100) = Ok o1 /\
    evaluate (slider_inputs 600 80 15 20 100 500) = Ok o2 /\
    Py.le (geo_output o1) (geo_output o2) = true /\
    Py.le (waste_output o1) (waste_output o2) = true /\
    Py.le (teg_recovery o1) (teg_recovery o2) = true /\
    Py.le (pipe_efficiency o1) (pipe_efficiency o2) = true /\
    Py.le (total_output o1) (total_output o2) = true /\
    Py.le (charge o1) (charge o2) = true /\
    Py.le (discharge o1) (discharge o2) = true.
Proof.
  apply (outputs_monotone (slider_inputs 300 10 0 0 0 100)
                          (slider_inputs 600 80 15 20 100 500)).
  - apply Run.slider_in_range. unfold in_slider_range. lia.
  - apply Run.slider_in_range. unfold in_slider_range. lia.
  - repeat split; reflexivity.
Defined.

Lemma in_range_lo (lo hi : Z) : lo <= hi -> in_range lo hi (PyInt lo).
Proof. intros H. split; [exact I|]. rewrite !Run.le_int_int. lia. Qed.

Lemma in_range_hi (lo hi : Z) : lo <= hi -> in_range lo hi (PyInt hi).
Proof. intros H. split; [exact I|]. rewrite !Run.le_int_int. lia. Qed.

Lemma of_Z_scaled_small (n : Z) :
  0 <= n <= 2000 -> scaled_num (PyFloat (B64.of_Z n)) = n * 2 ^ 1074.
Proof.
  intros H. cbn [scaled_num]. apply of_Z_scaled.
  change (2 ^ 53) with 9007199254740992. lia.
Qed.

Lemma le_num_upper (a b : num) (c : Z) :
  le_num a b -> scaled_num b = c * 2 ^ 1074 -> Py.le a (PyInt c) = true.
Proof.
  intros (Fa & _ & H) E. apply le_finite; [exact Fa|exact I|].
  cbn [scaled_num]. lia.
Qed.

Lemma le_num_lower (a b : num) (c : Z) :
  le_num a b -> scaled_num a = c * 2 ^ 1074 -> Py.le (PyInt c) b = true.
Proof.
  intros (_ & Fb & H) E. apply le_finite; [exact I|exact Fb|].
  cbn [scaled_num]. lia.
Qed.

(** X2. For all inputs within the ranges the run returns with
    150 <= geo_output <= 450, 7 <= waste_output <= 140,
    0 <= teg_recovery <= 590, 94.2 <= total_output <= 1180,
    94.2 <= charge <= 1000 and 70.65 <= discharge <= 750: each output
    lies between its values at the lowest and at the highest slider
    setting. *)
Theorem outputs_bounded (w : Inputs) :
  inputs_in_range w ->
  exists o,
    evaluate w = Ok o /\
    Py.le (PyInt 150) (geo_output o) = true /\
    Py.le (geo_output o) (PyInt 450) = true /\
    Py.le (PyInt 7) (waste_output o) = true /\
    Py.le (waste_output o) (PyInt 140) = true /\
    Py.le (PyInt 0) (teg_recovery o) = true /\
    Py.le (teg_recovery o) (PyInt 590) = true /\
    Py.le (PyFloat (B64.literal 942 10)) (total_output o) = true /\
    Py.le (total_output o) (PyInt 1180) = true /\
    Py.le (PyFloat (B64.literal 942 10)) (charge o) = true /\
    Py.le (charge o) (PyInt 1000) = true /\
    Py.le (PyFloat (B64.literal 7065 100)) (discharge o) = true /\
    Py.le (discharge o) (PyInt 750) = true.
Proof.
  intros R. pose proof R as (Rt & Rw & Rd & Rs & Rh & Rc).
  assert (Rmax : inputs_in_range (slider_inputs 900 200 50 50 100 1000))
    by (apply Run.slider_in_range; unfold in_slider_range; lia).
  assert (Rmin : inputs_in_range (slider_inputs 300 10 0 0 0 100))
    by (apply Run.slider_in_range; unfold in_slider_range; lia).
  assert (Lmax : le_inputs w (slider_inputs 900 200 50 50 100 1000)).
  { unfold le_inputs, slider_inputs.
    cbn [geothermal_temp wasted_energy_input teg_device_level teg_system_level
         pipe_health storage_capacity].
    repeat split; [apply Rt|apply Rw|apply Rd|apply Rs|apply Rh|apply Rc]. }
  assert (Lmin : le_inputs (slider_inputs 300 10 0 0 0 100) w).
  { unfold le_inputs, slider_inputs.
    cbn [geothermal_temp wasted_energy_input teg_device_level teg_system_level
         pipe_health storage_capacity].
    repeat split; [apply Rt|apply Rw|apply Rd|apply Rs|apply Rh|apply Rc]. }
  destruct (pipeline_ordered _ _ R Rmax Lmax)
    as (o & omax & E & Emax & Ug & Uw & Ut & _ & Uo & Uc & Ud).
  destruct (pipeline_ordered _ _ Rmin R Lmin)
    as (omin & o' & Emin & E' & Lg & Lw & Lt & _ & Lo & Lc & Ld).
  rewrite E in E'. injection E' as <-.
  assert (Vmax : pipeline (slider_inputs 900 200 50 50 100 1000) =
                 Ok {| geo_output := PyFloat (B64.of_Z 450);
                       waste_output := PyFloat (B64.of_Z 140);
                       teg_recovery := PyFloat (B64.of_Z 590);
                       pipe_status_msg := msg_optimal;
                       pipe_efficiency := PyFloat f1_0;
                       total_output := PyFloat (B64.of_Z 1180);
                       charge := PyInt 1000;
                       discharge := PyFloat (B64.of_Z 750) |})
    by (vm_compute; reflexivity).
  assert (Vmin : pipeline (slider_inputs 300 10 0 0 0 100) =
                 Ok {| geo_output := PyFloat (B64.of_Z 150);
                       waste_output := PyFloat (B64.of_Z 7);
                       teg_recovery := PyFloat B64.zero;
                       pipe_status_msg := msg_warning;
                       pipe_efficiency := PyFloat f0_6;
                       total_output := PyFloat (B64.literal 942 10);
                       charge := PyFloat (B64.literal 942 10);
                       discharge := PyFloat (B64.literal 7065 100) |})
    by (vm_compute; reflexivity).
  rewrite Emax in Vmax. injection Vmax as ->.
  rewrite Emin in Vmin. injection Vmin as ->.
  cbn [geo_output waste_output teg_recovery total_output charge discharge] in *.
  exists o. rewrite evaluate_pipeline. split; [exact E|].
  split; [apply (le_num_lower _ _ 150 Lg); exact (of_Z_scaled_small 150 ltac:(lia))|].
  split; [apply (le_num_upper _ _ 450 Ug); exact (of_Z_scaled_small 450 ltac:(lia))|].
  split; [apply (le_num_lower _ _ 7 Lw); exact (of_Z_scaled_small 7 ltac:(lia))|].
  split; [apply (le_num_upper _ _ 140 Uw); exact (of_Z_scaled_small 140 ltac:(lia))|].
  split; [apply (le_num_lower _ _ 0 Lt); reflexivity|].
  split; [apply (le_num_upper _ _ 590 Ut); exact (of_Z_scaled_small 590 ltac:(lia))|].
  split; [exact (le_num_le _ _ Lo)|].
  split; [apply (le_num_upper _ _ 1180 Uo); exact (of_Z_scaled_small 1180 ltac:(lia))|].
  split; [exact (le_num_le _ _ Lc)|].
  split; [apply (le_num_upper _ _ 1000 Uc); reflexivity|].
  split; [exact (le_num_le _ _ Ld)|].
  apply (le_num_upper _ _ 750 Ud); exact (of_Z_scaled_small 750 ltac:(lia)).
Qed.

Lemma outputs_bounded_witness :
  exists o,
    evaluate (slider_inputs 600 80 15 20 100 500) = Ok o /\
    Py.le (PyInt 150) (geo_output o) = true /\
    Py.le (geo_output o) (PyInt 450) = true /\
    Py.le (PyInt 7) (waste_output o) = true /\
    Py.le (waste_output o) (PyInt 140) = true /\
    Py.le (PyInt 0) (teg_recovery o) = true /\
    Py.le (teg_recovery o) (PyInt 590) = true /\
    Py.le (PyFloat (B64.literal 942 10)) (total_output o) = true /\
    Py.le (total_output o) (PyInt 1180) = true /\
    Py.le (PyFloat (B64.literal 942 10)) (charge o) = true /\
    Py.le (charge o) (PyInt 1000) = true /\
    Py.le (PyFloat (B64.literal 7065 100)) (discharge o) = true /\
    Py.le (discharge o) (PyInt 750) = true.
Proof.
  apply (outputs_bounded (slider_inputs 600 80 15 20 100 500)).
  apply Run.slider_in_range. unfold in_slider_range. lia.
Defined.

(* ================================================================== *)
(** ** The storage cap *)
(* ================================================================== *)

Lemma scaled_f0_75 : scaled f0_75 = 3 * 2 ^ 1072.
Proof. vm_compute. reflexivity. Qed.

Lemma three_quarters_le (K : Z) (x : B64.float) :
  B64.nonneg0 K x -> K <= 1023 -> -1074 <= K ->
  scaled (B64.mul x f0_75) <= scaled x.
Proof.
  intros N HK HK'.
  pose proof (pow2_pos 1074 ltac:(lia)) as P.
  apply (fmt_round_le (scaled x * scaled f0_75) (2 ^ 1074)); [exact P| | |].
  - apply (mul_rounds x f0_75 K 0 K); [exact N|exact nonneg0_f0_75|lia|lia].
  - exact (scaled_representable K x N).
  - apply Z.mul_le_mono_nonneg_l; [exact (scaled_nonneg K x N)|].
    rewrite scaled_f0_75. change (2 ^ 1074) with (4 * 2 ^ 1072).
    pose proof (pow2_pos 1072 ltac:(lia)). lia.
Qed.

(** X3. For all inputs within the ranges, the stored charge exceeds
    neither the battery capacity nor the total output, and the discharge
    exceeds neither the charge nor the capacity. *)
Theorem charge_capped (w : Inputs) :
  inputs_in_range w ->
  exists o,
    evaluate w = Ok o /\
    Py.le (charge o) (storage_capacity w) = true /\
    Py.le (charge o) (total_output o) = true /\
    Py.le (discharge o) (charge o) = true /\
    Py.le (discharge o) (storage_capacity w) = true.
Proof.
  intros R. pose proof R as (_ & _ & _ & _ & _ & Rc).
  destruct (Run.ranged_pipeline w R)
    as (geo & waste & teg & total & dis & E & _ & _ & _ & Ntot & _ & _).
  apply Run.nonneg_nonneg0 in Ntot.
  destruct (pipeline_inv w _ E) as (_ & _ & _ & _ & _ & _ & D).
  cbn [charge discharge] in D.
  destruct (discharge_flow total _ _ Ntot Rc D) as (xc & Ed & Nx & Sx & Fm & Sm).
  pose proof (in_range_finite 100 1000 _ ltac:(lia) Rc) as Fc.
  pose proof (nonneg0_finite_num 23 total Ntot) as Ft.
  assert (Nd : B64.nonneg0 24 (B64.mul xc f0_75))
    by (apply (Run.nonneg0_mul xc f0_75 23 0 23); [exact Nx|exact nonneg0_f0_75|lia|lia]).
  pose proof (nonneg0_finite_num 24 _ Nd) as Fd.
  pose proof (three_quarters_le 23 xc Nx ltac:(lia) ltac:(lia)) as Hd.
  eexists. rewrite evaluate_pipeline. split; [exact E|].
  cbn [charge discharge total_output]. injection Ed as ->.
  split; [apply le_finite; [exact Fm|exact Fc|rewrite Sm; lia]|].
  split; [apply le_finite; [exact Fm|exact Ft|rewrite Sm; cbn [scaled_num]; lia]|].
  split; [apply le_finite; [exact Fd|exact Fm|rewrite Sm; cbn [scaled_num]; lia]|].
  apply le_finite; [exact Fd|exact Fc|cbn [scaled_num]; lia].
Qed.

Lemma charge_capped_witness :
  exists o,
    evaluate (slider_inputs 900 200 50 50 100 100) = Ok o /\
    Py.le (charge o) (PyInt 100) = true /\
    Py.le (charge o) (total_output o) = true /\
    Py.le (discharge o) (charge o) = true /\
    Py.le (discharge o) (PyInt 100) = true.
Proof.
  apply (charge_capped (slider_inputs 900 200 50 50 100 100)).
  apply Run.slider_in_range. unfold in_slider_range. lia.
Defined.

(** X4. When the battery is the limit (an int storage_capacity c within
    its range, below total_output), charge is the int c itself and
    discharge is exactly three quarters of it: 4 * discharge == 3 * c. *)
Theorem discharge_at_cap (w : Inputs) (c : Z) (o : Outputs) :
  inputs_in_range w -> storage_capacity w = PyInt c ->
  evaluate w = Ok o ->
  Py.lt (PyInt c) (total_output o) = true ->
  charge o = PyInt c /\
  exists d q,
    discharge o = PyFloat d /\
    Py.mul (PyInt 4) (PyFloat d) = Ok q /\
    Py.eq q (PyInt (3 * c)) = true.
Proof.
  intros R Ec Ev Hlt. pose proof R as (_ & _ & _ & _ & _ & Rc). rewrite Ec in Rc.
  rewrite evaluate_pipeline in Ev.
  destruct (pipeline_inv w _ Ev) as (_ & _ & _ & _ & _ & Hc & D).
  rewrite Ec in Hc. unfold Py.min in Hc. rewrite Hlt in Hc.
  split; [exact Hc|]. rewrite Hc in D.
  destruct Rc as (_ & Hlo & Hhi). apply Run.le_int_int in Hlo, Hhi.
  assert (Tc : Py.to_float (PyInt c) = Ok (B64.of_Z c)).
  { cbn [Py.to_float]. apply (Run.float_of_int_small c 10);
      [change (2 ^ 10) with 1024|]; lia. }
  rewrite (PyFacts.mul_float_r _ _ f0_75 Tc) in D. injection D as D.
  pose proof (pow2_pos 1074 ltac:(lia)) as P.
  pose proof (pow2_pos 1072 ltac:(lia)) as P'.
  assert (Nc : B64.nonneg0 11 (B64.of_Z c)).
  { apply Run.nonneg_nonneg0. apply (Run.nonneg_of_Z c 10);
      [change (2 ^ 10) with 1024|]; lia. }
  assert (Sc : scaled (B64.of_Z c) = c * 2 ^ 1074)
    by (apply of_Z_scaled; change (2 ^ 53) with 9007199254740992; lia).
  assert (Nd : B64.nonneg0 12 (B64.mul (B64.of_Z c) f0_75))
    by (apply (Run.nonneg0_mul _ _ 11 0 11); [exact Nc|exact nonneg0_f0_75|lia|lia]).
  assert (Sd : scaled (B64.mul (B64.of_Z c) f0_75) = 3 * c * 2 ^ 1072).
  { apply (fmt_round_exact (scaled (B64.of_Z c) * scaled f0_75) (2 ^ 1074));
      [exact P| | |].
    - apply (mul_rounds _ _ 11 0 11); [exact Nc|exact nonneg0_f0_75|lia|lia].
    - exists 1072, (3 * c). change (2 ^ 53) with 9007199254740992.
      repeat split; lia.
    - rewrite Sc, scaled_f0_75. ring. }
  assert (N4 : B64.nonneg0 4 (B64.of_Z 4)).
  { apply Run.nonneg_nonneg0. apply (Run.nonneg_of_Z 4 3); [change (2 ^ 3) with 8|]; lia. }
  assert (Nq : B64.nonneg0 17 (B64.mul (B64.of_Z 4) (B64.mul (B64.of_Z c) f0_75)))
    by (apply (Run.nonneg0_mul _ _ 4 12 16); [exact N4|exact Nd|lia|lia]).
  assert (Sq : scaled (B64.mul (B64.of_Z 4) (B64.mul (B64.of_Z c) f0_75)) =
               3 * c * 2 ^ 1074).
  { apply (fmt_round_exact
             (scaled (B64.of_Z 4) * scaled (B64.mul (B64.of_Z c) f0_75)) (2 ^ 1074));
      [exact P| | |].
    - apply (mul_rounds _ _ 4 12 16); [exact N4|exact Nd|lia|lia].
    - exists 1074, (3 * c). change (2 ^ 53) with 9007199254740992.
      repeat split; lia.
    - rewrite Sd. rewrite (of_Z_scaled 4) by (change (2 ^ 53) with 9007199254740992; lia).
      change (2 ^ 1074) with (4 * 2 ^ 1072). ring. }
  exists (B64.mul (B64.of_Z c) f0_75),
         (PyFloat (B64.mul (B64.of_Z 4) (B64.mul (B64.of_Z c) f0_75))).
  split; [symmetry; exact D|]. split; [reflexivity|].
  unfold Py.eq. cbn [Py.compare].
  destruct (nonneg0_finite_num 17 _ Nq) as [Vq Fq].
  rewrite (compare_float_int_finite _ (3 * c) Vq Fq), Sq, Z.compare_refl.
  reflexivity.
Qed.

Lemma discharge_at_cap_witness :
  exists o,
    evaluate (slider_inputs 900 200 50 50 100 100) = Ok o /\
    charge o = PyInt 100 /\
    exists d q,
      discharge o = PyFloat d /\
      Py.mul (PyInt 4) (PyFloat d) = Ok q /\
      Py.eq q (PyInt (3 * 100)) = true.
Proof.
  exists {| geo_output := PyFloat (B64.of_Z 450);
            waste_output := PyFloat (B64.of_Z 140);
            teg_recovery := PyFloat (B64.of_Z 590);
            pipe_status_msg := msg_optimal;
            pipe_efficiency := PyFloat f1_0;
            total_output := PyFloat (B64.of_Z 1180);
            charge := PyInt 100;
            discharge := PyFloat (B64.of_Z 75) |}.
  split; [vm_compute; reflexivity|].
  apply (discharge_at_cap (slider_inputs 900 200 50 50 100 100) 100).
  - apply Run.slider_in_range. unfold in_slider_range. lia.
  - reflexivity.
  - vm_compute. reflexivity.
  - vm_compute. reflexivity.
Defined.

(* ================================================================== *)
(** ** The pipe monitor over all health values *)
(* ================================================================== *)

Lemma le_cases (h1 h2 : num) :
  wf h1 -> wf h2 -> Py.le h1 h2 = true ->
  (finite_num h1 /\ finite_num h2) \/
  h1 = PyFloat (S754_infinity true) \/ h2 = PyFloat (S754_infinity false).
Proof.
  intros W1 W2 L.
  destruct h1 as [n1|[s1|[|]| |s1 m1 e1]]; destruct h2 as [n2|[s2|[|]| |s2 m2 e2]];
    cbn [wf] in W1, W2;
    try (left; split; cbn [finite_num]; auto; fail);
    try (right; left; reflexivity); try (right; right; reflexivity);
    exfalso; revert L; unfold Py.le, Py.compare, Py.compare_float_int, B64.compare,
      SFcompare, option_map; try destruct s1; try destruct s2; discriminate.
Qed.

Lemma factor_le_cases (h1 h2 : num) :
  snd (monitor_pipe h1) = PyFloat f0_6 \/ snd (monitor_pipe h2) = PyFloat f1_0 ->
  Py.le (snd (monitor_pipe h1)) (snd (monitor_pipe h2)) = true.
Proof.
  intros [E|E]; rewrite E.
  - destruct (Run.monitor_pipe_factor h2) as [F|[F|F]]; rewrite F; reflexivity.
  - destruct (Run.monitor_pipe_factor h1) as [F|[F|F]]; rewrite F; reflexivity.
Qed.

(** X5. monitor_pipe is monotone: for any two health values, ints or
    well-formed floats (infinities included), health1 <= health2 gives
    factor(health1) <= factor(health2). *)
Theorem monitor_pipe_monotone (h1 h2 : num) :
  wf h1 -> wf h2 -> Py.le h1 h2 = true ->
  Py.le (snd (monitor_pipe h1)) (snd (monitor_pipe h2)) = true.
Proof.
  intros W1 W2 L.
  destruct (le_cases h1 h2 W1 W2 L) as [[F1 F2]|[->| ->]].
  - destruct (monitor_pipe_ordered h1 h2 F1 F2 L) as (e1 & e2 & -> & -> & O).
    exact (ordered_le 1 e1 e2 O).
  - apply factor_le_cases. left. reflexivity.
  - apply factor_le_cases. right. reflexivity.
Qed.

Lemma monitor_pipe_monotone_witness :
  Py.le (snd (monitor_pipe (PyFloat (B64.literal 399 10))))
        (snd (monitor_pipe (PyInt 70))) = true.
Proof.
  apply monitor_pipe_monotone; [reflexivity|exact I|reflexivity].
Defined.

Lemma lt_40_70 (h : num) :
  Py.lt h (PyInt 40) = true -> Py.lt h (PyInt 70) = true.
Proof.
  unfold Py.lt, Py.compare, Py.compare_float_int. cbv zeta.
  destruct h as [n|[s|s| |s m e]]; try discriminate.
  - destruct (Z.compare_spec n 40); try discriminate.
    intros _. destruct (Z.compare_spec n 70); try reflexivity; lia.
  - trivial.
  - destruct s; trivial.
  - destruct (0 <=? e) eqn:E.
    + remember ((if s then Z.neg m else Z.pos m) * 2 ^ e) as v.
      destruct (Z.compare_spec v 40); try discriminate.
      intros _. destruct (Z.compare_spec v 70); try reflexivity; lia.
    + apply Z.leb_gt in E. pose proof (pow2_pos (- e) ltac:(lia)) as P.
      remember (if s then Z.neg m else Z.pos m) as v.
      destruct (Z.compare_spec v (40 * 2 ^ (- e))); try discriminate.
      intros _. destruct (Z.compare_spec v (70 * 2 ^ (- e))); try reflexivity; lia.
Qed.

Lemma compare_none (h : num) (c : Z) :
  Py.compare h (PyInt c) = None <-> h = PyFloat S754_nan.
Proof.
  split.
  - destruct h as [n|[s|s| |s m e]]; cbn [Py.compare Py.compare_float_int];
      try discriminate; trivial.
  - intros ->. reflexivity.
Qed.

(** X6. monitor_pipe reports the optimal tier, with factor 1.0, exactly
    for the health values that are >= 70 and for NaN: a NaN health fails
    both comparisons and falls through to the last branch. *)
Theorem monitor_pipe_optimal (health : num) :
  monitor_pipe health = (msg_optimal, PyFloat f1_0) <->
  Py.ge health (PyInt 70) = true \/ health = PyFloat S754_nan.
Proof.
  rewrite <- (compare_none health 70). unfold monitor_pipe.
  pose proof (lt_40_70 health) as T.
  unfold Py.ge. unfold Py.lt in *.
  destruct (Py.compare health (PyInt 70)) as [[| |]|];
    destruct (Py.compare health (PyInt 40)) as [[| |]|];
    try (specialize (T eq_refl); discriminate T);
    split; intros H; try reflexivity; try discriminate H; auto;
    try (destruct H as [H|H]; discriminate H).
Qed.

(* ================================================================== *)
(** ** The summary tab *)
(* ================================================================== *)

Lemma format_factor (health : num) :
  format_2f (snd (monitor_pipe health)) =
  Ok (if Py.lt health (PyInt 40) then "0.60"
      else if Py.lt health (PyInt 70) then "0.80" else "1.00")%string.
Proof.
  unfold monitor_pipe.
  destruct (Py.lt health (PyInt 40)); [vm_compute; reflexivity|].
  destruct (Py.lt health (PyInt 70)); vm_compute; reflexivity.
Qed.

(** X7. For all inputs within the ranges the seven metric strings are
    produced without an exception (also when charge is the int
    storage_capacity), and the Pipe Efficiency Factor reads 0.60 for
    health < 40, 0.80 for 40 <= health < 70 and 1.00 otherwise. *)
Theorem metrics_in_range (w : Inputs) :
  inputs_in_range w ->
  exists o m1 m2 m3 m5 m6 m7,
    evaluate w = Ok o /\
    metrics o =
      Ok [m1; m2; m3;
          (if Py.lt (pipe_health w) (PyInt 40) then "0.60"
           else if Py.lt (pipe_health w) (PyInt 70) then "0.80" else "1.00")%string;
          m5; m6; m7].
Proof.
  intros R. pose proof R as (_ & _ & _ & _ & _ & Rc).
  destruct (Run.ranged_pipeline w R)
    as (geo & waste & teg & total & dis & E & _).
  destruct (Run.in_range_to_float 100 1000 10 _ ltac:(lia) ltac:(reflexivity)
              ltac:(lia) Rc) as (fc & Ec & _).
  assert (Hc : exists m6, format_2f (Py.min (PyFloat total) (storage_capacity w)) = Ok m6).
  { destruct (PyFacts.min_cases (PyFloat total) (storage_capacity w)) as [-> | ->].
    - eexists. reflexivity.
    - unfold format_2f. rewrite Ec. eexists. reflexivity. }
  destruct Hc as (m6 & Hm6).
  eexists. exists (format_2f_float geo), (format_2f_float waste), (format_2f_float teg),
    (format_2f_float total), m6, (format_2f_float dis).
  rewrite evaluate_pipeline. split; [exact E|].
  unfold metrics.
  cbn [geo_output waste_output teg_recovery pipe_efficiency total_output
       charge discharge].
  rewrite format_factor, Hm6. reflexivity.
Qed.

Lemma metrics_in_range_witness :
  exists o m1 m2 m3 m5 m6 m7,
    evaluate (slider_inputs 900 200 50 50 55 100) = Ok o /\
    metrics o =
      Ok [m1; m2; m3;
          (if Py.lt (pipe_health (slider_inputs 900 200 50 50 55 100)) (PyInt 40)
           then "0.60"
           else if Py.lt (pipe_health (slider_inputs 900 200 50 50 55 100)) (PyInt 70)
                then "0.80" else "1.00")%string;
          m5; m6; m7].
Proof.
  apply (metrics_in_range (slider_inputs 900 200 50 50 55 100)).
  apply Run.slider_in_range. unfold in_slider_range. lia.
Defined.

(* ================================================================== *)
(** ** Thermoelectric recovery *)
(* ================================================================== *)

(** C3, as stated, fails on linearity: the computed results are not
    additive in device_pct, nor in usage.  0.1 + 0.2 is the float above
    0.3; and at the slider values temp=300, wasted=10 (usage 157.0) the
    recoveries at 1% and 4% do not add up to the recovery at 5%. *)
Lemma teg_recovery_is_not_additive :
  (exists a b c sum,
      calculate_teg_recovery (PyInt 10) (PyInt 1) (PyInt 0) = Ok a /\
      calculate_teg_recovery (PyInt 10) (PyInt 2) (PyInt 0) = Ok b /\
      calculate_teg_recovery (PyInt 10) (PyInt (1 + 2)) (PyInt 0) = Ok c /\
      Py.add a b = Ok sum /\ Py.eq sum c = false) /\
  (exists a b c sum,
      calculate_teg_recovery (PyInt 1) (PyInt 10) (PyInt 0) = Ok a /\
      calculate_teg_recovery (PyInt 2) (PyInt 10) (PyInt 0) = Ok b /\
      calculate_teg_recovery (PyInt (1 + 2)) (PyInt 10) (PyInt 0) = Ok c /\
      Py.add a b = Ok sum /\ Py.eq sum c = false) /\
  (exists o1 o4 o5 sum,
      evaluate (slider_inputs 300 10 1 0 100 500) = Ok o1 /\
      evaluate (slider_inputs 300 10 4 0 100 500) = Ok o4 /\
      evaluate (slider_inputs 300 10 (1 + 4) 0 100 500) = Ok o5 /\
      Py.add (teg_recovery o1) (teg_recovery o4) = Ok sum /\
      Py.eq sum (teg_recovery o5) = false).
Proof.
  split; [|split]; do 4 eexists;
    (split; [vm_compute; reflexivity|]);
    (split; [vm_compute; reflexivity|]);
    (split; [vm_compute; reflexivity|]);
    (split; [vm_compute; reflexivity|]);
    vm_compute; reflexivity.
Qed.

Lemma teg_recovery_zero_pct (u : B64.float) :
  B64.is_finite u = true ->
  calculate_teg_recovery (PyFloat u) (PyInt 0) (PyInt 0) =
  Ok (PyFloat (S754_zero (B64.sign u))).
Proof.
  intros Hf. destruct u as [s|s| |s m e]; try discriminate;
    destruct s; reflexivity.
Qed.

(** *** The relative error of one rounding *)

Lemma fmt_round_rel (num den r : Z) :
  0 < den -> fmt_round num den r -> den * 2 ^ 52 <= num ->
  2 ^ 53 * Z.abs (num - r * den) <= num.
Proof.
  intros Hd (g & m & Hg & -> & [[L U] _] & M0 & M1) H.
  pose proof (pow2_pos g Hg) as Pg.
  assert (Hp : 2 ^ 52 * (den * 2 ^ g) <= num).
  { destruct (Z.eq_dec g 0) as [->|NZ].
    - change (2 ^ 0) with 1. lia.
    - destruct (M1 ltac:(lia)) as [Lo _].
      rewrite Z.pow_add_r in Lo by lia. lia. }
  replace (m * 2 ^ g * den) with (m * (den * 2 ^ g)) by ring.
  remember (den * 2 ^ g) as p eqn:Ep.
  replace (2 * m * p) with (2 * (m * p)) in L, U by ring.
  remember (m * p) as mp eqn:Emp.
  change (2 ^ 53) with (2 * 2 ^ 52).
  remember (2 ^ 52) as c eqn:Ec.
  assert (0 < c) by (subst c; apply pow2_pos; lia).
  assert (A : 2 * Z.abs (num - mp) <= p) by lia.
  assert (B : c * (2 * Z.abs (num - mp)) <= c * p)
    by (apply Z.mul_le_mono_nonneg_l; lia).
  lia.
Qed.

Lemma abs_scale_cancel (k x y z t : Z) :
  0 < t -> k * Z.abs (x * t - y * t) <= z * t -> k * Z.abs (x - y) <= z.
Proof.
  intros Ht H.
  replace (x * t - y * t) with ((x - y) * t) in H by ring.
  rewrite Z.abs_mul, (Z.abs_eq t) in H by lia.
  rewrite Z.mul_assoc in H.
  apply (Z.mul_le_mono_pos_r _ _ t Ht). exact H.
Qed.

(** *** calculate_teg_recovery on a float usage and int percentages *)

Lemma teg_value (u : B64.float) (d s : Z) :
  0 <= d + s <= 100 ->
  calculate_teg_recovery (PyFloat u) (PyInt d) (PyInt s) =
  Ok (PyFloat (B64.div (B64.mul u (B64.of_Z (d + s))) (B64.of_Z 100))).
Proof.
  intros H. unfold calculate_teg_recovery.
  unfold Py.add. cbn [Py.bind].
  assert (E : Py.to_float (PyInt (d + s)) = Ok (B64.of_Z (d + s))).
  { cbn [Py.to_float]. apply (Run.float_of_int_small (d + s) 7);
      [change (2 ^ 7) with 128|]; lia. }
  rewrite (PyFacts.mul_float_l _ _ _ E). cbn [Py.bind].
  unfold Py.truediv. cbn [Py.to_float Py.bind].
  change (Py.float_of_int 100) with (Ok (B64.of_Z 100)). cbn [Py.bind].
  change (B64.is_zero (B64.of_Z 100)) with false. reflexivity.
Qed.

Lemma teg_error_Z (u : B64.float) (p : Z) :
  B64.nonneg0 11 u -> 2 ^ 1074 <= scaled u -> 0 <= p <= 100 ->
  B64.nonneg0 15 (B64.div (B64.mul u (B64.of_Z p)) (B64.of_Z 100)) /\
  2 ^ 51 * Z.abs (100 * scaled (B64.div (B64.mul u (B64.of_Z p)) (B64.of_Z 100))
                  - scaled u * p) <= scaled u * p.
Proof.
  intros Nu Hu Hp.
  pose proof (pow2_pos 1074 ltac:(lia)) as PT.
  assert (Np : B64.nonneg0 8 (B64.of_Z p)).
  { apply Run.nonneg_nonneg0. apply (Run.nonneg_of_Z p 7);
      [change (2 ^ 7) with 128|]; lia. }
  assert (Sp : scaled (B64.of_Z p) = p * 2 ^ 1074)
    by (apply of_Z_scaled; change (2 ^ 53) with 9007199254740992; lia).
  pose proof (mul_rounds u (B64.of_Z p) 11 8 19 Nu Np ltac:(lia) ltac:(lia)) as Fm.
  pose proof (Run.nonneg0_mul u (B64.of_Z p) 11 8 19 Nu Np ltac:(lia) ltac:(lia)) as Nm.
  change (19 + 1) with 20 in Nm.
  pose proof (div_100_rounds _ 20 14 Nm ltac:(lia) ltac:(lia)) as Fd.
  pose proof (Run.nonneg0_div_100 _ 20 14 Nm ltac:(lia) ltac:(lia)) as Nd.
  change (14 + 1) with 15 in Nd.
  split; [exact Nd|].
  rewrite Sp in Fm.
  remember (scaled (B64.mul u (B64.of_Z p))) as sprod eqn:Eprod.
  remember (scaled (B64.div (B64.mul u (B64.of_Z p)) (B64.of_Z 100))) as steg eqn:Eteg.
  remember (scaled u) as su eqn:Esu.
  remember (2 ^ 1074) as T eqn:ET.
  assert (HT : 2 ^ 60 <= T) by (subst T; apply pow2_le; lia).
  assert (P60 : 0 < 2 ^ 60) by (apply pow2_pos; lia).
  destruct (Z.eq_dec p 0) as [->|NZ].
  - assert (Z1 : sprod = 0).
    { apply (fmt_round_exact (su * (0 * T)) T sprod 0 ltac:(lia) Fm).
      - exists 0, 0. repeat split; lia.
      - ring. }
    rewrite Z1 in Fd.
    assert (Z2 : steg = 0).
    { apply (fmt_round_exact (0 * T) (100 * T) steg 0 ltac:(lia) Fd).
      - exists 0, 0. repeat split; lia.
      - ring. }
    rewrite Z2, !Z.mul_0_r. change (Z.abs (0 - 0)) with 0. lia.
  - assert (Hsp : T <= su * p).
    { assert (su * 1 <= su * p) by (apply Z.mul_le_mono_nonneg_l; lia). lia. }
    assert (H1 : 2 ^ 53 * Z.abs (su * p - sprod) <= su * p).
    { apply (abs_scale_cancel _ _ _ _ T ltac:(lia)).
      replace (su * p * T) with (su * (p * T)) by ring.
      apply (fmt_round_rel _ T sprod ltac:(lia) Fm).
      replace (su * (p * T)) with (su * p * T) by ring.
      rewrite (Z.mul_comm T).
      apply Z.mul_le_mono_nonneg_r; [lia|].
      change (2 ^ 52) with (2 ^ 60 / 256). 
      assert (2 ^ 60 / 256 <= 2 ^ 60) by (vm_compute; discriminate). lia. }
    change (2 ^ 53) with 9007199254740992 in H1.
    change (2 ^ 60) with 1152921504606846976 in HT.
    assert (Hlow : 100 * 2 ^ 52 <= sprod).
    { change (2 ^ 52) with 4503599627370496. lia. }
    assert (H2 : 2 ^ 53 * Z.abs (sprod - 100 * steg) <= sprod).
    { apply (abs_scale_cancel _ _ _ _ T ltac:(lia)).
      replace (100 * steg * T) with (steg * (100 * T)) by ring.
      apply (fmt_round_rel _ (100 * T) steg ltac:(lia) Fd).
      replace (100 * T * 2 ^ 52) with (100 * 2 ^ 52 * T) by ring.
      apply Z.mul_le_mono_nonneg_r; lia. }
    change (2 ^ 53) with 9007199254740992 in H2.
    change (2 ^ 51) with 2251799813685248.
    lia.
Qed.

(** *** The same over the reals *)

Lemma IZR_pow2_pos (k : Z) : 0 <= k -> (0 < IZR (2 ^ k))%R.
Proof. intros H. apply IZR_lt. apply pow2_pos. exact H. Qed.

Lemma teg_error_R (su sr d s : Z) :
  2 ^ 51 * Z.abs (100 * sr - su * (d + s)) <= su * (d + s) ->
  (Rabs (IZR sr / IZR (2 ^ 1074)
         - Ideal.calculate_teg_recovery (IZR su / IZR (2 ^ 1074)) (IZR d) (IZR s))
   <= Ideal.calculate_teg_recovery (IZR su / IZR (2 ^ 1074)) (IZR d) (IZR s)
      / 2 ^ 51)%R.
Proof.
  intros H. unfold Ideal.calculate_teg_recovery.
  pose proof (IZR_pow2_pos 1074 ltac:(lia)) as HT.
  remember (IZR (2 ^ 1074)) as T eqn:ET.
  apply IZR_le in H.
  rewrite mult_IZR, abs_IZR, minus_IZR, !mult_IZR, plus_IZR in H.
  assert (E51 : IZR (2 ^ 51) = (2 ^ 51)%R).
  { change (2 ^ 51)%Z with (2 ^ Z.of_nat 51)%Z. rewrite <- pow_IZR. reflexivity. }
  rewrite E51 in H.
  assert (P51 : (0 < 2 ^ 51)%R) by (apply pow_lt; lra).
  remember (2 ^ 51)%R as c eqn:Ec.
  remember (IZR sr) as A. remember (IZR su) as U.
  remember (IZR d + IZR s)%R as P.
  replace (A / T - U / T * P / 100)%R
    with ((IZR 100 * A - U * P) * / (100 * T))%R by (simpl; field; lra).
  assert (Pc : (0 < / (100 * T))%R) by (apply Rinv_0_lt_compat; lra).
  rewrite Rabs_mult, (Rabs_pos_eq (/ (100 * T))) by lra.
  replace (U / T * P / 100 / c)%R with (U * P / c * / (100 * T))%R
    by (field; lra).
  apply Rmult_le_compat_r; [lra|].
  apply (Rmult_le_reg_r c); [lra|].
  replace (U * P / c * c)%R with (U * P)%R by (field; lra).
  rewrite Rmult_comm. exact H.
Qed.


Lemma Rabs_bounds (x b : R) : (Rabs x <= b)%R -> (- b <= x <= b)%R.
Proof. unfold Rabs. destruct (Rcase_abs x); lra. Qed.

Lemma in_range_usage (u : B64.float) :
  in_range 1 2000 (PyFloat u) -> B64.nonneg0 11 u /\ 2 ^ 1074 <= scaled u.
Proof.
  intros R.
  destruct (Run.in_range_float 1 2000 11 u ltac:(lia) ltac:(reflexivity) ltac:(lia) R)
    as [N _].
  split; [exact N|].
  destruct R as (_ & L & _).
  apply (le_finite (PyInt 1) (PyFloat u) I (nonneg0_finite_num 11 u N)) in L.
  cbn [scaled_num] in L. lia.
Qed.

(** The recovery of a float usage in [1, 2000] at int percentages is
    within a relative error of 2^-51 of the formula over the reals. *)
Lemma teg_error (u : B64.float) (d s : Z) :
  in_range 1 2000 (PyFloat u) -> 0 <= d -> 0 <= s -> d + s <= 100 ->
  exists r,
    calculate_teg_recovery (PyFloat u) (PyInt d) (PyInt s) = Ok (PyFloat r) /\
    (Rabs (B2R r - Ideal.calculate_teg_recovery (B2R u) (IZR d) (IZR s))
     <= Ideal.calculate_teg_recovery (B2R u) (IZR d) (IZR s) / 2 ^ 51)%R.
Proof.
  intros R Hd Hs Hds.
  destruct (in_range_usage u R) as [Nu Hu].
  destruct (teg_error_Z u (d + s) Nu Hu ltac:(lia)) as [_ H].
  eexists. split; [apply teg_value; lia|].
  unfold B2R. apply teg_error_R. exact H.
Qed.

Lemma ideal_split_pct (u d1 s1 d2 s2 : R) :
  Ideal.calculate_teg_recovery u (d1 + d2) (s1 + s2) =
  (Ideal.calculate_teg_recovery u d1 s1 + Ideal.calculate_teg_recovery u d2 s2)%R.
Proof. unfold Ideal.calculate_teg_recovery. field. Qed.

Lemma ideal_split_usage (u1 u2 d s : R) :
  Ideal.calculate_teg_recovery (u1 + u2) d s =
  (Ideal.calculate_teg_recovery u1 d s + Ideal.calculate_teg_recovery u2 d s)%R.
Proof. unfold Ideal.calculate_teg_recovery. field. Qed.

Lemma defect_bound (r r1 r2 i i1 i2 : R) :
  i = (i1 + i2)%R ->
  (Rabs (r - i) <= i / 2 ^ 51)%R ->
  (Rabs (r1 - i1) <= i1 / 2 ^ 51)%R ->
  (Rabs (r2 - i2) <= i2 / 2 ^ 51)%R ->
  (Rabs (r - (r1 + r2)) <= i / 2 ^ 50)%R.
Proof.
  intros E H H1 H2.
  apply Rabs_bounds in H, H1, H2.
  assert (P : (0 < 2 ^ 50)%R) by (apply pow_lt; lra).
  assert (E1 : (i / 2 ^ 50 = 2 * (i / 2 ^ 51))%R).
  { change (2 ^ 51)%R with (2 * 2 ^ 50)%R. field; try lra. }
  assert (E2 : (i / 2 ^ 51 = i1 / 2 ^ 51 + i2 / 2 ^ 51)%R).
  { rewrite E. change (2 ^ 51)%R with (2 * 2 ^ 50)%R. field; try lra. }
  rewrite E1. apply Rabs_le. lra.
Qed.

Lemma B2R_add (u u1 u2 : B64.float) :
  scaled u = scaled u1 + scaled u2 -> B2R u = (B2R u1 + B2R u2)%R.
Proof.
  intros H. unfold B2R. rewrite H, plus_IZR.
  pose proof (IZR_pow2_pos 1074 ltac:(lia)). field. lra.
Qed.

(** In a run on in-range inputs the usage passed to
    calculate_teg_recovery is a float within [1, 2000] (in fact within
    [157, 590]). *)
Lemma run_usage (w : Inputs) :
  inputs_in_range w ->
  exists o usage,
    pipeline w = Ok o /\
    Py.add (geo_output o) (waste_output o) = Ok (PyFloat usage) /\
    in_range 1 2000 (PyFloat usage) /\
    calculate_teg_recovery (PyFloat usage) (teg_device_level w) (teg_system_level w)
    = Ok (teg_recovery o).
Proof.
  intros R. pose proof R as (Rt & Rw & Rd & Rs & Rh & Rc).
  assert (Rmax : inputs_in_range (slider_inputs 900 200 50 50 100 1000))
    by (apply Run.slider_in_range; unfold in_slider_range; lia).
  assert (Rmin : inputs_in_range (slider_inputs 300 10 0 0 0 100))
    by (apply Run.slider_in_range; unfold in_slider_range; lia).
  assert (Lmax : le_inputs w (slider_inputs 900 200 50 50 100 1000)).
  { unfold le_inputs, slider_inputs.
    cbn [geothermal_temp wasted_energy_input teg_device_level teg_system_level
         pipe_health storage_capacity].
    repeat split; [apply Rt|apply Rw|apply Rd|apply Rs|apply Rh|apply Rc]. }
  assert (Lmin : le_inputs (slider_inputs 300 10 0 0 0 100) w).
  { unfold le_inputs, slider_inputs.
    cbn [geothermal_temp wasted_energy_input teg_device_level teg_system_level
         pipe_health storage_capacity].
    repeat split; [apply Rt|apply Rw|apply Rd|apply Rs|apply Rh|apply Rc]. }
  destruct (Run.ranged_pipeline w R)
    as (geo & waste & teg & total & dis & E & Ng & Nw & _).
  apply Run.nonneg_nonneg0 in Ng, Nw.
  destruct (pipeline_ordered _ _ R Rmax Lmax) as (o & omax & E' & Emax & Ug & Uw & _).
  rewrite E in E'. injection E' as <-.
  destruct (pipeline_ordered _ _ Rmin R Lmin) as (omin & o' & Emin & E' & Lg & Lw & _).
  rewrite E in E'. injection E' as <-.
  assert (Vmax : pipeline (slider_inputs 900 200 50 50 100 1000) =
                 Ok {| geo_output := PyFloat (B64.of_Z 450);
                       waste_output := PyFloat (B64.of_Z 140);
                       teg_recovery := PyFloat (B64.of_Z 590);
                       pipe_status_msg := msg_optimal;
                       pipe_efficiency := PyFloat f1_0;
                       total_output := PyFloat (B64.of_Z 1180);
                       charge := PyInt 1000;
                       discharge := PyFloat (B64.of_Z 750) |})
    by (vm_compute; reflexivity).
  assert (Vmin : pipeline (slider_inputs 300 10 0 0 0 100) =
                 Ok {| geo_output := PyFloat (B64.of_Z 150);
                       waste_output := PyFloat (B64.of_Z 7);
                       teg_recovery := PyFloat B64.zero;
                       pipe_status_msg := msg_warning;
                       pipe_efficiency := PyFloat f0_6;
                       total_output := PyFloat (B64.literal 942 10);
                       charge := PyFloat (B64.literal 942 10);
                       discharge := PyFloat (B64.literal 7065 100) |})
    by (vm_compute; reflexivity).
  rewrite Emax in Vmax. injection Vmax as ->.
  rewrite Emin in Vmin. injection Vmin as ->.
  cbn [geo_output waste_output] in Ug, Uw, Lg, Lw.
  assert (N150 : B64.nonneg0 12 (B64.of_Z 150)).
  { apply Run.nonneg_nonneg0. apply (Run.nonneg_of_Z 150 11);
      [change (2 ^ 11) with 2048|]; lia. }
  assert (N7 : B64.nonneg0 12 (B64.of_Z 7)).
  { apply Run.nonneg_nonneg0. apply (Run.nonneg_of_Z 7 11);
      [change (2 ^ 11) with 2048|]; lia. }
  assert (N450 : B64.nonneg0 12 (B64.of_Z 450)).
  { apply Run.nonneg_nonneg0. apply (Run.nonneg_of_Z 450 11);
      [change (2 ^ 11) with 2048|]; lia. }
  assert (N140 : B64.nonneg0 12 (B64.of_Z 140)).
  { apply Run.nonneg_nonneg0. apply (Run.nonneg_of_Z 140 11);
      [change (2 ^ 11) with 2048|]; lia. }
  apply (Run.nonneg0_weaken 10 12) in Nw; [|lia].
  destruct Ug as (_ & _ & Ug), Uw as (_ & _ & Uw), Lg as (_ & _ & Lg), Lw as (_ & _ & Lw).
  cbn [scaled_num] in Ug, Uw, Lg, Lw.
  pose proof (add_ordered _ _ _ _ 12 (conj N150 (conj Ng Lg)) (conj N7 (conj Nw Lw))
                ltac:(lia)) as (_ & Nu & Lo).
  pose proof (add_ordered _ _ _ _ 12 (conj Ng (conj N450 Ug)) (conj Nw (conj N140 Uw))
                ltac:(lia)) as (_ & _ & Hi).
  replace (scaled (B64.add (B64.of_Z 150) (B64.of_Z 7))) with (157 * 2 ^ 1074) in Lo
    by (vm_compute; reflexivity).
  replace (scaled (B64.add (B64.of_Z 450) (B64.of_Z 140))) with (590 * 2 ^ 1074) in Hi
    by (vm_compute; reflexivity).
  pose proof (pow2_pos 1074 ltac:(lia)) as PT.
  destruct (pipeline_inv w _ E) as (_ & _ & (usage0 & Hu & Ht) & _).
  cbn [geo_output waste_output teg_recovery] in Hu, Ht.
  unfold Py.add in Hu. cbn [Py.to_float Py.bind] in Hu. injection Hu as <-.
  unfold B64.add in Ht. rewrite B64Facts.SFadd_comm in Ht. fold (B64.add geo waste) in Ht.
  eexists. exists (B64.add geo waste). split; [exact E|].
  cbn [geo_output waste_output teg_recovery].
  split; [reflexivity|]. split; [|exact Ht].
  pose proof (nonneg0_finite_num _ _ Nu) as Fu.
  split; [exact (proj1 Fu)|].
  split; apply le_finite; try exact I; try exact Fu; cbn [scaled_num]; lia.
Qed.

(** C3, amended. teg_recovery is usage * (device_pct + system_pct) / 100
    in Python arithmetic, and in a run usage is geo_output + waste_output
    (the script adds them as waste_output + geo_output, the same float).
    teg_recovery(100, 0, 0) is 0, and so is the recovery of any finite
    usage at 0%; integer percentages enter only through their sum.  Read
    over the reals the formula is linear in usage and in the two
    percentages; the floats the code computes are linear only up to
    rounding, within these bounds.  For a float usage in [1, 2000] and
    integer percentages d, s >= 0 with d + s <= 100, the computed
    recovery is within a relative error of 2^-51 of the real value
    usage * (d + s) / 100; hence the recovery at (d1 + d2, s1 + s2)
    differs from the sum of the recoveries at (d1, s1) and (d2, s2), and
    the recovery of u1 + u2 from the sum of the recoveries of u1 and u2,
    by at most 2^-50 of the real value.  Every run on inputs within the
    ranges, with integer percentages, is such a call. *)
Theorem teg_recovery_formula :
  (forall usage device_pct system_pct : num,
      calculate_teg_recovery usage device_pct system_pct =
      (pct <- Py.add device_pct system_pct ;;
       prod <- Py.mul usage pct ;;
       Py.truediv prod (PyInt 100))) /\
  (forall (g0 : globals) (w : Inputs) (o : Outputs),
      rerun g0 w = Ok o ->
      geothermal_energy (geothermal_temp w) = Ok (geo_output o) /\
      wasted_energy_recovery (wasted_energy_input w) = Ok (waste_output o) /\
      exists usage,
        Py.add (geo_output o) (waste_output o) = Ok usage /\
        calculate_teg_recovery usage (teg_device_level w) (teg_system_level w)
        = Ok (teg_recovery o)) /\
  (forall w : Inputs,
      inputs_in_range w -> exists o, evaluate w = Ok o) /\
  calculate_teg_recovery (PyInt 100) (PyInt 0) (PyInt 0) = Ok (PyFloat B64.zero) /\
  (forall u : B64.float, B64.is_finite u = true ->
      exists z, calculate_teg_recovery (PyFloat u) (PyInt 0) (PyInt 0) = Ok z /\
                Py.eq z (PyInt 0) = true) /\
  (forall (usage : num) (d s d' s' : Z), d + s = d' + s' ->
      calculate_teg_recovery usage (PyInt d) (PyInt s) =
      calculate_teg_recovery usage (PyInt d') (PyInt s')) /\
  (forall u1 u2 d s : R,
      Ideal.calculate_teg_recovery (u1 + u2) d s =
      (Ideal.calculate_teg_recovery u1 d s + Ideal.calculate_teg_recovery u2 d s)%R) /\
  (forall k u d s : R,
      Ideal.calculate_teg_recovery (k * u) d s =
      (k * Ideal.calculate_teg_recovery u d s)%R) /\
  (forall u d1 d2 s1 s2 : R,
      Ideal.calculate_teg_recovery u (d1 + d2) (s1 + s2) =
      (Ideal.calculate_teg_recovery u d1 s1 + Ideal.calculate_teg_recovery u d2 s2)%R) /\
  (forall k u d s : R,
      Ideal.calculate_teg_recovery u (k * d) (k * s) =
      (k * Ideal.calculate_teg_recovery u d s)%R) /\
  (forall (u : B64.float) (d s : Z),
      in_range 1 2000 (PyFloat u) -> 0 <= d -> 0 <= s -> d + s <= 100 ->
      exists r,
        calculate_teg_recovery (PyFloat u) (PyInt d) (PyInt s) = Ok (PyFloat r) /\
        (Rabs (B2R r - Ideal.calculate_teg_recovery (B2R u) (IZR d) (IZR s))
         <= Ideal.calculate_teg_recovery (B2R u) (IZR d) (IZR s) / 2 ^ 51)%R) /\
  (forall (u : B64.float) (d1 s1 d2 s2 : Z),
      in_range 1 2000 (PyFloat u) ->
      0 <= d1 -> 0 <= s1 -> 0 <= d2 -> 0 <= s2 -> d1 + s1 + d2 + s2 <= 100 ->
      exists r1 r2 r,
        calculate_teg_recovery (PyFloat u) (PyInt d1) (PyInt s1) = Ok (PyFloat r1) /\
        calculate_teg_recovery (PyFloat u) (PyInt d2) (PyInt s2) = Ok (PyFloat r2) /\
        calculate_teg_recovery (PyFloat u) (PyInt (d1 + d2)) (PyInt (s1 + s2))
        = Ok (PyFloat r) /\
        (Rabs (B2R r - (B2R r1 + B2R r2))
         <= Ideal.calculate_teg_recovery (B2R u) (IZR (d1 + d2)) (IZR (s1 + s2))
            / 2 ^ 50)%R) /\
  (forall (u1 u2 u : B64.float) (d s : Z),
      in_range 1 2000 (PyFloat u1) -> in_range 1 2000 (PyFloat u2) ->
      in_range 1 2000 (PyFloat u) -> scaled u = scaled u1 + scaled u2 ->
      0 <= d -> 0 <= s -> d + s <= 100 ->
      exists r1 r2 r,
        calculate_teg_recovery (PyFloat u1) (PyInt d) (PyInt s) = Ok (PyFloat r1) /\
        calculate_teg_recovery (PyFloat u2) (PyInt d) (PyInt s) = Ok (PyFloat r2) /\
        calculate_teg_recovery (PyFloat u) (PyInt d) (PyInt s) = Ok (PyFloat r) /\
        B2R u = (B2R u1 + B2R u2)%R /\
        (Rabs (B2R r - (B2R r1 + B2R r2))
         <= Ideal.calculate_teg_recovery (B2R u) (IZR d) (IZR s) / 2 ^ 50)%R) /\
  (forall (w : Inputs) (d s : Z),
      inputs_in_range w ->
      teg_device_level w = PyInt d -> teg_system_level w = PyInt s ->
      exists o usage r,
        evaluate w = Ok o /\
        Py.add (geo_output o) (waste_output o) = Ok (PyFloat usage) /\
        teg_recovery o = PyFloat r /\
        (Rabs (B2R r - Ideal.calculate_teg_recovery (B2R usage) (IZR d) (IZR s))
         <= Ideal.calculate_teg_recovery (B2R usage) (IZR d) (IZR s) / 2 ^ 51)%R).
Proof.
  split; [reflexivity|].
  split.
  { intros g0 w o H. rewrite rerun_pipeline in H.
    destruct (pipeline_inv w o H) as (Hg & Hw & (usage & Hu & Ht) & _).
    split; [exact Hg|]. split; [exact Hw|].
    exists usage. split; [rewrite PyFacts.add_comm; exact Hu|exact Ht]. }
  split.
  { intros w Hr. unfold evaluate. rewrite rerun_pipeline.
    destruct (Run.ranged_pipeline w Hr) as (? & ? & ? & ? & ? & E & _).
    eexists. exact E. }
  split; [reflexivity|].
  split.
  { intros u Hf. rewrite (teg_recovery_zero_pct u Hf).
    eexists. split; reflexivity. }
  split.
  { intros usage d s d' s' H. unfold calculate_teg_recovery, Py.add.
    cbn [Py.bind]. rewrite H. reflexivity. }
  split; [intros; apply ideal_split_usage|].
  split; [intros; unfold Ideal.calculate_teg_recovery; field|].
  split; [intros; apply ideal_split_pct|].
  split; [intros; unfold Ideal.calculate_teg_recovery; field|].
  split; [exact teg_error|].
  split.
  { intros u d1 s1 d2 s2 R H1 H2 H3 H4 H5.
    destruct (teg_error u d1 s1 R H1 H2 ltac:(lia)) as (r1 & E1 & B1).
    destruct (teg_error u d2 s2 R H3 H4 ltac:(lia)) as (r2 & E2 & B2).
    destruct (teg_error u (d1 + d2) (s1 + s2) R ltac:(lia) ltac:(lia) ltac:(lia))
      as (r & E & B).
    exists r1, r2, r. repeat (split; [assumption|]).
    refine (defect_bound _ _ _ _ _ _ _ B B1 B2).
    rewrite !plus_IZR. apply ideal_split_pct. }
  split.
  { intros u1 u2 u d s R1 R2 R E H1 H2 H3.
    destruct (teg_error u1 d s R1 H1 H2 H3) as (r1 & E1 & B1).
    destruct (teg_error u2 d s R2 H1 H2 H3) as (r2 & E2 & B2).
    destruct (teg_error u d s R H1 H2 H3) as (r & E0 & B).
    exists r1, r2, r. repeat (split; [assumption|]).
    split; [apply B2R_add; exact E|].
    refine (defect_bound _ _ _ _ _ _ _ B B1 B2).
    rewrite (B2R_add u u1 u2 E). apply ideal_split_usage. }
  intros w d s R Hd Hs.
  destruct (run_usage w R) as (o & usage & E & Hu & Ru & Ht).
  rewrite Hd, Hs in Ht.
  destruct R as (_ & _ & Rd & Rs & _).
  rewrite Hd in Rd. rewrite Hs in Rs.
  destruct Rd as (_ & Ld & Ud), Rs as (_ & Ls & Us).
  rewrite Run.le_int_int in Ld, Ud, Ls, Us.
  destruct (teg_error usage d s Ru Ld Ls ltac:(lia)) as (r & Er & Br).
  rewrite Er in Ht. injection Ht as Ht.
  exists o, usage, r. rewrite evaluate_pipeline.
  split; [exact E|]. split; [exact Hu|]. split; [symmetry; exact Ht|exact Br].
Qed.

Lemma teg_recovery_formula_witness :
  (exists usage,
      Py.add (geo_output example_outputs) (waste_output example_outputs) = Ok usage /\
      calculate_teg_recovery usage (PyInt 15) (PyInt 20)
      = Ok (teg_recovery example_outputs)) /\
  (exists o, evaluate (slider_inputs 600 80 15 20 100 500) = Ok o) /\
  (exists z, calculate_teg_recovery (PyFloat (B64.literal 356 1)) (PyInt 0) (PyInt 0) = Ok z /\
             Py.eq z (PyInt 0) = true) /\
  calculate_teg_recovery (PyInt 7) (PyInt 15) (PyInt 20) =
  calculate_teg_recovery (PyInt 7) (PyInt 35) (PyInt 0) /\
  (exists r,
      calculate_teg_recovery (PyFloat (B64.of_Z 157)) (PyInt 1) (PyInt 4)
      = Ok (PyFloat r) /\
      (Rabs (B2R r - Ideal.calculate_teg_recovery (B2R (B64.of_Z 157)) (IZR 1) (IZR 4))
       <= Ideal.calculate_teg_recovery (B2R (B64.of_Z 157)) (IZR 1) (IZR 4) / 2 ^ 51)%R) /\
  (exists r1 r2 r,
      calculate_teg_recovery (PyFloat (B64.of_Z 157)) (PyInt 1) (PyInt 0)
      = Ok (PyFloat r1) /\
      calculate_teg_recovery (PyFloat (B64.of_Z 157)) (PyInt 4) (PyInt 0)
      = Ok (PyFloat r2) /\
      calculate_teg_recovery (PyFloat (B64.of_Z 157)) (PyInt (1 + 4)) (PyInt (0 + 0))
      = Ok (PyFloat r) /\
      (Rabs (B2R r - (B2R r1 + B2R r2))
       <= Ideal.calculate_teg_recovery (B2R (B64.of_Z 157)) (IZR (1 + 4)) (IZR (0 + 0))
          / 2 ^ 50)%R) /\
  (exists r1 r2 r,
      calculate_teg_recovery (PyFloat (B64.of_Z 1)) (PyInt 10) (PyInt 0)
      = Ok (PyFloat r1) /\
      calculate_teg_recovery (PyFloat (B64.of_Z 2)) (PyInt 10) (PyInt 0)
      = Ok (PyFloat r2) /\
      calculate_teg_recovery (PyFloat (B64.of_Z 3)) (PyInt 10) (PyInt 0)
      = Ok (PyFloat r) /\
      B2R (B64.of_Z 3) = (B2R (B64.of_Z 1) + B2R (B64.of_Z 2))%R /\
      (Rabs (B2R r - (B2R r1 + B2R r2))
       <= Ideal.calculate_teg_recovery (B2R (B64.of_Z 3)) (IZR 10) (IZR 0) / 2 ^ 50)%R) /\
  (exists o usage r,
      evaluate (slider_inputs 300 10 1 4 100 500) = Ok o /\
      Py.add (geo_output o) (waste_output o) = Ok (PyFloat usage) /\
      teg_recovery o = PyFloat r /\
      (Rabs (B2R r - Ideal.calculate_teg_recovery (B2R usage) (IZR 1) (IZR 4))
       <= Ideal.calculate_teg_recovery (B2R usage) (IZR 1) (IZR 4) / 2 ^ 51)%R).
Proof.
  destruct teg_recovery_formula
    as (_ & A & B & _ & C & D & _ & _ & _ & _ & E & F & G & H).
  assert (R157 : in_range 1 2000 (PyFloat (B64.of_Z 157)))
    by (split; [|split]; vm_compute; reflexivity).
  split; [|split; [|split; [|split; [|split; [|split; [|split]]]]]].
  - apply (A [] example_inputs example_outputs example_run).
  - apply (B (slider_inputs 600 80 15 20 100 500)).
    apply Run.slider_in_range. unfold in_slider_range. lia.
  - apply (C (B64.literal 356 1)). reflexivity.
  - apply (D (PyInt 7) 15 20 35 0). reflexivity.
  - apply (E (B64.of_Z 157) 1 4 R157); lia.
  - apply (F (B64.of_Z 157) 1 0 4 0 R157); lia.
  - apply (G (B64.of_Z 1) (B64.of_Z 2) (B64.of_Z 3) 10 0);
      try lia; try (vm_compute; reflexivity);
      (split; [|split]; vm_compute; reflexivity).
  - apply (H (slider_inputs 300 10 1 4 100 500) 1 4); try reflexivity.
    apply Run.slider_in_range. unfold in_slider_range. lia.
Defined.

(* ================================================================== *)
(** ** The exceptions a run can raise *)
(* ================================================================== *)

Lemma bind_raise {A B} (r : result A) (k : A -> result B) (e : exc) :
  Py.bind r k = Raise e -> r = Raise e \/ exists a, r = Ok a /\ k a = Raise e.
Proof.
  destruct r as [a|e']; cbn [Py.bind]; intros H; [right; eauto|left].
  injection H as ->. reflexivity.
Qed.

Lemma to_float_raise (a : num) (e : exc) :
  Py.to_float a = Raise e -> e = OverflowError.
Proof.
  destruct a as [n|x]; cbn [Py.to_float]; [|discriminate].
  unfold Py.float_of_int. destruct (B64.of_Z n); try discriminate.
  intros H. injection H as <-. reflexivity.
Qed.

Lemma mul_raise (a b : num) (e : exc) : Py.mul a b = Raise e -> e = OverflowError.
Proof.
  unfold Py.mul.
  destruct a as [x|x], b as [y|y]; try discriminate; intros H;
    apply bind_raise in H; destruct H as [H|(fa & _ & H)];
    try (exact (to_float_raise _ _ H));
    apply bind_raise in H; destruct H as [H|(fb & _ & H)];
    try (exact (to_float_raise _ _ H)); discriminate H.
Qed.

Lemma add_raise (a b : num) (e : exc) : Py.add a b = Raise e -> e = OverflowError.
Proof.
  unfold Py.add.
  destruct a as [x|x], b as [y|y]; try discriminate; intros H;
    apply bind_raise in H; destruct H as [H|(fa & _ & H)];
    try (exact (to_float_raise _ _ H));
    apply bind_raise in H; destruct H as [H|(fb & _ & H)];
    try (exact (to_float_raise _ _ H)); discriminate H.
Qed.

Lemma truediv_100_raise (a : num) (e : exc) :
  Py.truediv a (PyInt 100) = Raise e -> e = OverflowError.
Proof.
  unfold Py.truediv. destruct a as [x|x].
  - change (100 =? 0) with false. cbv iota.
    destruct (B64.div (B64.exact_Z x) (B64.exact_Z 100)); try discriminate.
    intros H. injection H as <-. reflexivity.
  - cbn [Py.to_float Py.bind].
    change (Py.float_of_int 100) with (Ok (B64.of_Z 100)). cbn [Py.bind].
    change (B64.is_zero (B64.of_Z 100)) with false. discriminate.
Qed.

Lemma teg_raise (u d s : num) (e : exc) :
  calculate_teg_recovery u d s = Raise e -> e = OverflowError.
Proof.
  unfold calculate_teg_recovery. intros H.
  apply bind_raise in H. destruct H as [H|(pct & _ & H)];
    [exact (add_raise _ _ _ H)|].
  apply bind_raise in H. destruct H as [H|(prod & _ & H)];
    [exact (mul_raise _ _ _ H)|].
  exact (truediv_100_raise _ _ H).
Qed.

Lemma pipeline_raise (w : Inputs) (e : exc) :
  pipeline w = Raise e -> e = OverflowError.
Proof.
  unfold pipeline, geothermal_energy, wasted_energy_recovery. intros H.
  apply bind_raise in H. destruct H as [H|(geo & _ & H)]; [exact (mul_raise _ _ _ H)|].
  apply bind_raise in H. destruct H as [H|(waste & _ & H)]; [exact (mul_raise _ _ _ H)|].
  apply bind_raise in H. destruct H as [H|(usage & _ & H)]; [exact (add_raise _ _ _ H)|].
  apply bind_raise in H. destruct H as [H|(teg & _ & H)]; [exact (teg_raise _ _ _ _ H)|].
  apply bind_raise in H. destruct H as [H|(s1 & _ & H)]; [exact (add_raise _ _ _ H)|].
  apply bind_raise in H. destruct H as [H|(s2 & _ & H)]; [exact (add_raise _ _ _ H)|].
  apply bind_raise in H. destruct H as [H|(total & _ & H)]; [exact (mul_raise _ _ _ H)|].
  apply bind_raise in H. destruct H as [H|(dis & _ & H)]; [exact (mul_raise _ _ _ H)|].
  discriminate H.
Qed.

Lemma small_to_float (a : num) :
  small_int a -> exists x, Py.to_float a = Ok x.
Proof.
  destruct a as [n|x]; cbn [small_int]; intros H.
  - exists (B64.of_Z n). apply to_float_int.
    assert (2 ^ 1000 < 2 ^ 1001) by (apply Z.pow_lt_mono_r; lia). lia.
  - exists x. reflexivity.
Qed.

Lemma pipeline_returns_or_overflows (w : Inputs) :
  returns_or_overflows (pipeline w).
Proof.
  unfold returns_or_overflows. destruct (pipeline w) as [o|e] eqn:E.
  - left. exists o. reflexivity.
  - right. rewrite (pipeline_raise w e E). reflexivity.
Qed.

(** X8. A run that starts in a fresh module namespace, or in any
    namespace that leaves [min] to the builtins, raises no exception
    other than OverflowError (no ZeroDivisionError, NameError or
    TypeError), and so does every run of a session started in a fresh
    namespace; a run raises nothing when every input is a float or an int
    below 2^1000 in magnitude, in any mix of the two types and whatever
    pipe_health is. *)
Theorem run_raises_only_overflow :
  (forall (g0 : globals) (w : Inputs),
      lookup "min" g0 = None -> returns_or_overflows (rerun g0 w)) /\
  (forall ws : list Inputs, Forall returns_or_overflows (session [] ws)) /\
  (forall w : Inputs,
      small_int (geothermal_temp w) -> small_int (wasted_energy_input w) ->
      small_int (teg_device_level w) -> small_int (teg_system_level w) ->
      small_int (storage_capacity w) ->
      exists o, evaluate w = Ok o).
Proof.
  split; [|split].
  - intros g0 w _. rewrite rerun_pipeline. apply pipeline_returns_or_overflows.
  - intros ws. rewrite session_evaluate. apply Forall_forall.
    intros r Hin. apply in_map_iff in Hin. destruct Hin as (w & <- & _).
    rewrite evaluate_pipeline. apply pipeline_returns_or_overflows.
  - intros w Ht Hw Hd Hs Hc. rewrite evaluate_pipeline.
    destruct (small_to_float _ Ht) as (ft & Et).
    destruct (small_to_float _ Hw) as (fw & Ew).
    destruct (small_to_float _ Hc) as (fc & Ec).
    destruct (small_to_float _ Hd) as (fd & Ed).
    destruct (small_to_float _ Hs) as (fs & Es).
    assert (Hp : exists pct fp,
               Py.add (teg_device_level w) (teg_system_level w) = Ok pct /\
               Py.to_float pct = Ok fp).
    { destruct (teg_device_level w) as [d|d], (teg_system_level w) as [s|s].
      - exists (PyInt (d + s)), (B64.of_Z (d + s)). split; [reflexivity|].
        apply to_float_int. cbn [small_int] in Hd, Hs.
        change (2 ^ 1001) with (2 * 2 ^ 1000). lia.
      - unfold Py.add. rewrite Ed, Es. cbn [Py.bind].
        eexists; eexists; split; reflexivity.
      - unfold Py.add. rewrite Ed, Es. cbn [Py.bind].
        eexists; eexists; split; reflexivity.
      - unfold Py.add. rewrite Ed, Es. cbn [Py.bind].
        eexists; eexists; split; reflexivity. }
    destruct Hp as (pct & fp & Ep & Efp).
    exact (pipeline_returns w ft fw fp fc pct Et Ew Ep Efp Ec).
Qed.

Lemma run_raises_only_overflow_witness :
  returns_or_overflows
    (rerun [("charge"%string, VStr "left over")]
           (slider_inputs (2 ^ 1024) 80 15 20 100 500)) /\
  exists o,
    evaluate {| geothermal_temp := PyInt (-40);
                wasted_energy_input := PyFloat (B64.literal 5 10);
                teg_device_level := PyInt 75;
                teg_system_level := PyFloat (S754_infinity false);
                pipe_health := PyInt (2 ^ 2000);
                storage_capacity := PyInt 0 |} = Ok o.
Proof.
  destruct run_raises_only_overflow as (A & _ & B).
  split.
  - apply A. reflexivity.
  - apply B; cbn [geothermal_temp wasted_energy_input teg_device_level
                  teg_system_level storage_capacity small_int];
      try exact I; apply Z.ltb_lt; vm_compute; reflexivity.
Defined.

(* ================================================================== *)
(** ** The chart stays between zero and total_output *)
(* ================================================================== *)

Lemma mul_self_abs (s : bool) (m : positive) (e : Z) :
  B64.mul (S754_finite s m e) (S754_finite s m e) =
  B64.mul (S754_finite false m e) (S754_finite false m e).
Proof. destruct s; reflexivity. Qed.

(** The square of a float between -1 and 1 is between 0 and 1. *)
Lemma square_le_one (s : B64.float) :
  B64.valid s = true ->
  Py.le (PyInt (-1)) (PyFloat s) = true -> Py.le (PyFloat s) (PyInt 1) = true ->
  B64.nonneg0 3 (B64.mul s s) /\ scaled (B64.mul s s) <= 2 ^ 1074.
Proof.
  intros V Lo Hi. pose proof (pow2_pos 1074 ltac:(lia)) as P.
  destruct s as [sg|sg| |sg m e].
  - split; [split; [exact I|right; reflexivity]|].
    replace (scaled (B64.mul (S754_zero sg) (S754_zero sg))) with 0
      by (destruct sg; reflexivity).
    lia.
  - exfalso. destruct sg; discriminate.
  - discriminate.
  - unfold B64.valid, valid_binary in V.
    destruct (bounded_facts m e V) as (He & _).
    assert (Hm : Zpos m * 2 ^ (e + 1074) <= 2 ^ 1074).
    { assert (F : finite_num (PyFloat (S754_finite sg m e))) by (split; [exact V|reflexivity]).
      apply (le_finite (PyInt (-1)) _ I F) in Lo.
      apply (le_finite _ (PyInt 1) F I) in Hi.
      cbn [scaled_num scaled] in Lo, Hi.
      destruct sg; [|lia].
      change (Z.neg m) with (- Zpos m) in Lo. rewrite Z.mul_opp_l in Lo. lia. }
    assert (N : B64.nonneg0 1 (S754_finite false m e)).
    { split; [|left; reflexivity]. split; [exact V|].
      assert (D : Zdigits2 (Zpos m * 2 ^ (e + 1074)) <= 1075).
      { apply B64Facts.Zdigits2_lt_pow2; [|lia|].
        - apply Z.mul_nonneg_nonneg; [lia|]. apply Z.lt_le_incl, pow2_pos. lia.
        - assert (2 ^ 1074 < 2 ^ 1075) by (apply Z.pow_lt_mono_r; lia). lia. }
      rewrite B64Facts.Zdigits2_mul_pow2 in D by lia. lia. }
    rewrite mul_self_abs.
    split; [exact (Run.nonneg0_mul _ _ 1 1 2 N N ltac:(lia) ltac:(lia))|].
    apply (fmt_round_le (scaled (S754_finite false m e) * scaled (S754_finite false m e))
                        (2 ^ 1074)); [exact P| | |].
    + exact (mul_rounds _ _ 1 1 2 N N ltac:(lia) ltac:(lia)).
    + exists 1074, 1. change (2 ^ 53) with 9007199254740992. repeat split; lia.
    + cbn [scaled]. apply Z.mul_le_mono_nonneg; try lia;
        apply Z.mul_nonneg_nonneg; lia.
Qed.

(** X9. With a sine whose values at the 24 chart arguments are
    well-formed floats within [-1, 1], every point of the charted series
    of a run on in-range inputs lies between 0 and total_output. *)
Theorem generation_bounded (np_sin : B64.float -> B64.float) (w : Inputs) :
  (forall h : Z, In h hours ->
     B64.valid (np_sin (phase h)) = true /\
     Py.le (PyInt (-1)) (PyFloat (np_sin (phase h))) = true /\
     Py.le (PyFloat (np_sin (phase h))) (PyInt 1) = true) ->
  inputs_in_range w ->
  exists o series,
    evaluate w = Ok o /\
    generation np_sin (total_output o) = Ok series /\
    forall g : B64.float, In g series ->
      Py.le (PyInt 0) (PyFloat g) = true /\
      Py.le (PyFloat g) (total_output o) = true.
Proof.
  intros Hsin R.
  destruct (Run.ranged_pipeline w R)
    as (geo & waste & teg & total & dis & E & _ & _ & _ & Ntot & _).
  apply Run.nonneg_nonneg0 in Ntot.
  eexists. exists (map (generation_at np_sin total) hours).
  rewrite evaluate_pipeline. split; [exact E|].
  cbn [total_output]. split; [reflexivity|].
  intros g Hg. apply in_map_iff in Hg. destruct Hg as (h & <- & Hh).
  destruct (Hsin h Hh) as (V & Lo & Hi).
  destruct (square_le_one _ V Lo Hi) as [Nq Hq].
  unfold generation_at. cbv zeta.
  remember (B64.mul (np_sin (phase h)) (np_sin (phase h))) as q eqn:Eq.
  pose proof (Run.nonneg0_mul total q 23 3 26 Ntot Nq ltac:(lia) ltac:(lia)) as Ng.
  pose proof (pow2_pos 1074 ltac:(lia)) as P.
  split.
  - apply le_finite; [exact I|exact (nonneg0_finite_num _ _ Ng)|].
    cbn [scaled_num]. exact (scaled_nonneg _ _ Ng).
  - apply le_finite;
      [exact (nonneg0_finite_num _ _ Ng)|exact (nonneg0_finite_num _ _ Ntot)|].
    cbn [scaled_num].
    apply (fmt_round_le (scaled total * scaled q) (2 ^ 1074)); [exact P| | |].
    + exact (mul_rounds total q 23 3 26 Ntot Nq ltac:(lia) ltac:(lia)).
    + exact (scaled_representable 23 total Ntot).
    + apply Z.mul_le_mono_nonneg_l; [exact (scaled_nonneg 23 total Ntot)|exact Hq].
Qed.

Lemma generation_bounded_witness :
  exists o series,
    evaluate (slider_inputs 600 80 15 20 100 500) = Ok o /\
    generation table_sin (total_output o) = Ok series /\
    forall g : B64.float, In g series ->
      Py.le (PyInt 0) (PyFloat g) = true /\
      Py.le (PyFloat g) (total_output o) = true.
Proof.
  apply (generation_bounded table_sin (slider_inputs 600 80 15 20 100 500)).
  - intros h Hh. unfold hours in Hh. cbn [seq map] in Hh.
    repeat (destruct Hh as [<-|Hh]; [vm_compute; auto|]). contradiction.
  - apply Run.slider_in_range. unfold in_slider_range. lia.
Defined.

(* ================================================================== *)
(** ** The two recovery functions *)
(* ================================================================== *)

(** X10. The device-level and the system-level percentage enter a run
    only through their sum: exchanging them changes no output, for any
    inputs (and a run that raises still raises the same exception). *)
Theorem teg_levels_commute (w : Inputs) :
  evaluate {| geothermal_temp := geothermal_temp w;
              wasted_energy_input := wasted_energy_input w;
              teg_device_level := teg_system_level w;
              teg_system_level := teg_device_level w;
              pipe_health := pipe_health w;
              storage_capacity := storage_capacity w |} = evaluate w.
Proof.
  rewrite !evaluate_pipeline. unfold pipeline.
  cbn [geothermal_temp wasted_energy_input teg_device_level teg_system_level
       pipe_health storage_capacity].
  unfold calculate_teg_recovery.
  rewrite (PyFacts.add_comm (teg_system_level w) (teg_device_level w)).
  reflexivity.
Qed.

(** X11. wasted_energy_recovery is monotone non-decreasing on [10, 200],
    over ints and floats alike, and its result there lies within
    [7, 140]. *)
Theorem wasted_energy_recovery_monotone (a b : num) :
  in_range 10 200 a -> in_range 10 200 b -> Py.le a b = true ->
  exists ra rb,
    wasted_energy_recovery a = Ok (PyFloat ra) /\
    wasted_energy_recovery b = Ok (PyFloat rb) /\
    Py.le (PyFloat ra) (PyFloat rb) = true /\
    Py.le (PyInt 7) (PyFloat ra) = true /\
    Py.le (PyFloat rb) (PyInt 140) = true.
Proof.
  intros Ra Rb L.
  destruct (to_float_ordered 10 200 8 a b ltac:(lia) ltac:(reflexivity) ltac:(lia)
              Ra Rb L) as (x & y & Ex & Ey & O & Vx & Vy & _).
  pose proof O as (Nx & Ny & _).
  pose proof (in_range_finite 10 200 a ltac:(lia) Ra) as Fa.
  pose proof (in_range_finite 10 200 b ltac:(lia) Rb) as Fb.
  assert (N10 : B64.nonneg0 9 (B64.of_Z 10)).
  { apply Run.nonneg_nonneg0. apply (Run.nonneg_of_Z 10 8);
      [change (2 ^ 8) with 256|]; lia. }
  assert (N200 : B64.nonneg0 9 (B64.of_Z 200)).
  { apply Run.nonneg_nonneg0. apply (Run.nonneg_of_Z 200 8);
      [change (2 ^ 8) with 256|]; lia. }
  assert (Olo : ordered 9 (B64.of_Z 10) x).
  { split; [exact N10|]. split; [exact Nx|].
    rewrite Vx. change (scaled (B64.of_Z 10)) with (scaled_num (PyFloat (B64.of_Z 10))).
    rewrite (of_Z_scaled_small 10) by lia.
    destruct Ra as (_ & La & _). apply (le_finite (PyInt 10) a I Fa) in La. exact La. }
  assert (Ohi : ordered 9 y (B64.of_Z 200)).
  { split; [exact Ny|]. split; [exact N200|].
    rewrite Vy. change (scaled (B64.of_Z 200)) with (scaled_num (PyFloat (B64.of_Z 200))).
    rewrite (of_Z_scaled_small 200) by lia.
    destruct Rb as (_ & _ & Hb). apply (le_finite b (PyInt 200) Fb I) in Hb. exact Hb. }
  pose proof (mul_ordered f0_7 f0_7 _ _ 0 9 9 (ordered_refl 0 _ nonneg0_f0_7) O
                ltac:(lia) ltac:(lia)) as Oab.
  pose proof (mul_ordered f0_7 f0_7 _ _ 0 9 9 (ordered_refl 0 _ nonneg0_f0_7) Olo
                ltac:(lia) ltac:(lia)) as (_ & Nra & Hlo).
  pose proof (mul_ordered f0_7 f0_7 _ _ 0 9 9 (ordered_refl 0 _ nonneg0_f0_7) Ohi
                ltac:(lia) ltac:(lia)) as (Nrb & _ & Hhi).
  exists (B64.mul f0_7 x), (B64.mul f0_7 y).
  unfold wasted_energy_recovery.
  split; [exact (PyFacts.mul_float_l _ _ _ Ex)|].
  split; [exact (PyFacts.mul_float_l _ _ _ Ey)|].
  split; [exact (ordered_le _ _ _ Oab)|].
  split.
  - apply le_finite; [exact I|exact (nonneg0_finite_num _ _ Nra)|].
    cbn [scaled_num].
    replace (7 * 2 ^ 1074) with (scaled (B64.mul f0_7 (B64.of_Z 10)))
      by (vm_compute; reflexivity).
    exact Hlo.
  - apply le_finite; [exact (nonneg0_finite_num _ _ Nrb)|exact I|].
    cbn [scaled_num].
    replace (140 * 2 ^ 1074) with (scaled (B64.mul f0_7 (B64.of_Z 200)))
      by (vm_compute; reflexivity).
    exact Hhi.
Qed.

Lemma wasted_energy_recovery_monotone_witness :
  exists ra rb,
    wasted_energy_recovery (PyInt 80) = Ok (PyFloat ra) /\
    wasted_energy_recovery (PyFloat (B64.literal 1205 10)) = Ok (PyFloat rb) /\
    Py.le (PyFloat ra) (PyFloat rb) = true /\
    Py.le (PyInt 7) (PyFloat ra) = true /\
    Py.le (PyFloat rb) (PyInt 140) = true.
Proof.
  apply (wasted_energy_recovery_monotone (PyInt 80) (PyFloat (B64.literal 1205 10)));
    repeat split; vm_compute; reflexivity.
Defined.

(** X12. calculate_teg_recovery is monotone in each argument: for float
    usages within [0, 2000] and percentages within [0, 50] (ints or
    floats), raising the usage or either percentage does not lower the
    recovery, which is never negative. *)
Theorem calculate_teg_recovery_monotone
        (u1 u2 : B64.float) (d1 d2 s1 s2 : num) :
  in_range 0 2000 (PyFloat u1) -> in_range 0 2000 (PyFloat u2) ->
  in_range 0 50 d1 -> in_range 0 50 d2 ->
  in_range 0 50 s1 -> in_range 0 50 s2 ->
  Py.le (PyFloat u1) (PyFloat u2) = true ->
  Py.le d1 d2 = true -> Py.le s1 s2 = true ->
  exists r1 r2,
    calculate_teg_recovery (PyFloat u1) d1 s1 = Ok (PyFloat r1) /\
    calculate_teg_recovery (PyFloat u2) d2 s2 = Ok (PyFloat r2) /\
    Py.le (PyInt 0) (PyFloat r1) = true /\
    Py.le (PyFloat r1) (PyFloat r2) = true.
Proof.
  intros Ru1 Ru2 Rd1 Rd2 Rs1 Rs2 Lu Ld Ls.
  destruct (to_float_ordered 0 2000 11 _ _ ltac:(lia) ltac:(reflexivity) ltac:(lia)
              Ru1 Ru2 Lu) as (x1 & x2 & E1 & E2 & Ou & _).
  cbn [Py.to_float] in E1, E2. injection E1 as <-. injection E2 as <-.
  destruct (pct_rounds _ _ Rd1 Rs1) as (pct1 & fp1 & Ep1 & Efp1 & Np1 & Fp1).
  destruct (pct_rounds _ _ Rd2 Rs2) as (pct2 & fp2 & Ep2 & Efp2 & Np2 & Fp2).
  assert (Op : ordered 9 fp1 fp2).
  { split; [exact Np1|]. split; [exact Np2|].
    apply (fmt_round_mono _ 1 _ _ 1 _ ltac:(lia) ltac:(lia) Fp1 Fp2).
    apply (le_finite _ _ (in_range_finite 0 50 _ ltac:(lia) Rd1)
                         (in_range_finite 0 50 _ ltac:(lia) Rd2)) in Ld.
    apply (le_finite _ _ (in_range_finite 0 50 _ ltac:(lia) Rs1)
                         (in_range_finite 0 50 _ ltac:(lia) Rs2)) in Ls.
    lia. }
  pose proof (mul_ordered _ _ _ _ 12 9 21 Ou Op ltac:(lia) ltac:(lia)) as Om.
  pose proof (div_100_ordered _ _ 22 16 Om ltac:(lia) ltac:(lia)) as Or.
  assert (T : forall (u fp : B64.float) (d s pct : num),
             Py.add d s = Ok pct -> Py.to_float pct = Ok fp ->
             calculate_teg_recovery (PyFloat u) d s =
             Ok (PyFloat (B64.div (B64.mul u fp) (B64.of_Z 100)))).
  { intros u fp d s pct Ea Ef. unfold calculate_teg_recovery.
    rewrite Ea. cbn [Py.bind]. rewrite (PyFacts.mul_float_l _ _ _ Ef). cbn [Py.bind].
    unfold Py.truediv. cbn [Py.to_float Py.bind].
    change (Py.float_of_int 100) with (Ok (B64.of_Z 100)). cbn [Py.bind].
    change (B64.is_zero (B64.of_Z 100)) with false. reflexivity. }
  eexists. eexists.
  split; [exact (T _ _ _ _ _ Ep1 Efp1)|].
  split; [exact (T _ _ _ _ _ Ep2 Efp2)|].
  destruct Or as (Nr1 & Nr2 & Hr).
  split.
  - apply le_finite; [exact I|exact (nonneg0_finite_num _ _ Nr1)|].
    cbn [scaled_num]. exact (scaled_nonneg _ _ Nr1).
  - exact (ordered_le _ _ _ (conj Nr1 (conj Nr2 Hr))).
Qed.

Lemma calculate_teg_recovery_monotone_witness :
  exists r1 r2,
    calculate_teg_recovery (PyFloat (B64.literal 157 1)) (PyInt 1) (PyInt 0)
      = Ok (PyFloat r1) /\
    calculate_teg_recovery (PyFloat (B64.literal 356 1)) (PyInt 15)
                           (PyFloat (B64.literal 205 10))
      = Ok (PyFloat r2) /\
    Py.le (PyInt 0) (PyFloat r1) = true /\
    Py.le (PyFloat r1) (PyFloat r2) = true.
Proof.
  apply (calculate_teg_recovery_monotone
           (B64.literal 157 1) (B64.literal 356 1)
           (PyInt 1) (PyInt 15) (PyInt 0) (PyFloat (B64.literal 205 10)));
    repeat split; vm_compute; reflexivity.
Defined.

(* ================================================================== *)
(** ** What the pipe takes from the total *)
(* ================================================================== *)

Lemma monitor_pipe_ge_70 (health : num) :
  Py.ge health (PyInt 70) = true ->
  monitor_pipe health = (msg_optimal, PyFloat f1_0).
Proof.
  intros H. unfold monitor_pipe.
  pose proof (lt_40_70 health) as T. unfold Py.ge in H. unfold Py.lt in *.
  destruct (Py.compare health (PyInt 70)) as [[| |]|]; try discriminate H;
    destruct (Py.compare health (PyInt 40)) as [[| |]|]; try reflexivity;
    specialize (T eq_refl); discriminate T.
Qed.

(** X13. For all inputs within the ranges, total_output never exceeds
    the sum (geo_output + waste_output) + teg_recovery it is scaled
    from, and with a pipe health of 70 or more it is exactly that sum. *)
Theorem pipe_loss (w : Inputs) :
  inputs_in_range w ->
  exists o s1 s2,
    evaluate w = Ok o /\
    Py.add (geo_output o) (waste_output o) = Ok s1 /\
    Py.add s1 (teg_recovery o) = Ok s2 /\
    Py.le (total_output o) s2 = true /\
    (Py.ge (pipe_health w) (PyInt 70) = true -> total_output o = s2).
Proof.
  intros R.
  destruct (Run.ranged_pipeline w R)
    as (geo & waste & teg & total & dis & E & Ng & Nw & Nt & _).
  destruct (pipeline_inv w _ E) as (_ & _ & _ & _ & (s1 & s2 & E1 & E2 & E3) & _).
  cbn [geo_output waste_output teg_recovery pipe_efficiency total_output] in E1, E2, E3.
  unfold Py.add in E1. cbn [Py.to_float Py.bind] in E1. injection E1 as <-.
  unfold Py.add in E2. cbn [Py.to_float Py.bind] in E2. injection E2 as <-.
  assert (N2 : B64.nonneg0 21 (B64.add (B64.add geo waste) teg)).
  { apply (Run.nonneg0_add _ _ 19); [|exact Nt|lia].
    apply (Run.nonneg0_weaken 14); [|lia].
    apply (Run.nonneg0_add _ _ 12); [|apply (Run.nonneg0_weaken 10); [|lia]|lia];
      apply Run.nonneg_nonneg0; assumption. }
  destruct (Run.monitor_pipe_factor_nonneg (pipe_health w)) as (eff & Ee & Ne).
  rewrite Ee in E3. unfold Py.mul in E3. cbn [Py.to_float Py.bind] in E3.
  injection E3 as E3.
  assert (Heff : scaled eff <= 2 ^ 1074).
  { destruct (Run.monitor_pipe_factor (pipe_health w)) as [F|[F|F]];
      rewrite Ee in F; injection F as ->; vm_compute; discriminate. }
  pose proof (pow2_pos 1074 ltac:(lia)) as P.
  apply Run.nonneg_nonneg0 in Ne.
  eexists. exists (PyFloat (B64.add geo waste)),
                  (PyFloat (B64.add (B64.add geo waste) teg)).
  rewrite evaluate_pipeline. split; [exact E|].
  cbn [geo_output waste_output teg_recovery total_output].
  split; [reflexivity|]. split; [reflexivity|]. rewrite <- E3. split.
  - apply le_finite;
      [exact (nonneg0_finite_num _ _
                (Run.nonneg0_mul _ _ 21 1 22 N2 Ne ltac:(lia) ltac:(lia)))|
       exact (nonneg0_finite_num _ _ N2)|].
    cbn [scaled_num].
    apply (fmt_round_le (scaled (B64.add (B64.add geo waste) teg) * scaled eff)
                        (2 ^ 1074)); [exact P| | |].
    + exact (mul_rounds _ _ 21 1 22 N2 Ne ltac:(lia) ltac:(lia)).
    + exact (scaled_representable 21 _ N2).
    + apply Z.mul_le_mono_nonneg_l; [exact (scaled_nonneg 21 _ N2)|exact Heff].
  - intros H. rewrite (monitor_pipe_ge_70 _ H) in Ee. cbn [snd] in Ee.
    injection Ee as <-. f_equal.
    apply B64Facts.mul_one_r. destruct N2 as [F _].
    exact (PyFacts.fin_valid 21 _ F).
Qed.

Lemma pipe_loss_witness :
  exists o s1 s2,
    evaluate (slider_inputs 600 80 15 20 100 500) = Ok o /\
    Py.add (geo_output o) (waste_output o) = Ok s1 /\
    Py.add s1 (teg_recovery o) = Ok s2 /\
    Py.le (total_output o) s2 = true /\
    (Py.ge (pipe_health (slider_inputs 600 80 15 20 100 500)) (PyInt 70) = true ->
     total_output o = s2).
Proof.
  apply (pipe_loss (slider_inputs 600 80 15 20 100 500)).
  apply Run.slider_in_range. unfold in_slider_range. lia.
Defined.
